(** * Scoring engine: flag lifecycle and red-team scoring

    A shallow embedding of
      - [scoring_engine/web/views/api/flags.py]  (the flag API handlers),
      - [scoring_engine/red_team_scoring.py]     (penalty and adjustment sums),
      - [scoring_engine/models/score_adjustment.py] (the adjustment table),
      - [ftp_check_debug.py]                     (the path helper),
    followed by the properties of the flag lifecycle that hold on it.

    Conventions.  Instants are integers counting microseconds since the Unix
    epoch in UTC, the resolution of Python's [datetime]; the handlers bring
    every value to UTC before comparing.  The database is an explicit record
    of tables that the handlers thread through; a handler returns its HTTP
    response together with the database it leaves behind.  Rows of a table
    are kept in insertion order.  Scores of the totals view are exact
    rationals: the only fractional weight is one half. *)

From Stdlib Require Import ZArith List String Ascii Lia QArith Qcanon.
From Stdlib Require Import DecimalString Permutation Sorted.
From stdpp Require Import base decidable option list gmap strings.

Local Open Scope string_scope.
Local Open Scope list_scope.
Local Open Scope Z_scope.

(* ===================================================================== *)
(** * Part I.  The embedding *)
(* ===================================================================== *)

(** ** Python values met by the handlers

    Request payloads (JSON bodies or form fields), the JSON column
    [Flag.data] and the values of settings hold dynamically typed values.
    [PNone], [PBool], [PInt] and [PStr] are the scalars the handlers tell
    apart.  [POther t r] stands for a list or a mapping: all the handlers
    ever do with one is test its truth value [t] and print it with [str],
    giving [r].  Floating-point numbers are left out, and text is ASCII:
    whitespace, digits and letter case are those of the ASCII range. *)

Inductive pyval : Type :=
  | PNone
  | PBool (b : bool)
  | PInt (n : Z)
  | PStr (s : string)
  | POther (truth : bool) (repr : string).

#[global] Instance pyval_eq_dec : EqDecision pyval.
Proof. solve_decision. Defined.

(** Uncaught exceptions; Flask answers them with status 500. *)
Inductive pyexn : Type :=
  | AttributeError
  | KeyError
  | TypeError
  | ValueError
  | OverflowError.

(** [bool(v)]. *)
Definition truthy (v : pyval) : bool :=
  match v with
  | PNone => false
  | PBool b => b
  | PInt n => negb (Z.eqb n 0)
  | PStr s => negb (String.eqb s EmptyString)
  | POther t _ => t
  end.

(** [a or b]. *)
Definition py_or (a b : pyval) : pyval := if truthy a then a else b.

(** [str(v)]. *)
Definition py_str (v : pyval) : string :=
  match v with
  | PNone => "None"
  | PBool true => "True"
  | PBool false => "False"
  | PInt n => NilZero.string_of_int (Z.to_int n)
  | PStr s => s
  | POther _ r => r
  end.

(** Whitespace as [str.isspace] classifies the ASCII range. *)
Definition is_space (c : ascii) : bool :=
  let n := nat_of_ascii c in
  ((9 <=? n)%nat && (n <=? 13)%nat) || ((28 <=? n)%nat && (n <=? 32)%nat).

Fixpoint lstrip (s : string) : string :=
  match s with
  | EmptyString => EmptyString
  | String c s' => if is_space c then lstrip s' else s
  end.

Fixpoint rstrip (s : string) : string :=
  match s with
  | EmptyString => EmptyString
  | String c s' =>
      match rstrip s' with
      | EmptyString => if is_space c then EmptyString else String c EmptyString
      | r => String c r
      end
  end.

(** [s.strip()]. *)
Definition strip (s : string) : string := rstrip (lstrip s).

Definition lower_ascii (c : ascii) : ascii :=
  let n := nat_of_ascii c in
  if ((65 <=? n)%nat && (n <=? 90)%nat) then ascii_of_nat (n + 32) else c.

(** [s.lower()] on ASCII text. *)
Fixpoint lower (s : string) : string :=
  match s with
  | EmptyString => EmptyString
  | String c s' => String (lower_ascii c) (lower s')
  end.

Definition is_digit (c : ascii) : bool :=
  let n := nat_of_ascii c in (48 <=? n)%nat && (n <=? 57)%nat.

Definition digit_val (c : ascii) : Z := Z.of_nat (nat_of_ascii c) - 48.

(** The digits of an integer literal as [int(str)] reads them: decimal
    digits, single underscores allowed between two digits.  [prev] tells
    whether the previous character was a digit. *)
Fixpoint int_digits (acc : Z) (prev : bool) (s : string) : option Z :=
  match s with
  | EmptyString => if prev then Some acc else None
  | String c s' =>
      if is_digit c then int_digits (10 * acc + digit_val c) true s'
      else if Ascii.eqb c "_" then
             (if prev then int_digits acc false s' else None)
      else None
  end.

(** [int(s)] for a string: surrounding whitespace is dropped, one sign is
    allowed; [None] is [ValueError]. *)
Definition int_of_str (s : string) : option Z :=
  match strip s with
  | String "+" r => int_digits 0 false r
  | String "-" r => Z.opp <$> int_digits 0 false r
  | t => int_digits 0 false t
  end.

(** [int(v)]; [None] is [TypeError] or [ValueError], which every caller
    catches together. *)
Definition py_int (v : pyval) : option Z :=
  match v with
  | PNone => None
  | PBool b => Some (if b then 1 else 0)
  | PInt n => Some n
  | PStr s => int_of_str s
  | POther _ _ => None
  end.

(** [d.get(k)] on a mapping of Python values: [None] when the key is absent. *)
Definition dict_get (d : gmap string pyval) (k : string) : pyval :=
  default PNone (d !! k).

(** [d.get(k, dflt)]. *)
Definition dict_get_default (d : gmap string pyval) (k : string) (dflt : pyval)
  : pyval :=
  default dflt (d !! k).

(** ** Instants and durations *)

Definition usec_per_sec : Z := 1000000.

(** [datetime.min] and [datetime.max]. *)
Definition datetime_min : Z := -62135596800 * usec_per_sec.
Definition datetime_max : Z := 253402300799 * usec_per_sec + 999999.

(** [timedelta(hours=h)] and [timedelta(minutes=m)] in microseconds; a
    duration of more than 999999999 days either way is [OverflowError]. *)
Definition timedelta_in_range (us : Z) : bool :=
  (-999999999 * 86400 * usec_per_sec <=? us)
  && (us <? (999999999 + 1) * 86400 * usec_per_sec).

Definition timedelta_hours (h : Z) : option Z :=
  let us := h * 3600 * usec_per_sec in
  if timedelta_in_range us then Some us else None.

Definition timedelta_minutes (m : Z) : option Z :=
  let us := m * 60 * usec_per_sec in
  if timedelta_in_range us then Some us else None.

(** [t + d]; [None] is the [OverflowError] of a result outside
    [datetime.min .. datetime.max]. *)
Definition datetime_add (t d : Z) : option Z :=
  let r := t + d in
  if (datetime_min <=? r) && (r <=? datetime_max) then Some r else None.

(** ** Tables

    [models/score_adjustment.py] is embedded column by column.  The models
    of teams, users, flags, solves, submissions and settings are declared
    in files that are not part of this development; each is given below
    with the attributes the handlers read and write. *)

(** Modelled from the spec: the [Team] model ([models/team.py]), "id,
    name, color ∈ {Blue, Red, White}"; [api_flags_totals] compares the
    colour with the text "Blue". *)
Module Team.
Record row : Type := { id : Z; name : string; color : string }.
End Team.
Abbreviation Team := Team.row.

#[global] Instance Team_eq_dec : EqDecision Team.
Proof. solve_decision. Defined.

Definition is_blue_team (t : Team) : bool := String.eqb (Team.color t) "Blue".

(** Modelled from the spec: the logged-in user ([models/user.py]), of whom
    the handlers read the identifier, the team and the role, the role being
    the colour of the team. *)
Module User.
Record row : Type := { id : Z; team : Team }.
End User.
Abbreviation User := User.row.

(** [current_user.is_red_team], [current_user.is_white_team]. *)
Definition is_red_team (u : User) : bool :=
  String.eqb (Team.color (User.team u)) "Red".
Definition is_white_team (u : User) : bool :=
  String.eqb (Team.color (User.team u)) "White".

(** Modelled from the spec: the [Flag] model and its enumerations
    ([models/flag.py]), "content-type classification (e.g. file-based),
    platform ∈ {Windows, Nix}, required-permission ∈ {User, Root}, a content
    payload, start_time, end_time, dummy". *)
Inductive FlagTypeEnum : Type := file | other_type (tag : string).
Inductive Platform : Type := windows | nix.
Inductive Perm : Type := user | root.

#[global] Instance Platform_eq_dec : EqDecision Platform.
Proof. solve_decision. Defined.
#[global] Instance Perm_eq_dec : EqDecision Perm.
Proof. solve_decision. Defined.
#[global] Instance FlagTypeEnum_eq_dec : EqDecision FlagTypeEnum.
Proof. solve_decision. Defined.

(** The JSON column [Flag.data]: a mapping, or anything else. *)
Inductive flagdata : Type :=
  | DataDict (d : gmap string pyval)
  | DataOther (v : pyval).

Module Flag.
Record row : Type := {
    id : Z;
    type : FlagTypeEnum;
    platform : Platform;
    perm : Perm;
    data : flagdata;
    start_time : Z;
    end_time : Z;
    dummy : bool
  }.
End Flag.
Abbreviation Flag := Flag.row.

(** Modelled from the spec: the [Solve] model ([models/flag.py]),
    "evidence an automated agent observed a flag's token present on a given
    (team, host)", with the columns the queries name. *)
Module Solve.
Record row : Type := { id : Z; host : string; team_id : Z; flag_id : Z }.
End Solve.
Abbreviation Solve := Solve.row.

(** Modelled from the spec: the [RedFlagSubmission] model
    ([models/flag.py]), "records submitting team/user, points deducted,
    timestamp", with the columns [api_flags_submit] fills. *)
Module RedFlagSubmission.
Record row : Type := {
    id : Z;
    flag_id : Z;
    target_team_id : Z;
    submitted_by_team_id : Z;
    submitted_by_user_id : Z;
    points : Z;
    submitted_at : Z
  }.
End RedFlagSubmission.
Abbreviation RedFlagSubmission := RedFlagSubmission.row.

Module ScoreAdjustment.
Record row : Type := {
    id : Z;
    target_team_id : Z;
    adjusted_by_team_id : Z;
    adjusted_by_user_id : Z;
    points : Z;
    reason : option string;
    created_at : Z
  }.
End ScoreAdjustment.
Abbreviation ScoreAdjustment := ScoreAdjustment.row.

(** Calls into [cache_helper], recorded in the order they are made. *)
Inductive cache_call : Type :=
  | update_flags_data
  | update_scoreboard_data
  | update_team_stats (team_id : Z).

Record DB : Type := {
  teams : list Team;
  flags : list Flag;
  solves : list Solve;
  submissions : list RedFlagSubmission;
  adjustments : list ScoreAdjustment;
  settings : gmap string pyval;
  cache_calls : list cache_call
}.

(** The next value of an auto-increment primary key. *)
Definition fresh_id (ids : list Z) : Z := 1 + foldr Z.max 0 ids.

(** [db.session.get(Team, team_id)]. *)
Definition session_get_team (db : DB) (team_id : Z) : option Team :=
  find (fun t => Z.eqb (Team.id t) team_id) (teams db).

(** [db.session.get(Flag, flag_id)] for the identifier as it arrives in
    the payload: the integer column reads the value as an integer, and a
    value that denotes none finds no row. *)
Definition session_get_flag (db : DB) (flag_id : pyval) : option Flag :=
  k ← py_int flag_id; find (fun f => Z.eqb (Flag.id f) k) (flags db).

(** Modelled from the spec: [Setting.get_setting(name)]
    ([models/setting.py]), "process-wide configuration keyed by name"; the
    result is the [value] of the setting, [None] when there is none. *)
Definition get_setting (db : DB) (name : string) : option pyval :=
  settings db !! name.

(** ** Responses *)

Inductive response (A : Type) : Type :=
  | Ok (body : A)                       (* jsonify(body), 200 *)
  | Error (status : Z) (msg : string)   (* jsonify({"error": msg}), status *)
  | Unauthorized                        (* jsonify({"status": "Unauthorized"}), 403 *)
  | Raise (e : pyexn).                  (* uncaught: 500 *)
Arguments Ok {A} body.
Arguments Error {A} status msg.
Arguments Unauthorized {A}.
Arguments Raise {A} e.

(** The error responses of [api_flags_submit] under the names the
    specification gives them. *)
Definition NotFound {A} : response A := Error 404 "flag not found".
Definition NotActive {A} : response A := Error 400 "flag is not currently active".
Definition InvalidTarget {A} : response A :=
  Error 400 "target team must be a blue team".
Definition Conflict {A} : response A :=
  Error 409 "flag already submitted for this blue team".

(** ** [order_by]: a stable sort on a key *)

Fixpoint insert_by {A} (le : A -> A -> bool) (x : A) (l : list A) : list A :=
  match l with
  | [] => [x]
  | y :: l' => if le x y then x :: l else y :: insert_by le x l'
  end.

Definition order_by {A} (le : A -> A -> bool) (l : list A) : list A :=
  foldr (insert_by le) [] l.

(** ** flags.py *)

(** [_parse_datetime_input].  [parse_datetime] is [dateutil.parser.parse]
    followed by the conversion to UTC; it is a parameter of the
    development, [None] standing for [ValueError].  A value that is not
    text makes the parser raise [TypeError], caught alike. *)
Definition _parse_datetime_input (parse_datetime : string -> option Z)
    (value : pyval) : option Z :=
  if negb (truthy value) then None
  else match value with
       | PStr s => parse_datetime s
       | _ => None
       end.

Definition _get_flag_token (flag_obj : Flag) : option string :=
  match Flag.data flag_obj with
  | DataOther _ => None
  | DataDict d =>
      let token := dict_get d "flag" in
      if truthy token then Some (strip (py_str token))
      else
        let content_token := dict_get d "content" in
        if truthy content_token then Some (strip (py_str content_token))
        else None
  end.

(** *** red_team_scoring.py *)

Definition DEFAULT_RED_FLAG_SUBMISSION_PENALTY : Z := 10.

Definition get_red_flag_submission_penalty (db : DB) : Z :=
  match get_setting db "red_team_flag_submission_penalty" with
  | None => DEFAULT_RED_FLAG_SUBMISSION_PENALTY
  | Some value =>
      match py_int value with
      | Some n => n
      | None => DEFAULT_RED_FLAG_SUBMISSION_PENALTY
      end
  end.

(** [SELECT key, coalesce(sum(points), 0) ... GROUP BY key] read into a
    dictionary: one entry per key that has a row, holding the sum of the
    points of its rows. *)
Definition sum_points_by {R} (key points : R -> Z) (rows : list R) : gmap Z Z :=
  foldr (fun r m => <[key r := default 0 (m !! key r) + points r]> m) ∅ rows.

Definition get_blue_team_penalty_points (db : DB) : gmap Z Z :=
  sum_points_by RedFlagSubmission.target_team_id RedFlagSubmission.points
    (submissions db).

Definition get_blue_team_manual_adjustment_points (db : DB) : gmap Z Z :=
  sum_points_by ScoreAdjustment.target_team_id ScoreAdjustment.points
    (adjustments db).

(** *** GET /api/flags *)

Record flag_entry : Type := {
  entry_id : Z;
  entry_flag : option string;
  entry_content : pyval
}.

(** [TypeError] or [ValueError], as [int(v)] raises on [v]. *)
Definition int_error (v : pyval) : pyexn :=
  match v with PStr _ => ValueError | _ => TypeError end.

(** The query of [api_flags] and the filter for a red-team caller. *)
Definition visible_flags (now early : Z) (current_user : User) (db : DB)
  : list Flag :=
  let flags :=
    order_by (fun f g => Flag.start_time f <=? Flag.start_time g)
      (filter (fun f => (early >? Flag.start_time f) = true
                        ∧ (now <? Flag.end_time f) = true
                        ∧ Flag.dummy f = false)
              (flags db)) in
  if is_red_team current_user then
    let submitted_flag_ids : gset Z :=
      list_to_set
        (map RedFlagSubmission.flag_id
           (filter (fun row => RedFlagSubmission.submitted_by_team_id row
                               = Team.id (User.team current_user))
                   (submissions db))) in
    filter (fun flag => Flag.id flag ∈ submitted_flag_ids) flags
  else flags.

(** One element of the serialised list; [f.data.get] raises
    [AttributeError] when [f.data] is not a mapping. *)
Definition serialize_flag (f : Flag) : pyexn + flag_entry :=
  match Flag.data f with
  | DataDict d =>
      inr {| entry_id := Flag.id f;
             entry_flag := _get_flag_token f;
             entry_content := dict_get d "content" |}
  | DataOther _ => inl AttributeError
  end.

Fixpoint serialize_flags (l : list Flag) : pyexn + list flag_entry :=
  match l with
  | [] => inr []
  | f :: l' =>
      match serialize_flag f with
      | inl e => inl e
      | inr x => match serialize_flags l' with
                 | inl e => inl e
                 | inr xs => inr (x :: xs)
                 end
      end
  end.

(** The body of [api_flags]; the response cache in front of it is not
    part of the model. *)
Definition api_flags (now : Z) (current_user : User) (db : DB)
  : response (list flag_entry) :=
  match session_get_team db (Team.id (User.team current_user)) with
  | None => Unauthorized
  | Some team =>
      if negb (bool_decide (User.team current_user = team))
         || negb (is_red_team current_user || is_white_team current_user)
      then Unauthorized
      else
        match get_setting db "agent_show_flag_early_mins" with
        | None => Raise AttributeError
        | Some value =>
            match py_int value with
            | None => Raise (int_error value)
            | Some mins =>
                match timedelta_minutes mins ≫= datetime_add now with
                | None => Raise OverflowError
                | Some early =>
                    match serialize_flags
                            (visible_flags now early current_user db) with
                    | inl e => Raise e
                    | inr data => Ok data
                    end
                end
            end
        end
  end.

(** *** POST /api/flags/add *)

Definition set_flags (db : DB) (fs : list Flag) (calls : list cache_call) : DB :=
  {| teams := teams db; flags := fs; solves := solves db;
     submissions := submissions db; adjustments := adjustments db;
     settings := settings db; cache_calls := cache_calls db ++ calls |}.

Definition api_flags_add (parse_datetime : string -> option Z)
    (now : Z) (current_user : User) (payload : gmap string pyval) (db : DB)
  : response Z * DB :=
  if negb (is_white_team current_user) then
    (Error 403 "Incorrect permissions", db)
  else
    match py_or (dict_get payload "content") (PStr EmptyString) with
    | PStr raw =>
        let content := strip raw in
        let dummy_raw :=
          lower (strip (py_str (dict_get_default payload "dummy" (PStr "false")))) in
        if String.eqb content EmptyString then (Error 400 "content is required", db)
        else
          let start_time :=
            default now
              (_parse_datetime_input parse_datetime (dict_get payload "start_time")) in
          let end_time :=
            match _parse_datetime_input parse_datetime
                    (dict_get payload "end_time") with
            | Some t => Some t
            | None => timedelta_hours 3 ≫= datetime_add start_time
            end in
          match end_time with
          | None => (Raise OverflowError, db)
          | Some end_time =>
              if end_time <=? start_time then
                (Error 400 "end_time must be after start_time", db)
              else
                let dummy :=
                  bool_decide (dummy_raw ∈ ["true"; "1"; "yes"; "on"]) in
                let new_flag :=
                  {| Flag.id := fresh_id (map Flag.id (flags db));
                     Flag.type := file;
                     Flag.platform := nix;
                     Flag.perm := user;
                     Flag.data := DataDict {[ "content" := PStr content ]};
                     Flag.start_time := start_time;
                     Flag.end_time := end_time;
                     Flag.dummy := dummy |} in
                (Ok (Flag.id new_flag),
                 set_flags db (flags db ++ [new_flag]) [update_flags_data])
          end
    | _ => (Raise AttributeError, db)   (* [.strip()] on a value that is no text *)
    end.

(** *** POST /api/flags/adjust_score *)

Record adjust_ok : Type := {
  adjust_team_id : Z;
  adjust_points : Z;
  adjust_reason : string
}.

Definition add_adjustment (db : DB) (a : ScoreAdjustment)
    (calls : list cache_call) : DB :=
  {| teams := teams db; flags := flags db; solves := solves db;
     submissions := submissions db; adjustments := adjustments db ++ [a];
     settings := settings db; cache_calls := cache_calls db ++ calls |}.

Definition api_flags_adjust_score (now : Z) (current_user : User)
    (payload : gmap string pyval) (db : DB) : response adjust_ok * DB :=
  if negb (is_white_team current_user) then
    (Error 403 "Incorrect permissions", db)
  else
    let team_id := dict_get payload "team_id" in
    let points := dict_get payload "points" in
    match py_or (dict_get payload "reason") (PStr EmptyString) with
    | PStr raw_reason =>
        let reason := strip raw_reason in
        if bool_decide (team_id = PNone) || bool_decide (points = PNone) then
          (Error 400 "team_id and points are required", db)
        else
          match py_int team_id, py_int points with
          | Some team_id, Some points =>
              match session_get_team db team_id with
              | None => (Error 400 "target team must be a blue team", db)
              | Some target_team =>
                  if negb (is_blue_team target_team) then
                    (Error 400 "target team must be a blue team", db)
                  else
                    let adjustment :=
                      {| ScoreAdjustment.id :=
                           fresh_id (map ScoreAdjustment.id (adjustments db));
                         ScoreAdjustment.target_team_id := Team.id target_team;
                         ScoreAdjustment.adjusted_by_team_id :=
                           Team.id (User.team current_user);
                         ScoreAdjustment.adjusted_by_user_id := User.id current_user;
                         ScoreAdjustment.points := points;
                         ScoreAdjustment.reason :=
                           if String.eqb reason EmptyString then None else Some reason;
                         ScoreAdjustment.created_at := now |} in
                    (Ok {| adjust_team_id := Team.id target_team;
                           adjust_points := points;
                           adjust_reason := reason |},
                     add_adjustment db adjustment
                       [update_scoreboard_data;
                        update_team_stats (Team.id target_team)])
              end
          | _, _ => (Error 400 "team_id and points must be integers", db)
          end
    | _ => (Raise AttributeError, db)
    end.

(** *** POST /api/flags/submit *)

Record submit_ok : Type := {
  submit_flag_id : Z;
  submit_team_id : Z;
  points_deducted : Z
}.

(** [flag.start_time <= now <= flag.end_time]. *)
Definition in_window (now : Z) (f : Flag) : bool :=
  (Flag.start_time f <=? now) && (now <=? Flag.end_time f).

(** The loop over [candidate_flags]: the first candidate inside its window
    whose token is non-empty and equals the submitted value. *)
Fixpoint scan_candidates (now : Z) (submitted_flag_value : string)
    (candidate_flags : list Flag) : option Flag :=
  match candidate_flags with
  | [] => None
  | candidate :: rest =>
      if negb (in_window now candidate) then
        scan_candidates now submitted_flag_value rest
      else
        match _get_flag_token candidate with
        | Some token =>
            if negb (String.eqb token EmptyString) && String.eqb token submitted_flag_value
            then Some candidate
            else scan_candidates now submitted_flag_value rest
        | None => scan_candidates now submitted_flag_value rest
        end
  end.

(** Lines 217-233: the flag a request names, by identifier when
    [flag_id] is truthy and by token otherwise. *)
Definition resolve_flag (now : Z) (flag_id submitted_flag_value : pyval)
    (db : DB) : option Flag :=
  if truthy flag_id then session_get_flag db flag_id
  else
    let submitted_flag_value := strip (py_str submitted_flag_value) in
    let candidate_flags := filter (fun f => Flag.dummy f = false) (flags db) in
    scan_candidates now submitted_flag_value candidate_flags.

(** Modelled from the spec: the uniqueness constraint of the
    [RedFlagSubmission] table, declared in [models/flag.py], which is not
    part of this development.  The specification states it as "at most one
    submission per (flag, target_team) ever exists"; a commit that would
    break it raises [IntegrityError]. *)
Definition same_pair (flag_id target_team_id : Z) (r : RedFlagSubmission) : bool :=
  (RedFlagSubmission.flag_id r =? flag_id)
  && (RedFlagSubmission.target_team_id r =? target_team_id).

Definition integrity_error (db : DB) (r : RedFlagSubmission) : bool :=
  existsb (same_pair (RedFlagSubmission.flag_id r)
                     (RedFlagSubmission.target_team_id r))
          (submissions db).

Definition add_submission (db : DB) (r : RedFlagSubmission)
    (calls : list cache_call) : DB :=
  {| teams := teams db; flags := flags db; solves := solves db;
     submissions := submissions db ++ [r]; adjustments := adjustments db;
     settings := settings db; cache_calls := cache_calls db ++ calls |}.

(** Lines 240-267: build the row, commit it, and on success refresh the
    caches.  On [IntegrityError] the session is rolled back, which leaves
    the database as it was. *)
Definition persist_submission (submitted_at : Z) (current_user : User)
    (flag : Flag) (target_team : Team) (db : DB) : response submit_ok * DB :=
  let points := get_red_flag_submission_penalty db in
  let submission :=
    {| RedFlagSubmission.id :=
         fresh_id (map RedFlagSubmission.id (submissions db));
       RedFlagSubmission.flag_id := Flag.id flag;
       RedFlagSubmission.target_team_id := Team.id target_team;
       RedFlagSubmission.submitted_by_team_id := Team.id (User.team current_user);
       RedFlagSubmission.submitted_by_user_id := User.id current_user;
       RedFlagSubmission.points := points;
       RedFlagSubmission.submitted_at := submitted_at |} in
  if integrity_error db submission then (Conflict, db)
  else
    (Ok {| submit_flag_id := Flag.id flag;
           submit_team_id := Team.id target_team;
           points_deducted := points |},
     add_submission db submission
       [update_scoreboard_data; update_team_stats (Team.id target_team);
        update_flags_data]).

(** [payload.get("content") or payload.get("flag") or
     payload.get("flag_value") or payload.get("submitted_flag")]. *)
Definition submitted_value (payload : gmap string pyval) : pyval :=
  py_or (py_or (py_or (dict_get payload "content") (dict_get payload "flag"))
               (dict_get payload "flag_value"))
        (dict_get payload "submitted_flag").

(** Lines 189-238: every check made before the penalty is read.  The
    result is the response of an early [return], or the flag and the target
    team with which the handler goes on.  [now] is the clock read on line
    216. *)
Definition submit_checks (now : Z) (current_user : User)
    (payload : gmap string pyval) (db : DB)
  : response submit_ok + (Flag * Team) :=
  if negb (is_red_team current_user) then
    inl (Error 403 "Incorrect permissions")
  else
    let flag_id := dict_get payload "flag_id" in
    let submitted_flag_value := submitted_value payload in
    let team_id := dict_get payload "team_id" in
    if negb (truthy team_id) then inl (Error 400 "team_id is required")
    else if negb (truthy flag_id) && negb (truthy submitted_flag_value) then
      inl (Error 400 "flag_id or submitted flag value is required")
    else
      match py_int team_id with
      | None => inl (Error 400 "team_id must be an integer")
      | Some team_id =>
          match session_get_team db team_id with
          | None => inl InvalidTarget
          | Some target_team =>
              if negb (is_blue_team target_team) then inl InvalidTarget
              else
                match resolve_flag now flag_id submitted_flag_value db with
                | None => inl NotFound
                | Some flag =>
                    if Flag.dummy flag || negb (in_window now flag) then
                      inl NotActive
                    else inr (flag, target_team)
                end
          end
      end.

(** [submitted_at] is the clock read on line 247. *)
Definition api_flags_submit (now submitted_at : Z) (current_user : User)
    (payload : gmap string pyval) (db : DB) : response submit_ok * DB :=
  match submit_checks now current_user payload db with
  | inl early_return => (early_return, db)
  | inr (flag, target_team) =>
      persist_submission submitted_at current_user flag target_team db
  end.

(** *** GET /api/flags/totals *)

(** [GROUP BY]: one group for each distinct key, holding the rows of the
    table that have this key, in table order. *)
Definition group_by {A K : Type} `{EqDecision K} (key : A -> K) (l : list A)
  : list (K * list A) :=
  map (fun k => (k, filter (fun x => key x = k) l)) (remove_dups (map key l)).

(** A Python [dict] with text keys, in insertion order. *)
Section ODict.
Context {V : Type}.

Fixpoint odict_get (k : string) (d : list (string * V)) : option V :=
    match d with
    | [] => None
    | (k', v) :: d' => if String.eqb k k' then Some v else odict_get k d'
    end.

Fixpoint odict_set (k : string) (v : V) (d : list (string * V))
    : list (string * V) :=
    match d with
    | [] => [(k, v)]
    | (k', v') :: d' =>
        if String.eqb k k' then (k', v) :: d' else (k', v') :: odict_set k v d'
    end.
End ODict.

Definition half : Qc := Q2Qc (1 # 2).
Definition Qc_of_Z (n : Z) : Qc := Q2Qc (inject_Z n).
Definition sum_Qc (l : list Qc) : Qc := foldr Qcplus (Q2Qc 0) l.

(** SQL [max] over a group; [None] is the NULL of an empty group. *)
Definition sql_max (l : list Z) : option Z :=
  match l with
  | [] => None
  | x :: l' => Some (foldr Z.max x l')
  end.

(** [Solve JOIN Flag ON Flag.id == Solve.flag_id WHERE Flag.platform ==
    platform_enum]. *)
Definition solve_join_flag (db : DB) (platform_enum : Platform)
  : list (Solve * Flag) :=
  filter (fun sf => Flag.platform sf.2 = platform_enum)
    (s ← solves db;
     f ← filter (fun f => Flag.id f = Solve.flag_id s) (flags db);
     [(s, f)]).

(** Rows of [subquery1]: team_id, host, level. *)
Definition subquery1 (db : DB) (platform_enum : Platform)
  : list (Z * string * string) :=
  map (fun g : (Z * Platform * string * Z) * list (Solve * Flag) =>
         let '((team_id, _, host, _), rows) := g in
         (team_id, host,
          if decide (sql_max (map (fun sf => if decide (Flag.perm sf.2 = root)
                                             then 1 else 0) rows) = Some 1)
          then "root" else "user"))
      (group_by (fun sf => (Solve.team_id sf.1, Flag.platform sf.2,
                            Solve.host sf.1, Flag.start_time sf.2))
                (solve_join_flag db platform_enum)).

(** Rows of [subquery2]: BlueTeamId, red_amt.  The [ORDER BY] of this
    subquery does not reach the aggregate that reads it. *)
Definition subquery2 (sq1 : list (Z * string * string)) : list (Z * Qc) :=
  map (fun g : (Z * string) * list (Z * string * string) =>
         let '((team_id, level), rows) := g in
         let count := Qc_of_Z (Z.of_nat (length rows)) in
         (team_id,
          if String.eqb level "user" then (half * count)%Qc
          else (Qc_of_Z 1 * count)%Qc))
      (group_by (fun r : Z * string * string => (r.1.1, r.2)) sq1).

(** Rows of [final_query]: BlueTeam, RedScore, ascending by RedScore. *)
Definition final_query (db : DB) (platform_enum : Platform)
  : list (string * Qc) :=
  let joined : list ((Z * Qc) * Team) :=
    r ← subquery2 (subquery1 db platform_enum);
    t ← filter (fun t => r.1 = Team.id t) (teams db);
    [(r, t)] in
  order_by (fun a b : string * Qc => Qle_bool (this a.2) (this b.2))
    (map (fun g : Z * list ((Z * Qc) * Team) =>
            (default EmptyString ((fun rt : (Z * Qc) * Team => Team.name rt.2) <$> head g.2),
             sum_Qc (map (fun rt : (Z * Qc) * Team => rt.1.2) g.2)))
         (group_by (fun rt : (Z * Qc) * Team => rt.1.1) joined)).

(** [totals[row.BlueTeam][1] = row.RedScore] for the Windows results,
    [totals[row.BlueTeam][2] = row.RedScore] for the Nix ones; a name that
    is no key of [totals] raises [KeyError]. *)
Fixpoint assign_scores (platform_enum : Platform) (results : list (string * Qc))
    (totals : list (string * (string * Qc * Qc)))
  : pyexn + list (string * (string * Qc * Qc)) :=
  match results with
  | [] => inr totals
  | (BlueTeam, RedScore) :: rest =>
      match odict_get BlueTeam totals with
      | None => inl KeyError
      | Some (n, w, x) =>
          assign_scores platform_enum rest
            (odict_set BlueTeam
               (match platform_enum with
                | windows => (n, RedScore, x)
                | nix => (n, w, RedScore)
                end) totals)
      end
  end.

Record totals_entry : Type := {
  team : string;
  win_score : Qc;
  nix_score : Qc;
  total_score : Qc
}.

(** The body of [api_flags_totals]; the response cache in front of it is
    not part of the model. *)
Definition api_flags_totals (current_user : User) (db : DB)
  : response (list totals_entry) :=
  if negb (is_red_team current_user) && negb (is_white_team current_user) then
    Unauthorized
  else
    let blue_teams :=
      order_by (fun a b => Team.id a <=? Team.id b)
               (filter (fun t => Team.color t = "Blue") (teams db)) in
    let totals :=
      fold_left (fun d blue_team =>
                   odict_set (Team.name blue_team)
                     (Team.name blue_team, Q2Qc 0, Q2Qc 0) d)
                blue_teams [] in
    let totals :=
      fold_left (fun acc platform_enum =>
                   match acc with
                   | inl e => inl e
                   | inr totals =>
                       assign_scores platform_enum
                         (final_query db platform_enum) totals
                   end)
                [windows; nix] (inr totals) in
    match totals with
    | inl e => Raise e
    | inr totals =>
        Ok (map (fun kv : string * (string * Qc * Qc) =>
                   let '(t0, t1, t2) := kv.2 in
                   {| team := t0; win_score := t1; nix_score := t2;
                      total_score := (t1 + t2)%Qc |})
                totals)
    end.

(** *** GET /api/flags/solves *)

(** Modelled from the spec: the [Service] model ([models/service.py]),
    "id, name, host, port, owning team, check type identifier", with the
    columns the query of [api_flags_solves] names.  The table of services
    is an argument of the handler. *)
Module Service.
Record row : Type := {
  id : Z;
  name : string;
  host : string;
  port : Z;
  team_id : Z;
  check_name : string
}.
End Service.
Abbreviation Service := Service.row.

(** A Python [dict] in insertion order, for any kind of key. *)
Section PDict.
Context {K V : Type} `{EqDecision K}.

Fixpoint pdict_get (k : K) (d : list (K * V)) : option V :=
  match d with
  | [] => None
  | (k', v) :: d' => if decide (k = k') then Some v else pdict_get k d'
  end.

Fixpoint pdict_set (k : K) (v : V) (d : list (K * V)) : list (K * V) :=
  match d with
  | [] => [(k, v)]
  | (k', v') :: d' =>
      if decide (k = k') then (k', v) :: d' else (k', v') :: pdict_set k v d'
  end.
End PDict.

(** A row of [all_hosts]; the columns that come from an outer join are
    NULL when the join finds no partner. *)
Record host_row : Type := {
  service_name : string;
  host_port : Z;
  host_team_id : Z;
  host_name : string;
  team_name : option string;
  solve_id : option Z;
  host_flag_id : option Z;
  flag_perm : option Perm;
  flag_platform : option Platform
}.

(** The right-hand side of a LEFT OUTER JOIN for one left row: its
    partners, or one NULL when it has none. *)
Definition outer_join {B} (partners : list B) : list (option B) :=
  match partners with
  | [] => [None]
  | _ => map Some partners
  end.

(** The flags whose window strictly contains [now], dummies left out. *)
Definition active_flags (now : Z) (db : DB) : list Flag :=
  order_by (fun f g => Flag.start_time f <=? Flag.start_time g)
    (filter (fun f => (now >? Flag.start_time f) = true
                      ∧ (now <? Flag.end_time f) = true
                      ∧ Flag.dummy f = false)
            (flags db)).

(** [ORDER BY Service.name, Service.team_id], names compared byte by
    byte. *)
Definition host_row_le (a b : host_row) : bool :=
  if String.eqb (service_name a) (service_name b)
  then host_team_id a <=? host_team_id b
  else String.ltb (service_name a) (service_name b).

(** The query [all_hosts]. *)
Definition all_hosts (now : Z) (services : list Service) (db : DB)
  : list host_row :=
  let active_flag_ids := map Flag.id (active_flags now db) in
  order_by host_row_le
    (s ← filter (fun s => Service.check_name s = "AgentCheck") services;
     so ← outer_join
             (filter (fun sv => Solve.host sv = Service.host s
                                ∧ Solve.team_id sv = Service.team_id s
                                ∧ Solve.flag_id sv ∈ active_flag_ids)
                     (solves db));
     fo ← outer_join
             (match so with
              | Some sv =>
                  filter (fun f => Flag.id f = Solve.flag_id sv) (flags db)
              | None => []
              end);
     t ← outer_join
            (filter (fun t => Team.id t = Service.team_id s) (teams db));
     [ {| service_name := Service.name s;
          host_port := Service.port s;
          host_team_id := Service.team_id s;
          host_name := Service.host s;
          team_name := Team.name <$> t;
          solve_id := Solve.id <$> so;
          host_flag_id := Flag.id <$> fo;
          flag_perm := Flag.perm <$> fo;
          flag_platform := Flag.platform <$> fo |} ]).

(** [if item.solve_id:]. *)
Definition has_solve (item : host_row) : bool :=
  match solve_id item with
  | Some n => negb (Z.eqb n 0)
  | None => false
  end.

(** The dictionary [data]: team name, then service name, then the pair
    [[user, root]]. *)
Abbreviation solves_data :=
  (list (option string * list (string * (Z * Z)))).

(** One turn of the loop over [all_hosts], on [columns] and [data]. *)
Definition solves_step (st : list string * solves_data) (item : host_row)
  : pyexn + (list string * solves_data) :=
  let '(columns, data) := st in
  let columns :=
    if bool_decide (service_name item ∈ columns) then columns
    else columns ++ [service_name item] in
  let data :=
    match pdict_get (team_name item) data with
    | Some (_ :: _) => data
    | _ => pdict_set (team_name item) [] data
    end in
  let services := default [] (pdict_get (team_name item) data) in
  let services :=
    match pdict_get (service_name item) services with
    | Some _ => services
    | None => pdict_set (service_name item) (0, 0) services
    end in
  let cell := default (0, 0) (pdict_get (service_name item) services) in
  if has_solve item then
    match flag_perm item with
    | None => inl AttributeError
    | Some user =>
        inr (columns,
             pdict_set (team_name item)
               (pdict_set (service_name item) (1, cell.2) services) data)
    | Some root =>
        inr (columns,
             pdict_set (team_name item)
               (pdict_set (service_name item) (cell.1, 1) services) data)
    end
  else inr (columns, pdict_set (team_name item) services data).

Definition solves_loop (items : list host_row)
  : pyexn + (list string * solves_data) :=
  fold_left (fun acc item =>
               match acc with
               | inl e => inl e
               | inr st => solves_step st item
               end)
            items (inr (["Team"], [])).

Record solves_table : Type := {
  solves_columns : list string;
  solves_rows : list (option string * list (Z * Z))
}.

(** The body of [api_flags_solves]; the response cache in front of it is
    not part of the model. *)
Definition api_flags_solves (now : Z) (current_user : User)
    (services : list Service) (db : DB) : response solves_table :=
  if negb (is_red_team current_user) && negb (is_white_team current_user) then
    Unauthorized
  else
    match solves_loop (all_hosts now services db) with
    | inl e => Raise e
    | inr (columns, data) =>
        Ok {| solves_columns := columns;
              solves_rows :=
                map (fun kv : option string * list (string * (Z * Z)) =>
                       (kv.1, map snd kv.2)) data |}
    end.

(** ** ftp_check_debug.py: [split_parent] *)

(** [s.lstrip(c)], [s.rstrip(c)] and [s.strip(c)] for a text [c] of one
    character. *)
Fixpoint lstrip_char (c : ascii) (s : string) : string :=
  match s with
  | EmptyString => EmptyString
  | String a s' => if Ascii.eqb a c then lstrip_char c s' else s
  end.

Fixpoint rstrip_char (c : ascii) (s : string) : string :=
  match s with
  | EmptyString => EmptyString
  | String a s' =>
      match rstrip_char c s' with
      | EmptyString => if Ascii.eqb a c then EmptyString else String a EmptyString
      | r => String a r
      end
  end.

Definition strip_char (c : ascii) (s : string) : string :=
  rstrip_char c (lstrip_char c s).

(** [c in s]. *)
Fixpoint contains_char (c : ascii) (s : string) : bool :=
  match s with
  | EmptyString => false
  | String a s' => Ascii.eqb a c || contains_char c s'
  end.

(** [s.rsplit(c, 1)]: the text before and the text after the last [c], or
    the text alone when it holds no [c]. *)
Fixpoint rsplit1 (c : ascii) (s : string) : list string :=
  match s with
  | EmptyString => [EmptyString]
  | String a s' =>
      match rsplit1 c s' with
      | [before; after] => [String a before; after]
      | _ => if Ascii.eqb a c then [EmptyString; s'] else [s]
      end
  end.

(** [split_parent]; unpacking a list that has not two elements raises
    [ValueError]. *)
Definition split_parent (remote_path : string) : pyexn + (string * string) :=
  let clean := strip_char "/" remote_path in
  if negb (contains_char "/" clean) then inr (".", clean)
  else
    match rsplit1 "/" clean with
    | [parent; name] => inr (String "/" parent, name)
    | _ => inl ValueError
    end.

(* ===================================================================== *)
(** * Part II.  Definitions used to state the properties *)
(* ===================================================================== *)

(** The manual-adjustment term of a team's score: its entry in the
    dictionary of [get_blue_team_manual_adjustment_points], and nothing for
    a team without an entry. *)
Definition manual_adjustment_term (db : DB) (team_id : Z) : Z :=
  default 0 (get_blue_team_manual_adjustment_points db !! team_id).

(** The sum of [points] over the adjustment rows that target a team. *)
Definition sum_adjustments_for (team_id : Z) (rows : list ScoreAdjustment) : Z :=
  foldr Z.add 0
    (map ScoreAdjustment.points
       (filter (fun r => ScoreAdjustment.target_team_id r = team_id) rows)).

(** The payload of an adjustment request. *)
Definition adjust_payload (team_id points : Z) (reason : string)
  : gmap string pyval :=
  {[ "team_id" := PInt team_id; "points" := PInt points;
     "reason" := PStr reason ]}.

(** A database with no rows and no settings, and one that only holds the
    penalty setting. *)
Definition empty_db : DB :=
  {| teams := []; flags := []; solves := []; submissions := [];
     adjustments := []; settings := ∅; cache_calls := [] |}.

Definition penalty_db (value : pyval) : DB :=
  {| teams := []; flags := []; solves := []; submissions := [];
     adjustments := [];
     settings := {[ "red_team_flag_submission_penalty" := value ]};
     cache_calls := [] |}.

(** The start and end instants [api_flags_add] settles on for a request
    read at [now]: lines 109-114. *)
Definition requested_start (parse_datetime : string -> option Z) (now : Z)
    (payload : gmap string pyval) : Z :=
  default now
    (_parse_datetime_input parse_datetime (dict_get payload "start_time")).

Definition requested_end (parse_datetime : string -> option Z) (now : Z)
    (payload : gmap string pyval) : option Z :=
  match _parse_datetime_input parse_datetime (dict_get payload "end_time") with
  | Some t => Some t
  | None =>
      timedelta_hours 3 ≫= datetime_add (requested_start parse_datetime now payload)
  end.



(** One call of [api_flags_submit]: the two clock readings, the caller and
    the payload. *)
Record submit_request : Type := {
  req_now : Z;
  req_submitted_at : Z;
  req_user : User;
  req_payload : gmap string pyval
}.

Definition submit (q : submit_request) (db : DB) : response submit_ok * DB :=
  api_flags_submit (req_now q) (req_submitted_at q) (req_user q)
    (req_payload q) db.

(** The flag and target team a call gets past its checks with. *)
Definition submit_target (q : submit_request) (db : DB)
  : response submit_ok + (Flag * Team) :=
  submit_checks (req_now q) (req_user q) (req_payload q) db.

(** A run of calls, each on the database the previous one left. *)
Fixpoint run_submits (qs : list submit_request) (db : DB)
  : list (response submit_ok) * DB :=
  match qs with
  | [] => ([], db)
  | q :: qs' =>
      let '(resp, db1) := submit q db in
      let '(resps, db2) := run_submits qs' db1 in
      (resp :: resps, db2)
  end.

(** The number of RedFlagSubmission rows for a (flag, target team) pair. *)
Definition pair_count (flag_id target_team_id : Z) (db : DB) : nat :=
  length (filter (fun r => same_pair flag_id target_team_id r = true)
                 (submissions db)).

(** A candidate the token scan stops at: inside its window, with a
    non-empty token equal to the submitted text. *)
Definition token_matches (now : Z) (submitted : string) (f : Flag) : bool :=
  in_window now f
  && match _get_flag_token f with
     | Some token => negb (String.eqb token EmptyString) && String.eqb token submitted
     | None => false
     end.

(** A flag the token path can resolve to: not a dummy, inside its window at
    [now], with a non-empty token equal to [submitted]. *)
Definition active_match (now : Z) (submitted : string) (f : Flag) : Prop :=
  Flag.dummy f = false
  ∧ in_window now f = true
  ∧ _get_flag_token f = Some submitted
  ∧ submitted ≠ EmptyString.

(** ** Sample data: two blue teams, a red and a white team, one flag
    "FLAG123" whose window opens at [T0] and lasts an hour. *)
Definition blue1 : Team := {| Team.id := 1; Team.name := "blue-1"; Team.color := "Blue" |}.
Definition blue3 : Team := {| Team.id := 3; Team.name := "blue-3"; Team.color := "Blue" |}.
Definition red_team : Team := {| Team.id := 7; Team.name := "red"; Team.color := "Red" |}.
Definition white_team : Team := {| Team.id := 8; Team.name := "white"; Team.color := "White" |}.
Definition red_user : User := {| User.id := 70; User.team := red_team |}.
Definition white_user : User := {| User.id := 80; User.team := white_team |}.

Definition minute : Z := 60 * usec_per_sec.
Definition hour : Z := 3600 * usec_per_sec.
Definition T0 : Z := 1000 * hour.

Definition flag123 : Flag :=
  {| Flag.id := 1; Flag.type := file; Flag.platform := nix; Flag.perm := user;
     Flag.data := DataDict {[ "content" := PStr "FLAG123" ]};
     Flag.start_time := T0; Flag.end_time := T0 + hour; Flag.dummy := false |}.

Definition sample_db : DB :=
  {| teams := [blue1; blue3; red_team; white_team];
     flags := [flag123];
     solves := [];
     submissions := [];
     adjustments := [];
     settings := {[ "agent_show_flag_early_mins" := PStr "5" ]};
     cache_calls := [] |}.

(** A submission by token and one by flag identifier. *)
Definition token_request (now : Z) (team_id : Z) (token : string)
  : submit_request :=
  {| req_now := now; req_submitted_at := now; req_user := red_user;
     req_payload := {[ "team_id" := PInt team_id; "flag" := PStr token ]} |}.

Definition id_request (now : Z) (team_id flag_id : Z) : submit_request :=
  {| req_now := now; req_submitted_at := now; req_user := red_user;
     req_payload := {[ "team_id" := PInt team_id; "flag_id" := PInt flag_id ]} |}.

(** The serialised form of a flag whose payload is a mapping. *)
Definition flag_entry_of (f : Flag) : flag_entry :=
  {| entry_id := Flag.id f;
     entry_flag := _get_flag_token f;
     entry_content :=
       match Flag.data f with
       | DataDict d => dict_get d "content"
       | DataOther _ => PNone
       end |}.

(** The caller's team holds a submission for flag [f]. *)
Definition submitted_by_team (db : DB) (u : User) (f : Flag) : Prop :=
  ∃ row, row ∈ submissions db
         ∧ RedFlagSubmission.flag_id row = Flag.id f
         ∧ RedFlagSubmission.submitted_by_team_id row = Team.id (User.team u).

(** ** The attacker score as the specification words it

    Solve evidence on a platform is grouped by (team, host, time window),
    the window of a solve being the start time of its flag.  A group is of
    level Root when a Root-permission flag was solved in it and of level
    User otherwise; a Root group weighs 1, a User group one half; the score
    of a team on a platform is the sum of the weights of its groups. *)
Definition evidence_key (sf : Solve * Flag) : Z * string * Z :=
  (Solve.team_id sf.1, Solve.host sf.1, Flag.start_time sf.2).

Definition evidence_groups (db : DB) (p : Platform) : list (Z * string * Z) :=
  remove_dups (map evidence_key (solve_join_flag db p)).

Definition group_level (db : DB) (p : Platform) (g : Z * string * Z) : Perm :=
  if existsb (fun sf => bool_decide (Flag.perm sf.2 = root))
             (filter (fun sf => evidence_key sf = g) (solve_join_flag db p))
  then root else user.

Definition level_weight (level : Perm) : Qc :=
  match level with
  | root => Qc_of_Z 1
  | user => half
  end.

Definition platform_score (db : DB) (p : Platform) (team_id : Z) : Qc :=
  sum_Qc (map (fun g => level_weight (group_level db p g))
              (filter (fun g : Z * string * Z => g.1.1 = team_id)
                      (evidence_groups db p))).

(** The blue teams in the order of the totals view. *)
Definition blue_teams (db : DB) : list Team :=
  order_by (fun a b => Team.id a <=? Team.id b)
           (filter (fun t => Team.color t = "Blue") (teams db)).

Definition expected_totals (db : DB) : list totals_entry :=
  map (fun t =>
         {| team := Team.name t;
            win_score := platform_score db windows (Team.id t);
            nix_score := platform_score db nix (Team.id t);
            total_score := (platform_score db windows (Team.id t)
                            + platform_score db nix (Team.id t))%Qc |})
      (blue_teams db).

(** The tables the totals view relies on: team identifiers are a primary
    key, blue teams have distinct names (the view is keyed by name), and
    solves are recorded against blue teams only. *)
Record totals_tables (db : DB) : Prop := {
  team_ids_unique : NoDup (map Team.id (teams db));
  blue_names_unique :
    NoDup (map Team.name (filter (fun t => Team.color t = "Blue") (teams db)));
  solves_on_blue :
    ∀ s t, s ∈ solves db → t ∈ teams db →
           Team.id t = Solve.team_id s → Team.color t = "Blue"
}.

(** The labels [subquery1] gives the two levels, and the factor
    [subquery2] applies to a label. *)
Definition level_name (level : Perm) : string :=
  match level with
  | root => "root"
  | user => "user"
  end.

Definition weight_of_name (level : string) : Qc :=
  if String.eqb level "user" then half else Qc_of_Z 1.

(** [totals[name][1] = score] or [totals[name][2] = score] on one value of
    the [totals] dictionary. *)
Definition set_score (p : Platform) (score : Qc) (e : string * Qc * Qc)
  : string * Qc * Qc :=
  match p with
  | windows => (e.1.1, score, e.2)
  | nix => (e.1.1, e.1.2, score)
  end.

(** ** Sample data for the totals view: a root flag and two user flags on
    Nix, a user flag on Windows, and five solves on two hosts. *)
Definition mk_flag (id : Z) (p : Platform) (pm : Perm) (start : Z)
    (token : string) : Flag :=
  {| Flag.id := id; Flag.type := file; Flag.platform := p; Flag.perm := pm;
     Flag.data := DataDict {[ "flag" := PStr token ]};
     Flag.start_time := start; Flag.end_time := start + hour;
     Flag.dummy := false |}.

Definition mk_solve (id : Z) (host : string) (team_id flag_id : Z) : Solve :=
  {| Solve.id := id; Solve.host := host; Solve.team_id := team_id;
     Solve.flag_id := flag_id |}.

Definition totals_db : DB :=
  {| teams := [blue3; blue1; red_team; white_team];
     flags := [mk_flag 1 nix user T0 "A"; mk_flag 2 nix root T0 "B";
               mk_flag 3 windows user T0 "C";
               mk_flag 4 nix user (T0 + hour) "D"];
     solves := [mk_solve 1 "h1" 1 1; mk_solve 2 "h1" 1 2; mk_solve 3 "h1" 1 4;
                mk_solve 4 "h2" 3 3; mk_solve 5 "h2" 3 4];
     submissions := [];
     adjustments := [];
     settings := ∅;
     cache_calls := [] |}.


(** A parser for the samples: it reads a number of hours. *)
Definition parse_hours (s : string) : option Z :=
  n ← int_of_str s; Some (n * hour).

Definition create_payload : gmap string pyval :=
  {[ "content" := PStr " FLAG-NEW "; "start_time" := PStr "2000" ]}.

(** The red-penalty points recorded against a team: its entry in the
    dictionary of [get_blue_team_penalty_points], and nothing for a team
    without an entry. *)
Definition penalty_points (db : DB) (team_id : Z) : Z :=
  default 0 (get_blue_team_penalty_points db !! team_id).

(** The sum of [points] over the submission rows that target a team. *)
Definition sum_penalties_for (team_id : Z) (rows : list RedFlagSubmission) : Z :=
  foldr Z.add 0
    (map RedFlagSubmission.points
       (filter (fun r => RedFlagSubmission.target_team_id r = team_id) rows)).

(** The three cache refreshes that follow a committed submission. *)
Definition submit_cache_calls (team_id : Z) : list cache_call :=
  [update_scoreboard_data; update_team_stats team_id; update_flags_data].

(** ** The solves matrix in terms of the tables *)

(** The cell of a team name and a service name in [data]. *)
Definition lookup_cell (data : solves_data) (tn : option string) (sn : string)
  : option (Z * Z) :=
  pdict_get tn data ≫= pdict_get sn.

(** A row of [all_hosts] that belongs to the cell, and one that also
    carries a solve of a flag with permission [pm]. *)
Definition item_for (tn : option string) (sn : string) (item : host_row) : bool :=
  bool_decide (team_name item = tn) && bool_decide (service_name item = sn).

Definition item_solved (pm : Perm) (tn : option string) (sn : string)
    (item : host_row) : bool :=
  item_for tn sn item && has_solve item
  && bool_decide (flag_perm item = Some pm).

Definition bit (b : bool) : Z := if b then 1 else 0.

(** The cell the rows of [all_hosts] call for. *)
Definition cell_of (items : list host_row) (tn : option string) (sn : string)
  : option (Z * Z) :=
  if existsb (item_for tn sn) items
  then Some (bit (existsb (item_solved user tn sn) items),
             bit (existsb (item_solved root tn sn) items))
  else None.

(** The name under which the team of a service appears: the name of a team
    with the identifier of the owning team, or NULL when there is none. *)
Definition names_team (db : DB) (s : Service) (tn : option string) : Prop :=
  (∃ T, T ∈ teams db ∧ Team.id T = Service.team_id s
        ∧ tn = Some (Team.name T))
  ∨ (tn = None ∧ ∀ T, T ∈ teams db → Team.id T ≠ Service.team_id s).

(** A flag is shown in the matrix at [now]. *)
Definition shown_at (now : Z) (f : Flag) : Prop :=
  Flag.start_time f < now ∧ now < Flag.end_time f ∧ Flag.dummy f = false.

(** An agent-check service of the cell has, on its host, a solve of a flag
    shown at [now] whose required permission is [pm]. *)
Definition solved_cell (now : Z) (services : list Service) (db : DB)
    (tn : option string) (sn : string) (pm : Perm) : Prop :=
  ∃ s sv f,
    s ∈ services ∧ Service.check_name s = "AgentCheck"
    ∧ Service.name s = sn ∧ names_team db s tn
    ∧ sv ∈ solves db
    ∧ Solve.host sv = Service.host s
    ∧ Solve.team_id sv = Service.team_id s
    ∧ Solve.id sv ≠ 0
    ∧ (∃ g, g ∈ flags db ∧ Flag.id g = Solve.flag_id sv ∧ shown_at now g)
    ∧ f ∈ flags db ∧ Flag.id f = Solve.flag_id sv ∧ Flag.perm f = pm.

(** An agent-check service belongs to the cell. *)
Definition service_cell (services : list Service) (db : DB)
    (tn : option string) (sn : string) : Prop :=
  ∃ s, s ∈ services ∧ Service.check_name s = "AgentCheck"
       ∧ Service.name s = sn ∧ names_team db s tn.

(** What a cell of [data] says about the tables. *)
Definition cell_spec (now : Z) (services : list Service) (db : DB)
    (tn : option string) (sn : string) (c : option (Z * Z)) : Prop :=
  match c with
  | None => ¬ service_cell services db tn sn
  | Some (u, r) =>
      service_cell services db tn sn
      ∧ (u = 1 ∧ solved_cell now services db tn sn user
         ∨ u = 0 ∧ ¬ solved_cell now services db tn sn user)
      ∧ (r = 1 ∧ solved_cell now services db tn sn root
         ∨ r = 0 ∧ ¬ solved_cell now services db tn sn root)
  end.


(** What [data] holds after the rows [items]: the cell the rows call for,
    for every team name and service name, and no empty dictionary. *)
Definition data_reflects (items : list host_row) (data : solves_data) : Prop :=
  (∀ tn sn, lookup_cell data tn sn = cell_of items tn sn)
  ∧ (∀ tn, pdict_get tn data ≠ Some []).

(** What [columns] holds after the rows [items]. *)
Definition columns_reflect (items : list host_row) (columns : list string)
  : Prop :=
  NoDup columns
  ∧ head columns = Some "Team"
  ∧ ∀ c, c ∈ columns ↔
         c = "Team" ∨ ∃ item, item ∈ items ∧ service_name item = c.

(** No key occurs twice in [data], nor in a dictionary of [data]. *)
Definition keys_unique (data : solves_data) : Prop :=
  NoDup data.*1 ∧ ∀ tn inner, (tn, inner) ∈ data → NoDup inner.*1.

(** ** Sample data for the solves matrix: the teams and flags of
    [totals_db], AgentCheck services "web" and "db" of the two blue teams,
    one "web" service of no team, one service of another check, and a solve
    of the flag that is not yet open. *)
Definition mk_service (id : Z) (name host : string) (team_id : Z)
    (check_name : string) : Service :=
  {| Service.id := id; Service.name := name; Service.host := host;
     Service.port := 22; Service.team_id := team_id;
     Service.check_name := check_name |}.

Definition sample_services : list Service :=
  [mk_service 1 "web" "h1" 1 "AgentCheck";
   mk_service 2 "db" "h2" 1 "AgentCheck";
   mk_service 3 "web" "h3" 3 "AgentCheck";
   mk_service 4 "ssh" "h4" 3 "SSHCheck";
   mk_service 5 "web" "h9" 99 "AgentCheck"].

Definition solves_db : DB :=
  {| teams := teams totals_db;
     flags := flags totals_db;
     solves := [mk_solve 1 "h1" 1 1; mk_solve 2 "h1" 1 2; mk_solve 3 "h3" 3 3;
                mk_solve 4 "h2" 1 4];
     submissions := [];
     adjustments := [];
     settings := ∅;
     cache_calls := [] |}.

(** The sample database with a decoy beside its flag. *)
Definition decoy_flag : Flag :=
  {| Flag.id := 2; Flag.type := file; Flag.platform := nix; Flag.perm := user;
     Flag.data := DataDict {[ "content" := PStr "DECOY" ]};
     Flag.start_time := T0; Flag.end_time := T0 + hour; Flag.dummy := true |}.

Definition decoy_db : DB :=
  {| teams := teams sample_db;
     flags := [flag123; decoy_flag];
     solves := [];
     submissions := [];
     adjustments := [];
     settings := settings sample_db;
     cache_calls := [] |}.

(** The tables of [totals_db] with one more solve, recorded against the
    red team. *)
Definition stray_solve : Solve := mk_solve 6 "h9" 7 1.

Definition stray_db : DB :=
  {| teams := teams totals_db;
     flags := flags totals_db;
     solves := solves totals_db ++ [stray_solve];
     submissions := [];
     adjustments := [];
     settings := ∅;
     cache_calls := [] |}.

(* ===================================================================== *)
(** * Part III.  Properties *)
(* ===================================================================== *)

(** ** Lists *)

Lemma filter_none {A} (P : A → Prop) `{∀ x, Decision (P x)} (l : list A) :
  (∀ x, x ∈ l → ¬ P x) → filter P l = [].
Proof.
  induction l as [|x l IH]; intros Hl; [done|].
  rewrite filter_cons_False by (apply Hl; left).
  apply IH. intros y Hy. apply Hl. by right.
Qed.

(** ** Text *)

Lemma lstrip_cases s :
  lstrip s = EmptyString ∨ ∃ c r, lstrip s = String c r ∧ is_space c = false.
Proof.
  induction s as [|c s IH]; simpl; [by left|].
  destruct (is_space c) eqn:E; [exact IH|].
  right. by exists c, s.
Qed.

Lemma rstrip_keeps_head c r :
  is_space c = false → ∃ r', rstrip (String c r) = String c r'.
Proof.
  intros E. simpl. destruct (rstrip r); rewrite ?E; eauto.
Qed.

Lemma rstrip_idem s : rstrip (rstrip s) = rstrip s.
Proof.
  induction s as [|c s IH]; simpl; [done|].
  destruct (rstrip s) as [|c' r] eqn:E.
  - destruct (is_space c) eqn:Ec; simpl; [done|]. by rewrite Ec.
  - remember (String c' r) as t. simpl. rewrite IH. by subst t.
Qed.

Lemma strip_idem s : strip (strip s) = strip s.
Proof.
  unfold strip. destruct (lstrip_cases s) as [->|(c & r & -> & Ec)]; [done|].
  destruct (rstrip_keeps_head c r Ec) as [r' E]. rewrite E at 1.
  simpl lstrip. rewrite Ec, <- E. apply rstrip_idem.
Qed.

Lemma eqb_empty_false s : s ≠ EmptyString → String.eqb s EmptyString = false.
Proof. intros H. by apply String.eqb_neq. Qed.

(** ** The penalty setting *)






Example penalty_examples :
  get_red_flag_submission_penalty empty_db = 10
  ∧ get_red_flag_submission_penalty (penalty_db (PStr "ten")) = 10
  ∧ get_red_flag_submission_penalty (penalty_db PNone) = 10
  ∧ get_red_flag_submission_penalty (penalty_db (PStr " 25 ")) = 25
  ∧ get_red_flag_submission_penalty (penalty_db (PBool true)) = 1.
Proof. repeat split. Qed.

(** ** Manual adjustments *)

Lemma sum_points_by_lookup {R} (key points : R → Z) (rows : list R) (k : Z) :
  sum_points_by key points rows !! k =
    if decide (k ∈ map key rows)
    then Some (foldr Z.add 0 (map points (filter (fun r => key r = k) rows)))
    else None.
Proof.
  induction rows as [|r rows IH]; [done|].
  change (sum_points_by key points (r :: rows))
    with (<[key r := default 0 (sum_points_by key points rows !! key r) + points r]>
            (sum_points_by key points rows)).
  rewrite filter_cons. destruct (decide (key r = k)) as [Heq|Hne].
  - subst k. rewrite lookup_insert_eq, IH.
    rewrite (decide_True (P := key r ∈ map key (r :: rows))) by (simpl; left).
    f_equal. simpl. case_decide as Hin; simpl; [lia|].
    rewrite filter_none; [simpl; lia|].
    intros x Hx Hk. apply Hin. apply list_elem_of_fmap. by exists x.
  - rewrite lookup_insert_ne, IH by done.
    destruct (decide (k ∈ map key rows)) as [Hin|Hin].
    + rewrite decide_True; [done | simpl; by right].
    + rewrite decide_False; [done|].
      simpl. rewrite elem_of_cons. by intros [?|?].
Qed.

Lemma manual_adjustment_term_sum db t :
  manual_adjustment_term db t = sum_adjustments_for t (adjustments db).
Proof.
  unfold manual_adjustment_term, get_blue_team_manual_adjustment_points,
    sum_adjustments_for.
  rewrite sum_points_by_lookup. case_decide as Hin; [done|].
  simpl. rewrite filter_none; [done|].
  intros r Hr Hk. apply Hin. apply list_elem_of_fmap. by exists r.
Qed.

Lemma sum_adjustments_for_snoc t rows a :
  sum_adjustments_for t (rows ++ [a]) =
    sum_adjustments_for t rows
    + (if decide (ScoreAdjustment.target_team_id a = t)
       then ScoreAdjustment.points a else 0).
Proof.
  unfold sum_adjustments_for. rewrite filter_app, map_app.
  induction (filter _ rows) as [|x xs IH]; simpl.
  - rewrite filter_cons, filter_nil. case_decide; simpl; lia.
  - rewrite IH. lia.
Qed.

Lemma session_get_team_some db t T :
  session_get_team db t = Some T → Team.id T = t ∧ T ∈ teams db.
Proof.
  unfold session_get_team. intros H. apply find_some in H as [Hin Heq].
  split; [lia | by apply list_elem_of_In].
Qed.

(** What a well-formed adjustment request of a white-team user against a
    blue team does: one row is appended and two caches are refreshed. *)
Lemma api_flags_adjust_score_ok now u t T p reason db :
  is_white_team u = true →
  session_get_team db t = Some T →
  is_blue_team T = true →
  ∃ a body,
    api_flags_adjust_score now u (adjust_payload t p reason) db
      = (Ok body,
         add_adjustment db a [update_scoreboard_data; update_team_stats t])
    ∧ ScoreAdjustment.target_team_id a = t
    ∧ ScoreAdjustment.points a = p
    ∧ adjust_points body = p.
Proof.
  intros Hw Ht Hb. destruct (session_get_team_some _ _ _ Ht) as [Hid _].
  unfold api_flags_adjust_score. rewrite Hw. simpl negb. cbv iota.
  replace (dict_get (adjust_payload t p reason) "team_id") with (PInt t)
    by reflexivity.
  replace (dict_get (adjust_payload t p reason) "points") with (PInt p)
    by reflexivity.
  replace (dict_get (adjust_payload t p reason) "reason") with (PStr reason)
    by reflexivity.
  assert (∃ raw, py_or (PStr reason) (PStr EmptyString) = PStr raw) as [raw ->].
  { unfold py_or. destruct (truthy (PStr reason)); eauto. }
  simpl. rewrite Ht, Hb. simpl. rewrite Hid. eauto 10.
Qed.

Lemma manual_adjustment_term_after now u t T p reason db :
  is_white_team u = true →
  session_get_team db t = Some T →
  is_blue_team T = true →
  let db' := (api_flags_adjust_score now u (adjust_payload t p reason) db).2 in
  session_get_team db' t = Some T
  ∧ ∀ t', manual_adjustment_term db' t' =
          manual_adjustment_term db t' + (if decide (t = t') then p else 0).
Proof.
  intros Hw Ht Hb.
  destruct (api_flags_adjust_score_ok now u t T p reason db Hw Ht Hb)
    as (a & body & E & Ha & Hp & _).
  simpl. rewrite E. simpl. split; [exact Ht|].
  intros t'. rewrite !manual_adjustment_term_sum. simpl.
  rewrite sum_adjustments_for_snoc, Ha, Hp. done.
Qed.

(** C7: the manual-adjustment term of a team is the sum of [points] over
    the ScoreAdjustment rows that target it.  It is additive and keeps the
    sign: adjusting a blue team by +10 and then by −10 restores the term it
    had before, and +50 ("bonus") followed by −20 ("penalty") adds exactly
    30 to it. *)
Theorem manual_adjustment_additive
    (db : DB) (u : User) (T : Team) (t now1 now2 : Z) (r1 r2 : string) :
  is_white_team u = true →
  session_get_team db t = Some T →
  is_blue_team T = true →
  let adjust p reason now d :=
    (api_flags_adjust_score now u (adjust_payload t p reason) d).2 in
  manual_adjustment_term db t = sum_adjustments_for t (adjustments db)
  ∧ manual_adjustment_term (adjust (-10) r2 now2 (adjust 10 r1 now1 db)) t
    = manual_adjustment_term db t
  ∧ manual_adjustment_term
      (adjust (-20) "penalty" now2 (adjust 50 "bonus" now1 db)) t
    = manual_adjustment_term db t + 30.
Proof.
  intros Hw Ht Hb adjust. split; [apply manual_adjustment_term_sum|].
  assert (∀ p q ra rb,
    manual_adjustment_term (adjust q rb now2 (adjust p ra now1 db)) t
    = manual_adjustment_term db t + p + q) as H.
  { intros p q ra rb. subst adjust.
    destruct (manual_adjustment_term_after now1 u t T p ra db Hw Ht Hb)
      as [Ht1 H1].
    destruct (manual_adjustment_term_after now2 u t T q rb _ Hw Ht1 Hb)
      as [_ H2].
    cbv beta. rewrite H2, H1. rewrite !decide_True by done. done. }
  split; rewrite H; lia.
Qed.

(** ** Flag creation *)

Section Creation.
Variable parse_datetime : string → option Z.

  (** Either nothing is persisted and the response is no success, or a
      white-team caller gave content that is text, and exactly one flag,
      built as on lines 119-129, is appended. *)
Lemma api_flags_add_inv now u payload db :
    let r := api_flags_add parse_datetime now u payload db in
    (r.2 = db ∧ ∀ id, r.1 ≠ Ok id)
    ∨ ∃ raw en dummy,
        is_white_team u = true
        ∧ py_or (dict_get payload "content") (PStr EmptyString) = PStr raw
        ∧ strip raw ≠ EmptyString
        ∧ requested_end parse_datetime now payload = Some en
        ∧ requested_start parse_datetime now payload < en
        ∧ let f := {| Flag.id := fresh_id (map Flag.id (flags db));
                      Flag.type := file; Flag.platform := nix;
                      Flag.perm := user;
                      Flag.data := DataDict {[ "content" := PStr (strip raw) ]};
                      Flag.start_time := requested_start parse_datetime now payload;
                      Flag.end_time := en;
                      Flag.dummy := dummy |} in
          r = (Ok (Flag.id f), set_flags db (flags db ++ [f]) [update_flags_data]).
  Proof.
    unfold api_flags_add.
    destruct (is_white_team u) eqn:Hw; simpl negb; cbv iota;
      [|left; by split].
    destruct (py_or (dict_get payload "content") (PStr EmptyString)) as [| | |raw|] eqn:Hc;
      try (left; by split).
    destruct (String.eqb (strip raw) EmptyString) eqn:He; [left; by split|].
    apply String.eqb_neq in He.
    fold (requested_start parse_datetime now payload).
    fold (requested_end parse_datetime now payload).
    destruct (requested_end parse_datetime now payload) as [en|] eqn:Hen;
      [|left; by split].
    destruct (en <=? requested_start parse_datetime now payload) eqn:Hle;
      [left; by split|].
    apply Z.leb_gt in Hle. right. eexists raw, en, _. simpl. eauto 10.
  Qed.





  (** What the operation stores for a request it accepts is decided by
      lines 119-129 alone. *)
Lemma api_flags_add_ok_flag now u payload db id :
    (api_flags_add parse_datetime now u payload db).1 = Ok id →
    ∃ f, (api_flags_add parse_datetime now u payload db).2
           = set_flags db (flags db ++ [f]) [update_flags_data]
         ∧ Flag.id f = id
         ∧ Flag.type f = file ∧ Flag.platform f = nix ∧ Flag.perm f = user
         ∧ (∃ raw, py_or (dict_get payload "content") (PStr EmptyString) = PStr raw
                   ∧ strip raw ≠ EmptyString
                   ∧ Flag.data f = DataDict {[ "content" := PStr (strip raw) ]})
         ∧ Flag.start_time f < Flag.end_time f.
  Proof.
    intros Hid.
    destruct (api_flags_add_inv now u payload db)
      as [[_ Hno]|(raw & en & d & _ & Hraw & Hne & _ & Hlt & Hr)];
      [by apply Hno in Hid|].
    simpl in Hr. rewrite Hr in Hid |- *. simpl in Hid. injection Hid as <-.
    eexists. split; [reflexivity|]. simpl. repeat split; try done.
    by exists raw.
  Qed.
End Creation.

(** ** Submission: resolution of the flag *)

Lemma scan_candidates_find now v l :
  scan_candidates now v l = find (token_matches now v) l.
Proof.
  induction l as [|f l IH]; [done|].
  simpl. unfold token_matches at 1.
  destruct (in_window now f); simpl; [|exact IH].
  destruct (_get_flag_token f) as [tok|]; [|exact IH].
  destruct (negb (String.eqb tok EmptyString) && String.eqb tok v); [done|exact IH].
Qed.

Lemma token_matches_spec now v f :
  token_matches now v f = true ↔
  in_window now f = true ∧ _get_flag_token f = Some v ∧ v ≠ EmptyString.
Proof.
  unfold token_matches. destruct (in_window now f); simpl;
    [|split; [done | by intros [? _]]].
  destruct (_get_flag_token f) as [tok|]; [|split; [done | by intros (_ & ? & _)]].
  rewrite andb_true_iff, negb_true_iff, String.eqb_eq, String.eqb_neq.
  split.
  - intros [Hne ->]. done.
  - intros (_ & [= ->] & Hne). done.
Qed.

Lemma find_none_iff {A} (p : A → bool) (l : list A) :
  find p l = None ↔ ∀ y, y ∈ l → p y = false.
Proof.
  induction l as [|a l IH]; simpl.
  - split; [|done]. intros _ y Hy. by apply elem_of_nil in Hy.
  - destruct (p a) eqn:E.
    + split; [done|]. intros H. specialize (H a). rewrite E in H.
      discriminate H. by left.
    + rewrite IH. split.
      * intros H y [->|Hy]%elem_of_cons; auto.
      * intros H y Hy. apply H. by right.
Qed.

(** The token path stops at the first flag of the table that is an
    active match. *)
Lemma resolve_by_token_some now flag_id v db f :
  truthy flag_id = false →
  resolve_flag now flag_id v db = Some f →
  ∃ l1 l2, flags db = l1 ++ f :: l2
           ∧ active_match now (strip (py_str v)) f
           ∧ ∀ g, g ∈ l1 → ¬ active_match now (strip (py_str v)) g.
Proof.
  unfold resolve_flag. intros ->. rewrite scan_candidates_find.
  generalize (strip (py_str v)). intros s. clear v.
  induction (flags db) as [|a l IH]; [done|].
  rewrite filter_cons. destruct (decide (Flag.dummy a = false)) as [Hd|Hd].
  - simpl. destruct (token_matches now s a) eqn:E.
    + intros [= <-]. apply token_matches_spec in E.
      exists [], l. split; [done|]. split; [by split|].
      intros g Hg. by apply elem_of_nil in Hg.
    + intros H. destruct (IH H) as (l1 & l2 & -> & Hf & Hl1).
      exists (a :: l1), l2. split; [done|]. split; [done|].
      intros g [->|Hg]%elem_of_cons; [|auto].
      intros (_ & Hw & Ht & Hs).
      assert (token_matches now s a = true) by by apply token_matches_spec.
      congruence.
  - intros H. destruct (IH H) as (l1 & l2 & -> & Hf & Hl1).
    exists (a :: l1), l2. split; [done|]. split; [done|].
    intros g [->|Hg]%elem_of_cons; [|auto]. by intros [? _].
Qed.

Lemma resolve_by_token_none now flag_id v db :
  truthy flag_id = false →
  resolve_flag now flag_id v db = None ↔
  ∀ g, g ∈ flags db → ¬ active_match now (strip (py_str v)) g.
Proof.
  unfold resolve_flag. intros ->. rewrite scan_candidates_find, find_none_iff.
  split.
  - intros H g Hg (Hd & Hw & Ht & Hs).
    assert (token_matches now (strip (py_str v)) g = true) as E
      by by apply token_matches_spec.
    rewrite H in E; [done|]. by apply list_elem_of_filter.
  - intros H g [Hd Hg]%list_elem_of_filter.
    destruct (token_matches now (strip (py_str v)) g) eqn:E; [|done].
    apply token_matches_spec in E. destruct (H g Hg). by split.
Qed.

(** ** Submission: persistence under the uniqueness constraint *)

Lemma integrity_error_count db r :
  integrity_error db r = true ↔
  (0 < pair_count (RedFlagSubmission.flag_id r)
                  (RedFlagSubmission.target_team_id r) db)%nat.
Proof.
  unfold integrity_error, pair_count.
  induction (submissions db) as [|x l IH]; simpl.
  - split; [done | lia].
  - rewrite filter_cons. destruct (same_pair _ _ x) eqn:E; simpl.
    + split; [lia | done].
    + exact IH.
Qed.

Lemma persist_submission_conflict at_ u f t db :
  (0 < pair_count (Flag.id f) (Team.id t) db)%nat →
  persist_submission at_ u f t db = (Conflict, db).
Proof.
  intros H. unfold persist_submission.
  match goal with |- context [integrity_error db ?r] =>
    assert (integrity_error db r = true) as -> by by apply integrity_error_count
  end. done.
Qed.

Lemma persist_submission_fresh at_ u f t db :
  pair_count (Flag.id f) (Team.id t) db = 0%nat →
  ∃ row,
    persist_submission at_ u f t db
      = (Ok {| submit_flag_id := Flag.id f; submit_team_id := Team.id t;
               points_deducted := get_red_flag_submission_penalty db |},
         add_submission db row
           [update_scoreboard_data; update_team_stats (Team.id t);
            update_flags_data])
    ∧ RedFlagSubmission.flag_id row = Flag.id f
    ∧ RedFlagSubmission.target_team_id row = Team.id t
    ∧ RedFlagSubmission.points row = get_red_flag_submission_penalty db.
Proof.
  intros H. unfold persist_submission.
  match goal with |- context [integrity_error db ?r] =>
    destruct (integrity_error db r) eqn:E
  end.
  - apply integrity_error_count in E. simpl in E. lia.
  - eexists. split; [reflexivity|]. done.
Qed.

Lemma pair_count_add_submission fid tid db row calls :
  pair_count fid tid (add_submission db row calls) =
    (pair_count fid tid db + (if same_pair fid tid row then 1 else 0))%nat.
Proof.
  unfold pair_count. simpl. rewrite filter_app, length_app.
  rewrite filter_cons, filter_nil.
  by destruct (same_pair fid tid row).
Qed.

Lemma same_pair_ids fid tid row :
  same_pair fid tid row = true ↔
  RedFlagSubmission.flag_id row = fid
  ∧ RedFlagSubmission.target_team_id row = tid.
Proof. unfold same_pair. rewrite andb_true_iff, !Z.eqb_eq. done. Qed.

(** The step every call makes on the rows of one pair: the count never
    drops, and never passes one. *)
Lemma persist_pair_count at_ u f t db fid tid :
  let db' := (persist_submission at_ u f t db).2 in
  (pair_count fid tid db ≤ pair_count fid tid db')%nat
  ∧ ((pair_count fid tid db ≤ 1)%nat → (pair_count fid tid db' ≤ 1)%nat).
Proof.
  simpl. destruct (Nat.eq_dec (pair_count (Flag.id f) (Team.id t) db) 0%nat)
    as [H0|H0].
  - destruct (persist_submission_fresh at_ u f t db H0)
      as (row & -> & Hf & Ht & _).
    simpl. rewrite pair_count_add_submission.
    destruct (same_pair fid tid row) eqn:E; [|lia].
    apply same_pair_ids in E as [E1 E2].
    assert (fid = Flag.id f) as -> by congruence.
    assert (tid = Team.id t) as -> by congruence. lia.
  - rewrite persist_submission_conflict by lia. simpl. lia.
Qed.

Lemma submit_pair_count q db fid tid :
  (pair_count fid tid db ≤ pair_count fid tid (submit q db).2)%nat
  ∧ ((pair_count fid tid db ≤ 1)%nat →
     (pair_count fid tid (submit q db).2 ≤ 1)%nat).
Proof.
  unfold submit, api_flags_submit.
  destruct (submit_checks _ _ _ db) as [e|[f t]]; simpl; [lia|].
  apply persist_pair_count.
Qed.

Lemma run_submits_cons q qs db :
  run_submits (q :: qs) db =
    ((submit q db).1 :: (run_submits qs (submit q db).2).1,
     (run_submits qs (submit q db).2).2).
Proof.
  simpl. destruct (submit q db) as [resp db1]. simpl.
  by destruct (run_submits qs db1).
Qed.

Lemma run_submits_pair_count qs db fid tid :
  (pair_count fid tid db ≤ pair_count fid tid (run_submits qs db).2)%nat
  ∧ ((pair_count fid tid db ≤ 1)%nat →
     (pair_count fid tid (run_submits qs db).2 ≤ 1)%nat).
Proof.
  revert db. induction qs as [|q qs IH]; intros db; [simpl; lia|].
  rewrite run_submits_cons. simpl.
  destruct (submit_pair_count q db fid tid) as [H1 H2].
  destruct (IH (submit q db).2) as [H3 H4]. split; [lia | auto].
Qed.

(** The checks read the team and flag tables only. *)
Lemma submit_checks_frame now u payload db db' :
  teams db' = teams db → flags db' = flags db →
  submit_checks now u payload db' = submit_checks now u payload db.
Proof.
  intros Ht Hf.
  unfold submit_checks, session_get_team, resolve_flag, session_get_flag.
  by rewrite Ht, Hf.
Qed.

Lemma submit_conflict q db f t :
  submit_target q db = inr (f, t) →
  (0 < pair_count (Flag.id f) (Team.id t) db)%nat →
  submit q db = (Conflict, db).
Proof.
  unfold submit, submit_target, api_flags_submit. intros -> H.
  by apply persist_submission_conflict.
Qed.

Lemma run_submits_conflicts qs db f t :
  Forall (fun q => submit_target q db = inr (f, t)) qs →
  (0 < pair_count (Flag.id f) (Team.id t) db)%nat →
  run_submits qs db = (replicate (length qs) Conflict, db).
Proof.
  intros Hqs Hc. induction Hqs as [|q qs Hq _ IH]; [done|].
  rewrite run_submits_cons, (submit_conflict q db f t Hq Hc). simpl.
  by rewrite IH.
Qed.

(** C1: for a flag f and a blue target team t there is never more than
    one RedFlagSubmission row for (f, t).  Once the row exists, every
    further submit call for the pair answers Conflict and leaves the
    database, caches included, exactly as it was.  A run of calls for a pair
    that has no row yet persists one row with the first call and answers
    Conflict to all the others: exactly one row results, however many calls
    are made. *)
Theorem red_flag_submission_unique
    (db : DB) (f : Flag) (t : Team) (qs : list submit_request) :
  (pair_count (Flag.id f) (Team.id t) db ≤ 1)%nat →
  Forall (fun q => submit_target q db = inr (f, t)) qs →
  (∀ others : list submit_request,
     (pair_count (Flag.id f) (Team.id t) (run_submits others db).2 ≤ 1)%nat)
  ∧ (pair_count (Flag.id f) (Team.id t) db = 1%nat →
       run_submits qs db = (replicate (length qs) Conflict, db))
  ∧ (pair_count (Flag.id f) (Team.id t) db = 0%nat → qs ≠ [] →
       ∃ body row,
         run_submits qs db
           = (Ok body :: replicate (length qs - 1) Conflict,
              add_submission db row
                [update_scoreboard_data; update_team_stats (Team.id t);
                 update_flags_data])
         ∧ RedFlagSubmission.flag_id row = Flag.id f
         ∧ RedFlagSubmission.target_team_id row = Team.id t
         ∧ pair_count (Flag.id f) (Team.id t) (run_submits qs db).2 = 1%nat).
Proof.
  intros Hle Hqs. split; [|split].
  - intros others. by apply run_submits_pair_count.
  - intros H1. apply (run_submits_conflicts qs db f t Hqs). lia.
  - intros H0 Hne. destruct qs as [|q qs]; [done|]. clear Hne.
    apply Forall_cons in Hqs as [Hq Hqs].
    destruct (persist_submission_fresh (req_submitted_at q) (req_user q) f t db H0)
      as (row & Hp & Hf & Ht & _).
    assert (submit q db = (Ok {| submit_flag_id := Flag.id f;
                                 submit_team_id := Team.id t;
                                 points_deducted :=
                                   get_red_flag_submission_penalty db |},
                           add_submission db row
                             [update_scoreboard_data;
                              update_team_stats (Team.id t);
                              update_flags_data])) as Hs.
    { unfold submit, api_flags_submit. unfold submit_target in Hq.
      by rewrite Hq. }
    set (db1 := add_submission db row _) in *.
    assert (pair_count (Flag.id f) (Team.id t) db1 = 1%nat) as H1.
    { subst db1. rewrite pair_count_add_submission, H0.
      assert (same_pair (Flag.id f) (Team.id t) row = true) as ->
        by by apply same_pair_ids.
      done. }
    assert (run_submits qs db1 = (replicate (length qs) Conflict, db1)) as Hr.
    { apply (run_submits_conflicts qs db1 f t); [|lia].
      eapply Forall_impl; [exact Hqs|]. intros q' Hq'. simpl in *.
      unfold submit_target in *.
      by rewrite (submit_checks_frame _ _ _ db db1). }
    rewrite run_submits_cons, Hs. simpl. rewrite Hr. simpl.
    rewrite Nat.sub_0_r. eexists _, row. done.
Qed.

(** ** Submission: the failures and the points of a success *)





(** ** Listing *)

Lemma insert_by_perm {A} (le : A → A → bool) x l : insert_by le x l ≡ₚ x :: l.
Proof.
  induction l as [|y l IH]; simpl; [done|].
  destruct (le x y); [done|]. rewrite IH. apply Permutation_swap.
Qed.

Lemma order_by_perm {A} (le : A → A → bool) l : order_by le l ≡ₚ l.
Proof.
  induction l as [|x l IH]; simpl; [done|].
  unfold order_by in *. simpl. rewrite insert_by_perm. by f_equiv.
Qed.

Lemma serialize_flags_ok l :
  (∀ f, f ∈ l → ∃ d, Flag.data f = DataDict d) →
  serialize_flags l = inr (map flag_entry_of l).
Proof.
  induction l as [|f l IH]; intros Hl; [done|].
  simpl. destruct (Hl f) as [d Hd]; [by left|].
  unfold serialize_flag, flag_entry_of. rewrite Hd.
  rewrite IH; [done|]. intros g Hg. apply Hl. by right.
Qed.

Lemma visible_flags_sub now early u db : visible_flags now early u db ⊆+ flags db.
Proof.
  unfold visible_flags.
  assert (order_by (fun f g => Flag.start_time f <=? Flag.start_time g)
            (filter (fun f => (early >? Flag.start_time f) = true
                              ∧ (now <? Flag.end_time f) = true
                              ∧ Flag.dummy f = false) (flags db))
          ⊆+ flags db) as H.
  { rewrite order_by_perm. apply sublist_submseteq, sublist_filter. }
  destruct (is_red_team u); [|done].
  etrans; [apply sublist_submseteq, sublist_filter | done].
Qed.

Lemma visible_flags_elem now early u db f :
  f ∈ visible_flags now early u db ↔
  f ∈ flags db
  ∧ Flag.dummy f = false
  ∧ now < Flag.end_time f
  ∧ Flag.start_time f < early
  ∧ (is_red_team u = true → submitted_by_team db u f).
Proof.
  unfold visible_flags.
  assert (∀ g, g ∈ order_by (fun f g => Flag.start_time f <=? Flag.start_time g)
                     (filter (fun f => (early >? Flag.start_time f) = true
                                       ∧ (now <? Flag.end_time f) = true
                                       ∧ Flag.dummy f = false) (flags db))
               ↔ g ∈ flags db ∧ Flag.dummy g = false
                 ∧ now < Flag.end_time g ∧ Flag.start_time g < early) as H.
  { intros g. rewrite order_by_perm, list_elem_of_filter.
    rewrite Z.gtb_ltb, !Z.ltb_lt. tauto. }
  destruct (is_red_team u).
  - rewrite list_elem_of_filter, H, elem_of_list_to_set, list_elem_of_fmap.
    unfold submitted_by_team. split.
    + intros [(row & Hid & Hrow) Hf].
      apply list_elem_of_filter in Hrow as [Hteam Hrow].
      repeat split; try tauto. intros _. by exists row.
    + intros (Hf & Hd & He & Hs & Hsub).
      destruct (Hsub eq_refl) as (row & Hrow & Hid & Hteam).
      split; [|done]. exists row. split; [done|].
      by apply list_elem_of_filter.
  - rewrite H. split; [|tauto]. intros (? & ? & ? & ?). by repeat split.
Qed.

Lemma lookahead_instant now mins early :
  timedelta_minutes mins ≫= datetime_add now = Some early →
  early = now + mins * minute.
Proof.
  unfold timedelta_minutes, datetime_add, minute.
  case_match; [|done]. simpl. case_match; [|done]. intros [= <-]. lia.
Qed.

(** C6, as stated, fails at the edge of the lookahead: five minutes before
    the window of "FLAG123" opens, with a lookahead of five minutes, the
    flag satisfies [now + lookahead ≥ start_time] and is not listed. *)
Lemma lookahead_edge_counterexample :
  flag123 ∈ flags sample_db
  ∧ Flag.dummy flag123 = false
  ∧ T0 - 5 * minute < Flag.end_time flag123
  ∧ get_setting sample_db "agent_show_flag_early_mins" = Some (PStr "5")
  ∧ (T0 - 5 * minute) + 5 * minute >= Flag.start_time flag123
  ∧ api_flags (T0 - 5 * minute) white_user sample_db = Ok [].
Proof.
  split; [by left|]. split; [done|]. split; [by vm_compute|].
  split; [done|]. split; [by vm_compute|]. by vm_compute.
Qed.

(** C6 (amended): for every time now and caller of the red or white team,
    when the [agent_show_flag_early_mins] setting holds an integer number of
    minutes and every flag's payload is a mapping, listing active flags
    returns exactly the non-dummy flags with [now < end_time] and
    [now + lookahead > start_time] (strictly); a white-team caller sees all
    of them, a red-team caller only those for which the caller's own team
    already holds a RedFlagSubmission. *)
Theorem list_active_flags
    (now : Z) (u : User) (db : DB) (value : pyval) (mins early : Z) :
  session_get_team db (Team.id (User.team u)) = Some (User.team u) →
  is_red_team u || is_white_team u = true →
  get_setting db "agent_show_flag_early_mins" = Some value →
  py_int value = Some mins →
  timedelta_minutes mins ≫= datetime_add now = Some early →
  (∀ f, f ∈ flags db → ∃ d, Flag.data f = DataDict d) →
  ∃ listed,
    api_flags now u db = Ok (map flag_entry_of listed)
    ∧ listed ⊆+ flags db
    ∧ ∀ f, f ∈ listed ↔
           f ∈ flags db
           ∧ Flag.dummy f = false
           ∧ now < Flag.end_time f
           ∧ now + mins * minute > Flag.start_time f
           ∧ (is_red_team u = true → submitted_by_team db u f).
Proof.
  intros Hteam Hrole Hset Hint Hearly Hdata.
  exists (visible_flags now early u db). split; [|split].
  - unfold api_flags. rewrite Hteam, Hrole, Hset, Hint, Hearly.
    rewrite bool_decide_true by done. simpl.
    rewrite serialize_flags_ok; [done|].
    intros f Hf. apply Hdata.
    eapply elem_of_submseteq; [exact Hf | apply visible_flags_sub].
  - apply visible_flags_sub.
  - intros f. rewrite visible_flags_elem.
    rewrite (lookahead_instant _ _ _ Hearly). split.
    + intros (? & ? & ? & ? & ?). repeat split; try done. lia.
    + intros (? & ? & ? & ? & ?). repeat split; try done. lia.
Qed.

(** ** The canonical token *)

Lemma _get_flag_token_dict f d :
  Flag.data f = DataDict d →
  _get_flag_token f =
    if truthy (dict_get d "flag") then Some (strip (py_str (dict_get d "flag")))
    else if truthy (dict_get d "content")
         then Some (strip (py_str (dict_get d "content")))
         else None.
Proof. unfold _get_flag_token. by intros ->. Qed.

Lemma _get_flag_token_other f v :
  Flag.data f = DataOther v → _get_flag_token f = None.
Proof. unfold _get_flag_token. by intros ->. Qed.

Lemma _get_flag_token_stripped f tok :
  _get_flag_token f = Some tok → strip tok = tok.
Proof.
  unfold _get_flag_token. destruct (Flag.data f) as [d|]; [|done].
  repeat case_match; try done; intros [= <-]; apply strip_idem.
Qed.

(** The token of a payload that only holds non-empty, stripped content. *)
Lemma _get_flag_token_content f c :
  Flag.data f = DataDict {[ "content" := PStr c ]} →
  c ≠ EmptyString →
  _get_flag_token f = Some (strip c).
Proof.
  intros Hd Hc. rewrite (_get_flag_token_dict f _ Hd).
  replace (dict_get {[ "content" := PStr c ]} "flag") with PNone by reflexivity.
  replace (dict_get {[ "content" := PStr c ]} "content") with (PStr c)
    by reflexivity.
  simpl. by rewrite eqb_empty_false.
Qed.

Lemma serialize_flags_inv l entries :
  serialize_flags l = inr entries → entries = map flag_entry_of l.
Proof.
  revert entries. induction l as [|f l IH]; intros entries; simpl.
  - by intros [= <-].
  - unfold serialize_flag.
    destruct (Flag.data f) as [d|] eqn:Hd; [|done].
    destruct (serialize_flags l) as [|xs]; [done|].
    intros [= <-]. rewrite (IH xs eq_refl).
    change (map flag_entry_of (f :: l))
      with (flag_entry_of f :: map flag_entry_of l).
    f_equal. unfold flag_entry_of. by rewrite Hd.
Qed.

(** Every element of a listing is the serialised form of a flag of the
    table. *)
Lemma api_flags_entries now u db entries e :
  api_flags now u db = Ok entries → e ∈ entries →
  ∃ f, f ∈ flags db ∧ e = flag_entry_of f.
Proof.
  unfold api_flags. repeat (case_match; try done). intros [= <-] He.
  match goal with H : serialize_flags _ = inr _ |- _ =>
    apply serialize_flags_inv in H; subst end.
  apply list_elem_of_fmap in He as (f & -> & Hf). exists f. split; [|done].
  eapply elem_of_submseteq; [exact Hf | apply visible_flags_sub].
Qed.

(** A call that names a token, made by a red-team user against a blue
    team, goes on with the flag the scan finds and answers NotFound when it
    finds none. *)
Lemma submit_by_token now at_ u payload db t T :
  is_red_team u = true →
  truthy (dict_get payload "team_id") = true →
  py_int (dict_get payload "team_id") = Some t →
  session_get_team db t = Some T →
  is_blue_team T = true →
  truthy (dict_get payload "flag_id") = false →
  truthy (submitted_value payload) = true →
  api_flags_submit now at_ u payload db =
    match resolve_flag now (dict_get payload "flag_id")
                       (submitted_value payload) db with
    | Some f => persist_submission at_ u f T db
    | None => (NotFound, db)
    end.
Proof.
  intros Hred Htid Hint HT Hblue Hid Hval.
  unfold api_flags_submit, submit_checks.
  rewrite Hred, Htid, Hid, Hval, Hint. simpl. rewrite HT, Hblue. simpl.
  destruct (resolve_flag _ _ _ db) as [f|] eqn:Hf; [|done].
  apply (resolve_by_token_some _ _ _ _ _ Hid) in Hf
    as (_ & _ & _ & (Hd & Hw & _) & _).
  by rewrite Hd, Hw.
Qed.

(** A listed or stored token, submitted while its flag is active, is
    resolved to a flag that carries this very token: the flag itself unless
    an earlier active flag shares the token. *)
Lemma token_resolves now flag_id tok db f :
  truthy flag_id = false →
  f ∈ flags db →
  _get_flag_token f = Some tok → tok ≠ EmptyString →
  Flag.dummy f = false → in_window now f = true →
  ∃ g, resolve_flag now flag_id (PStr tok) db = Some g
       ∧ _get_flag_token g = Some tok
       ∧ ∃ l1 l2, flags db = l1 ++ g :: l2
                  ∧ ∀ h, h ∈ l1 → ¬ active_match now tok h.
Proof.
  intros Hid Hf Htok Hne Hd Hw.
  pose proof (_get_flag_token_stripped f tok Htok) as Hs.
  destruct (resolve_flag now flag_id (PStr tok) db) as [g|] eqn:Hg.
  - apply (resolve_by_token_some _ _ _ _ _ Hid) in Hg
      as (l1 & l2 & Hl & (_ & _ & Hgt & _) & Hl1).
    simpl in Hgt, Hl1. rewrite Hs in Hgt, Hl1. exists g. eauto 10.
  - pose proof (proj1 (resolve_by_token_none now flag_id (PStr tok) db Hid) Hg)
      as Hno.
    destruct (Hno f Hf). simpl. rewrite Hs. by repeat split.
Qed.

Lemma resolve_flag_strip now flag_id raw db :
  truthy flag_id = false →
  resolve_flag now flag_id (PStr raw) db
  = resolve_flag now flag_id (PStr (strip raw)) db.
Proof. unfold resolve_flag. intros ->. simpl. by rewrite strip_idem. Qed.

Lemma persist_submission_result at_ u f t db :
  (persist_submission at_ u f t db).1 = Conflict
  ∨ (persist_submission at_ u f t db).1
    = Ok {| submit_flag_id := Flag.id f; submit_team_id := Team.id t;
            points_deducted := get_red_flag_submission_penalty db |}.
Proof. unfold persist_submission. case_match; [by left | by right]. Qed.

Section CreatedToken.
Variable parse_datetime : string → option Z.

  (** The flag stored for an accepted request carries the stripped content
      as its token. *)
Lemma created_flag_token now u payload db id raw :
    (api_flags_add parse_datetime now u payload db).1 = Ok id →
    dict_get payload "content" = PStr raw →
    ∃ f, flags (api_flags_add parse_datetime now u payload db).2
           = flags db ++ [f]
         ∧ teams (api_flags_add parse_datetime now u payload db).2 = teams db
         ∧ Flag.id f = id
         ∧ _get_flag_token f = Some (strip raw)
         ∧ strip raw ≠ EmptyString.
  Proof.
    intros Hok Hraw.
    destruct (api_flags_add_ok_flag parse_datetime now u payload db id Hok)
      as (f & Hdb & Hid & _ & _ & _ & (raw' & Hor & Hne & Hdata) & _).
    assert (raw' = raw) as ->.
    { rewrite Hraw in Hor. unfold py_or in Hor.
      destruct (truthy (PStr raw)) eqn:E; [congruence|].
      simpl in E. apply negb_false_iff, String.eqb_eq in E. congruence. }
    exists f. rewrite Hdb. simpl. repeat split; try done.
    rewrite (_get_flag_token_content f _ Hdata Hne). by rewrite strip_idem.
  Qed.

  (** C9: the token of a flag is the stripped text under the "flag" key
      of its payload when that value is truthy, otherwise the stripped text
      under "content" when truthy, otherwise nothing, and nothing when the
      payload is no mapping.  The listing shows this token and the
      submission scan matches against it, so a listed token submitted while
      its flag is active resolves to a flag with that token; and a flag
      created through the create-flag operation can be submitted, while it
      is active, with its content string as the token. *)
Theorem canonical_flag_token :
    (∀ f d, Flag.data f = DataDict d →
       _get_flag_token f =
         if truthy (dict_get d "flag")
         then Some (strip (py_str (dict_get d "flag")))
         else if truthy (dict_get d "content")
              then Some (strip (py_str (dict_get d "content")))
              else None)
    ∧ (∀ f v, Flag.data f = DataOther v → _get_flag_token f = None)
    ∧ (∀ now u db entries e,
         api_flags now u db = Ok entries → e ∈ entries →
         ∃ f, f ∈ flags db ∧ entry_id e = Flag.id f
              ∧ entry_flag e = _get_flag_token f)
    ∧ (∀ now flag_id v db f,
         truthy flag_id = false → resolve_flag now flag_id v db = Some f →
         _get_flag_token f = Some (strip (py_str v)))
    ∧ (∀ now flag_id tok db f,
         truthy flag_id = false → f ∈ flags db →
         _get_flag_token f = Some tok → tok ≠ EmptyString →
         Flag.dummy f = false → in_window now f = true →
         ∃ g, resolve_flag now flag_id (PStr tok) db = Some g
              ∧ _get_flag_token g = Some tok)
    ∧ (∀ now uw payload db id raw,
         (api_flags_add parse_datetime now uw payload db).1 = Ok id →
         dict_get payload "content" = PStr raw →
         let db1 := (api_flags_add parse_datetime now uw payload db).2 in
         ∃ f, flags db1 = flags db ++ [f]
              ∧ Flag.id f = id
              ∧ _get_flag_token f = Some (strip raw)
              ∧ ∀ now' at_ ur sp t T,
                  Flag.dummy f = false → in_window now' f = true →
                  is_red_team ur = true →
                  truthy (dict_get sp "team_id") = true →
                  py_int (dict_get sp "team_id") = Some t →
                  session_get_team db1 t = Some T →
                  is_blue_team T = true →
                  truthy (dict_get sp "flag_id") = false →
                  submitted_value sp = PStr raw →
                  ∃ g, _get_flag_token g = Some (strip raw)
                       ∧ api_flags_submit now' at_ ur sp db1
                         = persist_submission at_ ur g T db1
                       ∧ ((api_flags_submit now' at_ ur sp db1).1 = Conflict
                          ∨ (api_flags_submit now' at_ ur sp db1).1
                            = Ok {| submit_flag_id := Flag.id g;
                                    submit_team_id := Team.id T;
                                    points_deducted :=
                                      get_red_flag_submission_penalty db1 |})
                       ∧ ((∀ h, h ∈ flags db →
                                ¬ active_match now' (strip raw) h) → g = f)).
  Proof.
    split; [apply _get_flag_token_dict|].
    split; [apply _get_flag_token_other|].
    split; [|split; [|split]].
    - intros now u db entries e Hok He.
      destruct (api_flags_entries now u db entries e Hok He) as (f & Hf & ->).
      by exists f.
    - intros now flag_id v db f Hid Hres.
      apply (resolve_by_token_some _ _ _ _ _ Hid) in Hres
        as (_ & _ & _ & (_ & _ & Ht & _) & _). done.
    - intros now flag_id tok db f Hid Hf Ht Hne Hd Hw.
      destruct (token_resolves now flag_id tok db f Hid Hf Ht Hne Hd Hw)
        as (g & Hg & Hgt & _). by exists g.
    - intros now uw payload db id raw Hok Hraw db1.
      destruct (created_flag_token now uw payload db id raw Hok Hraw)
        as (f & Hfl & Htm & Hid & Htok & Hne).
      fold db1 in Hfl, Htm. exists f. repeat split; try done.
      intros now' at_ ur sp t T Hd Hw Hred Htid Hint HT Hblue Hfid Hval.
      assert (truthy (submitted_value sp) = true) as Htr.
      { rewrite Hval. simpl. apply negb_true_iff, String.eqb_neq.
        intros ->. by apply Hne. }
      pose proof (submit_by_token now' at_ ur sp db1 t T Hred Htid Hint HT
                    Hblue Hfid Htr) as Hsub.
      rewrite Hval, (resolve_flag_strip _ _ _ _ Hfid) in Hsub.
      destruct (token_resolves now' (dict_get sp "flag_id") (strip raw) db1 f)
        as (g & Hg & Hgt & l1 & l2 & Hl & Hl1); try done.
      { rewrite Hfl. apply elem_of_app. right. by left. }
      rewrite Hg in Hsub. exists g. split; [done|]. split; [done|].
      split.
      { rewrite Hsub. apply persist_submission_result. }
      intros Hnone.
      assert (g ∈ flags db1) as Hin by (rewrite Hl; set_solver).
      rewrite Hfl in Hin. apply elem_of_app in Hin as [Hin|Hin].
      + exfalso. apply (Hnone g Hin).
        destruct (resolve_by_token_some _ _ _ _ _ Hfid Hg)
          as (_ & _ & _ & Hact & _).
        simpl in Hact. by rewrite strip_idem in Hact.
      + by apply list_elem_of_singleton in Hin.
  Qed.
End CreatedToken.

(** ** Sums of scores *)

#[local] Arguments sum_Qc : simpl never.

Lemma sum_Qc_nil : sum_Qc [] = Q2Qc 0.
Proof. done. Qed.

Lemma sum_Qc_cons x l : sum_Qc (x :: l) = (x + sum_Qc l)%Qc.
Proof. done. Qed.

Lemma sum_Qc_zero {A} (l : list A) : sum_Qc (map (fun _ => Q2Qc 0) l) = Q2Qc 0.
Proof.
  induction l as [|x l IH]; simpl; [done|]. rewrite sum_Qc_cons, IH. ring.
Qed.

Lemma sum_Qc_map_plus {A} (f g : A → Qc) (l : list A) :
  sum_Qc (map (fun x => (f x + g x)%Qc) l)
  = (sum_Qc (map f l) + sum_Qc (map g l))%Qc.
Proof.
  induction l as [|x l IH]; simpl.
  - rewrite sum_Qc_nil. ring.
  - rewrite !sum_Qc_cons, IH. ring.
Qed.

Lemma sum_Qc_map_ext {A} (f g : A → Qc) (l : list A) :
  (∀ x, x ∈ l → f x = g x) → sum_Qc (map f l) = sum_Qc (map g l).
Proof.
  intros H. f_equal. apply map_ext_in. intros x Hx. apply H.
  by apply list_elem_of_In.
Qed.

Lemma Qc_of_Z_succ n : Qc_of_Z (Z.succ n) = (Qc_of_Z n + Qc_of_Z 1)%Qc.
Proof.
  unfold Qc_of_Z. apply Qc_is_canon. simpl.
  rewrite !Qred_correct. unfold Z.succ. rewrite inject_Z_plus.
  reflexivity.
Qed.

Lemma sum_Qc_const {A} (c : Qc) (l : list A) :
  sum_Qc (map (fun _ => c) l) = (c * Qc_of_Z (Z.of_nat (length l)))%Qc.
Proof.
  induction l as [|x l IH]; simpl map.
  - rewrite sum_Qc_nil. change (Qc_of_Z (Z.of_nat (length []))) with (Q2Qc 0). ring.
  - rewrite sum_Qc_cons, IH. simpl length. rewrite Nat2Z.inj_succ, Qc_of_Z_succ.
    change (Qc_of_Z 1) with 1%Qc. ring.
Qed.

(** The sum over one marked key of a duplicate-free list. *)
Lemma sum_Qc_delta {K} `{EqDecision K} (P : K → Prop) `{∀ k, Decision (P k)}
    (ks : list K) (k0 : K) (c : Qc) :
  NoDup ks → k0 ∈ ks →
  sum_Qc (map (fun k => if decide (k0 = k) then c else Q2Qc 0) (filter P ks))
  = if decide (P k0) then c else Q2Qc 0.
Proof.
  intros Hnd Hin. induction Hnd as [|k ks Hk Hnd IH]; [by apply elem_of_nil in Hin|].
  rewrite filter_cons.
  destruct (decide (k0 = k)) as [->|Hne].
  - assert (sum_Qc (map (fun k' => if decide (k = k') then c else Q2Qc 0)
                        (filter P ks)) = Q2Qc 0) as Hz.
    { etrans; [|apply (sum_Qc_zero (filter P ks))]. apply sum_Qc_map_ext.
      intros k' [_ Hk']%list_elem_of_filter. rewrite decide_False; [done|].
      by intros ->. }
    destruct (decide (P k)); [|exact Hz].
    simpl map. rewrite sum_Qc_cons, Hz.
    rewrite decide_True by done. ring.
  - apply elem_of_cons in Hin as [?|Hin]; [done|].
    destruct (decide (P k)); [|by apply IH].
    simpl map. rewrite sum_Qc_cons, IH by done.
    rewrite decide_False by done. ring.
Qed.

(** ** Grouping *)

Lemma filter_ext_in {A} (P Q : A → Prop) `{∀ x, Decision (P x)}
    `{∀ x, Decision (Q x)} (l : list A) :
  (∀ x, x ∈ l → P x ↔ Q x) → filter P l = filter Q l.
Proof.
  induction l as [|x l IH]; intros Hl; [done|].
  rewrite !filter_cons.
  assert (filter P l = filter Q l) as ->
    by (apply IH; intros y Hy; apply Hl; by right).
  destruct (decide (P x)) as [HP|HP], (decide (Q x)) as [HQ|HQ]; try done.
  - destruct HQ. apply (Hl x); [by left | done].
  - destruct HP. apply (Hl x); [by left | done].
Qed.

Lemma filter_map_comm {A B} (f : A → B) (P : B → Prop) `{∀ y, Decision (P y)}
    (l : list A) :
  filter P (map f l) = map f (filter (fun x => P (f x)) l).
Proof.
  induction l as [|x l IH]; [done|]. simpl map. rewrite !filter_cons, IH.
  by destruct (decide (P (f x))).
Qed.

Lemma remove_dups_map_inj {A B} `{EqDecision A} `{EqDecision B}
    (g : A → B) (l : list A) :
  (∀ x y, x ∈ l → y ∈ l → g x = g y → x = y) →
  remove_dups (map g l) = map g (remove_dups l).
Proof.
  induction l as [|x l IH]; intros Hinj; [done|]. simpl.
  assert (remove_dups (map g l) = map g (remove_dups l)) as ->.
  { apply IH. intros a b Ha Hb. apply Hinj; by right. }
  destruct (decide_rel elem_of x l) as [Hx|Hx],
    (decide_rel elem_of (g x) (map g l)) as [Hy|Hy]; try done.
  - destruct Hy. apply list_elem_of_fmap. by exists x.
  - destruct Hx. apply list_elem_of_fmap in Hy as (y & Hxy & Hy).
    rewrite (Hinj x y); [done | by left | by right | done].
Qed.

(** The sum over the groups of a table is the sum over its rows. *)
Lemma sum_group_by {A K} `{EqDecision K} (key : A → K) (h : A → Qc)
    (P : K → Prop) {HP : ∀ k, Decision (P k)} (l : list A) :
  sum_Qc (map (fun g : K * list A => sum_Qc (map h g.2))
              (filter (fun g : K * list A => P g.1) (group_by key l)))
  = sum_Qc (map h (filter (fun x => P (key x)) l)).
Proof.
  unfold group_by.
  rewrite (filter_map_comm (fun k => (k, filter (fun x => key x = k) l))
             (fun g : K * list A => P g.1)).
  rewrite map_map. simpl.
  assert (NoDup (remove_dups (map key l))) as Hnd by apply NoDup_remove_dups.
  assert (∀ x, x ∈ l → key x ∈ remove_dups (map key l)) as Hall.
  { intros x Hx. apply elem_of_remove_dups, list_elem_of_fmap. by exists x. }
  revert Hnd Hall. generalize (remove_dups (map key l)). intros ks Hnd.
  induction l as [|x l IH]; intros Hall.
  - rewrite filter_nil. simpl map at 2.
    etrans; [|apply (sum_Qc_zero (filter P ks))]. by apply sum_Qc_map_ext.
  - rewrite (sum_Qc_map_ext _
      (fun k => ((if decide (key x = k) then h x else Q2Qc 0)
                 + sum_Qc (map h (filter (fun y => key y = k) l)))%Qc)).
    2:{ intros k _. rewrite filter_cons.
        destruct (decide (key x = k)); simpl map.
        - by rewrite sum_Qc_cons.
        - ring. }
    rewrite sum_Qc_map_plus, IH by (intros y Hy; apply Hall; by right).
    rewrite sum_Qc_delta by (try done; apply Hall; by left).
    rewrite filter_cons. destruct (decide (P (key x))); simpl map.
    + by rewrite sum_Qc_cons.
    + ring.
Qed.

(** ** The queries of the totals view *)

Lemma group_by_elem {A K} `{EqDecision K} (key : A → K) (l : list A)
    (g : K * list A) :
  g ∈ group_by key l ↔
  g.1 ∈ map key l ∧ g.2 = filter (fun x => key x = g.1) l.
Proof.
  unfold group_by. rewrite list_elem_of_fmap. split.
  - intros (k & -> & Hk). apply (proj1 (elem_of_remove_dups _ _)) in Hk. done.
  - intros [Hk Hg]. exists g.1. rewrite elem_of_remove_dups.
    split; [|done]. destruct g as [k xs]. simpl in *. by subst xs.
Qed.

Lemma solve_join_flag_elem db p sf :
  sf ∈ solve_join_flag db p →
  sf.1 ∈ solves db ∧ Flag.platform sf.2 = p.
Proof.
  unfold solve_join_flag. intros [Hp Hsf]%list_elem_of_filter. split; [|done].
  apply list_elem_of_bind in Hsf as (s & Hsf & Hs).
  apply list_elem_of_bind in Hsf as (f & Hsf & Hf).
  apply list_elem_of_singleton in Hsf. by subst sf.
Qed.

Lemma foldr_max_flags {A} (isroot : A → bool) (l : list A) (x0 : Z) :
  x0 = 0 ∨ x0 = 1 →
  foldr Z.max x0 (map (fun a => if isroot a then 1 else 0) l)
  = if (x0 =? 1) || existsb isroot l then 1 else 0.
Proof.
  intros Hx. induction l as [|a l IH]; simpl.
  - destruct Hx as [-> | ->]; done.
  - rewrite IH. destruct (isroot a), (x0 =? 1), (existsb isroot l); done.
Qed.

Lemma level_of_rows (rows : list (Solve * Flag)) :
  (if decide (sql_max (map (fun sf => if decide (Flag.perm sf.2 = root)
                                      then 1 else 0) rows) = Some 1)
   then "root" else "user")
  = level_name
      (if existsb (fun sf => bool_decide (Flag.perm sf.2 = root)) rows
       then root else user).
Proof.
  destruct rows as [|sf rows]; [done|].
  assert (∀ l : list (Solve * Flag),
            map (fun sf => if decide (Flag.perm sf.2 = root) then 1 else 0) l
            = map (fun sf => if bool_decide (Flag.perm sf.2 = root)
                             then 1 else 0) l) as Hmap.
  { intros l. apply map_ext. intros x.
    destruct (decide (Flag.perm x.2 = root)) as [Hx|Hx];
      [by rewrite bool_decide_true | by rewrite bool_decide_false]. }
  simpl existsb. simpl map. unfold sql_max. rewrite Hmap.
  rewrite (foldr_max_flags (fun sf => bool_decide (Flag.perm sf.2 = root)))
    by (destruct (decide _); auto).
  destruct (decide (Flag.perm sf.2 = root)) as [Hr|Hr].
  - by rewrite (bool_decide_true _ Hr).
  - rewrite (bool_decide_false _ Hr). simpl. by destruct (existsb _ rows).
Qed.

(** [subquery1] has one row for each group of evidence, labelled with the
    level of the group. *)
Lemma subquery1_closed db p :
  subquery1 db p
  = map (fun g : Z * string * Z =>
           (g.1.1, g.1.2, level_name (group_level db p g)))
        (evidence_groups db p).
Proof.
  unfold subquery1, group_by, evidence_groups.
  set (J := solve_join_flag db p).
  set (inj := fun g : Z * string * Z => (g.1.1, p, g.1.2, g.2)).
  assert (map (fun sf : Solve * Flag =>
                 (Solve.team_id sf.1, Flag.platform sf.2, Solve.host sf.1,
                  Flag.start_time sf.2)) J
          = map inj (map evidence_key J)) as ->.
  { rewrite map_map. apply map_ext_in. intros sf Hsf%list_elem_of_In.
    apply solve_join_flag_elem in Hsf as [_ Hp]. subst inj. simpl.
    by rewrite Hp. }
  rewrite remove_dups_map_inj.
  2:{ intros [[a b] c] [[a' b'] c'] _ _. subst inj. simpl. congruence. }
  rewrite !map_map. apply map_ext_in. intros g Hg. subst inj. simpl.
  f_equal. unfold group_level.
  rewrite (filter_ext_in _ (fun sf => evidence_key sf = g) J).
  - apply level_of_rows.
  - intros sf Hsf. apply solve_join_flag_elem in Hsf as [_ Hp].
    unfold evidence_key. destruct g as [[a b] c]. simpl. rewrite Hp.
    split; congruence.
Qed.

Lemma weight_of_level_name lv : weight_of_name (level_name lv) = level_weight lv.
Proof. by destruct lv. Qed.

(** Summed per team, the amounts of [subquery2] are the score the
    specification describes. *)
Lemma subquery2_sum db p b :
  sum_Qc (map snd (filter (fun r : Z * Qc => r.1 = b)
                          (subquery2 (subquery1 db p))))
  = platform_score db p b.
Proof.
  unfold subquery2.
  set (G := group_by (fun r : Z * string * string => (r.1.1, r.2))
                     (subquery1 db p)).
  rewrite (map_ext _ (fun g : (Z * string) * list (Z * string * string) =>
                        (g.1.1,
                         (weight_of_name g.1.2
                          * Qc_of_Z (Z.of_nat (length g.2)))%Qc))).
  2:{ intros [[t lvl] rows]. simpl. unfold weight_of_name.
      by destruct (String.eqb lvl "user"). }
  rewrite filter_map_comm, map_map. simpl.
  rewrite (sum_Qc_map_ext _
    (fun g => sum_Qc (map (fun r : Z * string * string => weight_of_name r.2)
                          g.2))).
  2:{ intros g [_ Hg]%list_elem_of_filter. apply group_by_elem in Hg as [_ Hg].
      rewrite <- sum_Qc_const. apply sum_Qc_map_ext.
      intros r Hr. rewrite Hg in Hr. apply list_elem_of_filter in Hr as [Hr _].
      by rewrite <- Hr. }
  subst G.
  rewrite (sum_group_by (fun r : Z * string * string => (r.1.1, r.2))
             (fun r => weight_of_name r.2) (fun k : Z * string => k.1 = b)
             (HP := fun k : Z * string => decide_rel eq k.1 b)).
  simpl. rewrite subquery1_closed, filter_map_comm, map_map. simpl.
  unfold platform_score. apply sum_Qc_map_ext. intros g _.
  apply weight_of_level_name.
Qed.

Lemma teams_with_id db b :
  NoDup (map Team.id (teams db)) →
  filter (fun t => b = Team.id t) (teams db)
  = match session_get_team db b with Some T => [T] | None => [] end.
Proof.
  unfold session_get_team. induction (teams db) as [|t ts IH]; [done|].
  simpl. intros [Ht Hts]%NoDup_cons. rewrite filter_cons.
  destruct (decide (b = Team.id t)) as [->|Hne].
  - rewrite Z.eqb_refl. f_equal. apply filter_none.
    intros x Hx Heq. apply Ht. rewrite Heq. apply list_elem_of_fmap.
    by exists x.
  - rewrite (proj2 (Z.eqb_neq _ _)) by done. by apply IH.
Qed.

(** [subquery2 JOIN Team ON BlueTeamId == Team.id] when team identifiers
    are a key. *)
Lemma join_teams_keyed db (rows : list (Z * Qc)) :
  NoDup (map Team.id (teams db)) →
  (r ← rows; t ← filter (fun t => r.1 = Team.id t) (teams db); [(r, t)])
  = (r ← rows; match session_get_team db r.1 with
               | Some T => [(r, T)]
               | None => []
               end).
Proof.
  intros Hnd. apply list_bind_ext; [|done]. intros r.
  rewrite teams_with_id by done. by destruct (session_get_team db r.1).
Qed.

Lemma join_teams_filter db (rows : list (Z * Qc)) b T :
  session_get_team db b = Some T →
  filter (fun rt : (Z * Qc) * Team => rt.1.1 = b)
         (r ← rows; match session_get_team db r.1 with
                    | Some T => [(r, T)]
                    | None => []
                    end)
  = map (fun r => (r, T)) (filter (fun r : Z * Qc => r.1 = b) rows).
Proof.
  intros HT. induction rows as [|r rows IH]; [done|].
  rewrite bind_cons, filter_app, IH, (filter_cons _ r).
  destruct (decide (r.1 = b)) as [Hb|Hb].
  - rewrite Hb, HT. rewrite filter_cons, decide_True by done. done.
  - destruct (session_get_team db r.1); [|done].
    by rewrite filter_cons, decide_False.
Qed.

Lemma join_teams_keys db (rows : list (Z * Qc)) b :
  b ∈ map (fun rt : (Z * Qc) * Team => rt.1.1)
          (r ← rows; match session_get_team db r.1 with
                     | Some T => [(r, T)]
                     | None => []
                     end)
  ↔ b ∈ map fst rows ∧ is_Some (session_get_team db b).
Proof.
  rewrite !list_elem_of_fmap. split.
  - intros (rt & -> & (r & Hrt & Hr)%list_elem_of_bind).
    destruct (session_get_team db r.1) as [T|] eqn:HT;
      [|by apply elem_of_nil in Hrt].
    apply list_elem_of_singleton in Hrt as ->. simpl. split; [by exists r|].
    by exists T.
  - intros [(r & -> & Hr) [T HT]]. exists (r, T). split; [done|].
    apply list_elem_of_bind. exists r. split; [|done]. rewrite HT. by left.
Qed.

(** The rows of [final_query]: one for each team that has an amount, with
    the name of the team and its score on the platform. *)
Lemma final_query_elem db p (row : string * Qc) :
  NoDup (map Team.id (teams db)) →
  row ∈ final_query db p ↔
  ∃ T, session_get_team db (Team.id T) = Some T
       ∧ Team.id T ∈ map fst (subquery2 (subquery1 db p))
       ∧ row = (Team.name T, platform_score db p (Team.id T)).
Proof.
  intros Hnd. unfold final_query. rewrite order_by_perm, join_teams_keyed by done.
  set (R2 := subquery2 (subquery1 db p)).
  assert (∀ b T, session_get_team db b = Some T → b ∈ map fst R2 →
    (default EmptyString ((fun rt : (Z * Qc) * Team => Team.name rt.2)
                 <$> head (map (fun r => (r, T))
                               (filter (fun r : Z * Qc => r.1 = b) R2))),
     sum_Qc (map (fun rt : (Z * Qc) * Team => rt.1.2)
                 (map (fun r => (r, T))
                      (filter (fun r : Z * Qc => r.1 = b) R2))))
    = (Team.name T, platform_score db p b)) as Hrow.
  { intros b T HT Hb. f_equal.
    - apply list_elem_of_fmap in Hb as (r & -> & Hr).
      assert (r ∈ filter (fun r' : Z * Qc => r'.1 = r.1) R2) as Hin
        by by apply list_elem_of_filter.
      by destruct (filter _ R2); [apply elem_of_nil in Hin|].
    - rewrite map_map. simpl. apply subquery2_sum. }
  rewrite list_elem_of_fmap. split.
  - intros (g & -> & [Hk Hg]%group_by_elem).
    apply join_teams_keys in Hk as [Hk [T HT]]. fold R2 in Hk.
    rewrite Hg, (join_teams_filter db R2 g.1 T HT).
    destruct (session_get_team_some _ _ _ HT) as [Hid _].
    exists T. rewrite Hid. split; [done|]. split; [done|].
    rewrite (Hrow g.1 T HT Hk). done.
  - intros (T & HT & Hk & ->).
    exists (Team.id T,
            filter (fun rt : (Z * Qc) * Team => rt.1.1 = Team.id T)
                   (r ← R2; match session_get_team db r.1 with
                            | Some T => [(r, T)]
                            | None => []
                            end)).
    split.
    + simpl. rewrite (join_teams_filter db R2 _ T HT).
      by rewrite (Hrow _ T HT Hk).
    + apply group_by_elem. simpl. split; [|done].
      apply join_teams_keys. split; [done | by exists T].
Qed.

(** A team with an amount has a solve recorded against it. *)
Lemma scored_team_has_solve db p b :
  b ∈ map fst (subquery2 (subquery1 db p)) →
  ∃ s, s ∈ solves db ∧ Solve.team_id s = b.
Proof.
  unfold subquery2. rewrite map_map.
  intros (g & -> & [Hk _]%group_by_elem)%list_elem_of_fmap.
  apply list_elem_of_fmap in Hk as (r & Hr & Hin).
  rewrite subquery1_closed in Hin.
  apply list_elem_of_fmap in Hin as (eg & -> & Heg).
  apply (proj1 (elem_of_remove_dups _ _)) in Heg.
  apply list_elem_of_fmap in Heg as (sf & -> & Hsf).
  apply solve_join_flag_elem in Hsf as [Hs _].
  exists sf.1. split; [done|]. destruct g as [[t lvl] rows]. simpl in *.
  congruence.
Qed.

Lemma unscored_team_zero db p b :
  b ∉ map fst (subquery2 (subquery1 db p)) →
  platform_score db p b = Q2Qc 0.
Proof.
  intros Hb. rewrite <- subquery2_sum. rewrite filter_none; [done|].
  intros r Hr Heq. apply Hb. apply list_elem_of_fmap. by exists r.
Qed.

(** ** The dictionary of totals *)

Lemma odict_set_fresh {V} (k : string) (v : V) (d : list (string * V)) :
  k ∉ map fst d → odict_set k v d = d ++ [(k, v)].
Proof.
  induction d as [|[k' v'] d IH]; [done|]. simpl. intros Hk.
  apply not_elem_of_cons in Hk as [Hne Hk].
  rewrite (proj2 (String.eqb_neq _ _)) by done. by rewrite IH.
Qed.

Lemma odict_get_some {V} (k : string) (d : list (string * V)) :
  k ∈ map fst d → ∃ v, odict_get k d = Some v.
Proof.
  induction d as [|[k' v'] d IH]; simpl; [by intros ?%elem_of_nil|].
  intros Hk. destruct (String.eqb k k') eqn:E; [by exists v'|].
  apply elem_of_cons in Hk as [->|Hk]; [|by apply IH].
  by rewrite String.eqb_refl in E.
Qed.

(** On a dictionary, replacing the value of a key changes the one entry
    with this key. *)
Lemma odict_set_map {V} (k : string) (g : V → V) (d : list (string * V)) v0 :
  NoDup (map fst d) → odict_get k d = Some v0 →
  odict_set k (g v0) d
  = map (fun kv => (kv.1, if String.eqb k kv.1 then g kv.2 else kv.2)) d.
Proof.
  induction d as [|[k' v'] d IH]; [done|]. simpl.
  intros [Hk' Hnd]%NoDup_cons. destruct (String.eqb k k') eqn:E.
  - intros [= ->]. apply String.eqb_eq in E as ->. f_equal.
    clear IH. induction d as [|[k2 v2] d IH]; [done|]. simpl in *.
    apply not_elem_of_cons in Hk' as [Hne Hk'].
    apply NoDup_cons in Hnd as [_ Hnd].
    rewrite (proj2 (String.eqb_neq _ _)) by done. f_equal. by apply IH.
  - intros Hget. f_equal. by apply IH.
Qed.

Lemma assign_scores_map p R (d : list (string * (string * Qc * Qc))) :
  NoDup (map fst d) →
  (∀ r, r ∈ R → r.1 ∈ map fst d) →
  assign_scores p R d
  = inr (map (fun kv =>
                (kv.1,
                 fold_left (fun e (r : string * Qc) =>
                              if String.eqb r.1 kv.1 then set_score p r.2 e
                              else e) R kv.2)) d).
Proof.
  revert d. induction R as [|[n s] R IH]; intros d Hnd Hkeys.
  - simpl. f_equal. clear Hnd Hkeys.
    induction d as [|[k v] d IHd]; [done|]. simpl. by f_equal.
  - simpl. destruct (odict_get_some n d) as [e He].
    { apply (Hkeys (n, s)). by left. }
    rewrite He. destruct e as [[n0 w] x].
    assert (odict_set n
              match p with
              | windows => (n0, s, x)
              | nix => (n0, w, s)
              end d
            = map (fun kv => (kv.1, if String.eqb n kv.1
                                    then set_score p s kv.2 else kv.2)) d)
      as ->.
    { rewrite <- (odict_set_map n (set_score p s) d (n0, w, x)) by done.
      by destruct p. }
    rewrite IH.
    + f_equal. rewrite map_map. done.
    + by rewrite map_map.
    + intros r Hr. rewrite map_map. simpl. apply Hkeys. by right.
Qed.

Lemma fold_scores_absent p (R : list (string * Qc)) k e :
  k ∉ map fst R →
  fold_left (fun e (r : string * Qc) =>
               if String.eqb r.1 k then set_score p r.2 e else e) R e = e.
Proof.
  revert e. induction R as [|[n s] R IH]; intros e; [done|]. simpl.
  intros [Hne Hk]%not_elem_of_cons.
  rewrite (proj2 (String.eqb_neq _ _)) by done. by apply IH.
Qed.

Lemma set_score_twice p s e : set_score p s (set_score p s e) = set_score p s e.
Proof. by destruct p. Qed.

Lemma fold_scores_fixed p (R : list (string * Qc)) k e v :
  (∀ r, r ∈ R → r.1 = k → r.2 = v) →
  fold_left (fun e (r : string * Qc) =>
               if String.eqb r.1 k then set_score p r.2 e else e)
            R (set_score p v e)
  = set_score p v e.
Proof.
  induction R as [|[n s] R IH]; intros HR; [done|]. simpl.
  destruct (String.eqb n k) eqn:E.
  - apply String.eqb_eq in E.
    assert (s = v) as -> by (apply (HR (n, s)); [by left | done]).
    rewrite set_score_twice. apply IH. intros r Hr. apply HR. by right.
  - apply IH. intros r Hr. apply HR. by right.
Qed.

Lemma fold_scores_present p (R : list (string * Qc)) k e v :
  (∀ r, r ∈ R → r.1 = k → r.2 = v) →
  k ∈ map fst R →
  fold_left (fun e (r : string * Qc) =>
               if String.eqb r.1 k then set_score p r.2 e else e) R e
  = set_score p v e.
Proof.
  revert e. induction R as [|[n s] R IH]; intros e HR Hk;
    [by apply elem_of_nil in Hk|].
  simpl. destruct (String.eqb n k) eqn:E.
  - apply String.eqb_eq in E.
    assert (s = v) as -> by (apply (HR (n, s)); [by left | done]).
    apply fold_scores_fixed. intros r Hr. apply HR. by right.
  - apply String.eqb_neq in E. simpl in Hk.
    apply elem_of_cons in Hk as [Hk|Hk]; [done|].
    apply IH; [|done]. intros r Hr. apply HR. by right.
Qed.

Lemma totals_init (l : list Team) (acc : list (string * (string * Qc * Qc))) :
  NoDup (map fst acc ++ map Team.name l) →
  fold_left (fun d blue_team =>
               odict_set (Team.name blue_team)
                 (Team.name blue_team, Q2Qc 0, Q2Qc 0) d) l acc
  = acc ++ map (fun t => (Team.name t, (Team.name t, Q2Qc 0, Q2Qc 0))) l.
Proof.
  revert acc. induction l as [|t l IH]; intros acc Hnd; simpl.
  - by rewrite app_nil_r.
  - simpl in Hnd. apply NoDup_app in Hnd as (Hacc & Hdisj & Hl).
    rewrite odict_set_fresh.
    2:{ intros Ht. apply (Hdisj _ Ht). by left. }
    rewrite IH.
    + by rewrite <- app_assoc.
    + rewrite map_app. simpl. rewrite <- app_assoc. simpl.
      apply NoDup_app. split; [done|]. split; [|done].
      intros x Hx. apply Hdisj in Hx. done.
Qed.

(** ** The totals view *)

Lemma NoDup_map_inj {A B} (f : A → B) (l : list A) x y :
  NoDup (map f l) → x ∈ l → y ∈ l → f x = f y → x = y.
Proof.
  induction l as [|a l IH]; [by intros _ ?%elem_of_nil|]. simpl.
  intros [Ha Hnd]%NoDup_cons Hx Hy Hxy.
  apply elem_of_cons in Hx as [->|Hx]; apply elem_of_cons in Hy as [->|Hy];
    try done.
  - destruct Ha. rewrite Hxy. apply list_elem_of_fmap. by exists y.
  - destruct Ha. rewrite <- Hxy. apply list_elem_of_fmap. by exists x.
  - by apply IH.
Qed.

Lemma team_lookup db T :
  NoDup (map Team.id (teams db)) → T ∈ teams db →
  session_get_team db (Team.id T) = Some T.
Proof.
  intros Hnd HT. destruct (session_get_team db (Team.id T)) as [T'|] eqn:E.
  - destruct (session_get_team_some _ _ _ E) as [Hid HT'].
    f_equal. by apply (NoDup_map_inj Team.id (teams db)).
  - unfold session_get_team in E.
    pose proof (find_none _ _ E T (proj1 (list_elem_of_In _ _) HT)) as Hne.
    simpl in Hne. by apply Z.eqb_neq in Hne.
Qed.

Lemma blue_teams_elem db T :
  T ∈ blue_teams db ↔ T ∈ teams db ∧ Team.color T = "Blue".
Proof.
  unfold blue_teams. rewrite order_by_perm, list_elem_of_filter. tauto.
Qed.

Lemma blue_teams_names db :
  totals_tables db → NoDup (map Team.name (blue_teams db)).
Proof.
  intros [_ Hn _]. unfold blue_teams. by rewrite order_by_perm.
Qed.

(** Every row of [final_query] names a blue team. *)
Lemma final_query_blue db p r :
  totals_tables db → r ∈ final_query db p →
  ∃ T, T ∈ blue_teams db ∧ Team.id T ∈ map fst (subquery2 (subquery1 db p))
       ∧ r = (Team.name T, platform_score db p (Team.id T)).
Proof.
  intros [Hid Hn Hblue] Hr.
  apply final_query_elem in Hr as (T & HT & Hk & ->); [|done].
  apply session_get_team_some in HT as [_ HT].
  destruct (scored_team_has_solve db p _ Hk) as (s & Hs & Hst).
  exists T. split; [|done]. apply blue_teams_elem. split; [done|].
  by apply (Hblue s T).
Qed.

(** What the loop over the rows of one platform leaves in the entry of a
    blue team. *)
Lemma entry_after db p T (e : string * Qc * Qc) :
  totals_tables db → T ∈ blue_teams db →
  match p with windows => e.1.2 | nix => e.2 end = Q2Qc 0 →
  fold_left (fun e (r : string * Qc) =>
               if String.eqb r.1 (Team.name T) then set_score p r.2 e else e)
            (final_query db p) e
  = set_score p (platform_score db p (Team.id T)) e.
Proof.
  intros Htab HT He.
  destruct (decide (Team.name T ∈ map fst (final_query db p))) as [Hin|Hin].
  - apply fold_scores_present; [|done]. intros r Hr Hname.
    destruct (final_query_blue db p r Htab Hr) as (T' & HT' & _ & ->).
    simpl in *. f_equal. f_equal.
    apply (NoDup_map_inj Team.name (blue_teams db)); try done.
    by apply blue_teams_names.
  - rewrite fold_scores_absent by done.
    rewrite unscored_team_zero.
    + destruct p, e as [[n w] x]; simpl in *; by subst.
    + intros Hk. apply Hin. apply list_elem_of_fmap.
      exists (Team.name T, platform_score db p (Team.id T)). split; [done|].
      apply final_query_elem; [by destruct Htab|]. exists T.
      split; [|done]. apply blue_teams_elem in HT as [HT _].
      apply team_lookup; [by destruct Htab | done].
Qed.

Lemma api_flags_totals_expected u db :
  is_red_team u || is_white_team u = true →
  totals_tables db →
  api_flags_totals u db = Ok (expected_totals db).
Proof.
  intros Hrole Htab. unfold api_flags_totals.
  assert (negb (is_red_team u) && negb (is_white_team u) = false) as ->.
  { by destruct (is_red_team u), (is_white_team u). }
  fold (blue_teams db).
  pose proof (blue_teams_names db Htab) as Hnames.
  rewrite totals_init by done. simpl app. simpl fold_left.
  assert (∀ p r, r ∈ final_query db p → r.1 ∈ map Team.name (blue_teams db))
    as Hkeys.
  { intros p r Hr. destruct (final_query_blue db p r Htab Hr) as (T & HT & _ & ->).
    apply list_elem_of_fmap. by exists T. }
  rewrite assign_scores_map;
    [|by rewrite map_map | intros r Hr; rewrite map_map; by apply (Hkeys windows)].
  rewrite assign_scores_map;
    [|by rewrite !map_map | intros r Hr; rewrite !map_map; by apply (Hkeys nix)].
  f_equal. unfold expected_totals. rewrite !map_map.
  apply map_ext_in. intros T HT%list_elem_of_In. simpl.
  rewrite (entry_after db windows T) by done.
  rewrite (entry_after db nix T) by done.
  done.
Qed.



(** ** Flags made by the create-flag operation in the totals view *)




Section CreatedClassification.
Variable parse_datetime : string → option Z.

End CreatedClassification.

(** ** The properties at work on the sample data *)

Lemma sample_totals_tables : totals_tables totals_db.
Proof.
  split.
  - apply (bool_decide_unpack _). by vm_compute.
  - apply (bool_decide_unpack _). by vm_compute.
  - intros s t Hs Ht. revert s Hs.
    apply (proj1 (Forall_forall
                    (fun s => Team.id t = Solve.team_id s → Team.color t = "Blue")
                    (solves totals_db))).
    revert t Ht.
    apply (proj1 (Forall_forall
                    (fun t => Forall (fun s => Team.id t = Solve.team_id s
                                               → Team.color t = "Blue")
                                     (solves totals_db))
                    (teams totals_db))).
    repeat constructor; vm_compute; congruence.
Defined.

Lemma red_flag_submission_unique_witness :
  let qs := [token_request T0 1 "FLAG123"; id_request (T0 + minute) 1 1;
             token_request (T0 + hour) 1 " FLAG123"] in
  (∀ others, (pair_count 1 1 (run_submits others sample_db).2 ≤ 1)%nat)
  ∧ (pair_count 1 1 sample_db = 1%nat →
       run_submits qs sample_db = (replicate (length qs) Conflict, sample_db))
  ∧ (pair_count 1 1 sample_db = 0%nat → qs ≠ [] →
       ∃ body row,
         run_submits qs sample_db
           = (Ok body :: replicate (length qs - 1) Conflict,
              add_submission sample_db row
                [update_scoreboard_data; update_team_stats 1;
                 update_flags_data])
         ∧ RedFlagSubmission.flag_id row = 1
         ∧ RedFlagSubmission.target_team_id row = 1
         ∧ pair_count 1 1 (run_submits qs sample_db).2 = 1%nat).
Proof.
  intros qs.
  apply (red_flag_submission_unique sample_db flag123 blue1 qs).
  - vm_compute. lia.
  - repeat constructor.
Defined.




Lemma list_active_flags_witness :
  ∃ listed,
    api_flags T0 white_user sample_db = Ok (map flag_entry_of listed)
    ∧ listed ⊆+ flags sample_db
    ∧ ∀ f, f ∈ listed ↔
           f ∈ flags sample_db
           ∧ Flag.dummy f = false
           ∧ T0 < Flag.end_time f
           ∧ T0 + 5 * minute > Flag.start_time f
           ∧ (is_red_team white_user = true →
              submitted_by_team sample_db white_user f).
Proof.
  apply (list_active_flags T0 white_user sample_db (PStr "5") 5
           (T0 + 5 * minute)); try reflexivity.
  intros f Hf. apply list_elem_of_singleton in Hf as ->. by eexists.
Defined.

Lemma manual_adjustment_additive_witness :
  let adjust p reason now d :=
    (api_flags_adjust_score now white_user (adjust_payload 3 p reason) d).2 in
  manual_adjustment_term sample_db 3
    = sum_adjustments_for 3 (adjustments sample_db)
  ∧ manual_adjustment_term (adjust (-10) EmptyString (T0 + 1) (adjust 10 EmptyString T0 sample_db)) 3
    = manual_adjustment_term sample_db 3
  ∧ manual_adjustment_term
      (adjust (-20) "penalty" (T0 + 1) (adjust 50 "bonus" T0 sample_db)) 3
    = manual_adjustment_term sample_db 3 + 30.
Proof.
  apply (manual_adjustment_additive sample_db white_user blue3 3 T0 (T0 + 1)
           EmptyString EmptyString); reflexivity.
Defined.


Example attacker_score_totals_values :
  api_flags_totals red_user totals_db
  = Ok [ {| team := "blue-1"; win_score := Q2Qc 0;
            nix_score := Q2Qc (3 # 2); total_score := Q2Qc (3 # 2) |};
         {| team := "blue-3"; win_score := half; nix_score := half;
            total_score := Q2Qc 1 |} ].
Proof.
  rewrite (api_flags_totals_expected red_user totals_db eq_refl
             sample_totals_tables).
  unfold expected_totals. f_equal. replace (blue_teams totals_db) with [blue1; blue3] by by vm_compute.
  simpl map. repeat f_equal; apply Qc_is_canon; by vm_compute.
Qed.



Lemma canonical_flag_token_witness :
  ∃ f, flags (api_flags_add parse_hours T0 white_user create_payload sample_db).2
         = flags sample_db ++ [f]
       ∧ Flag.id f = 2
       ∧ _get_flag_token f = Some "FLAG-NEW".
Proof.
  destruct (proj2 (proj2 (proj2 (proj2 (proj2
              (canonical_flag_token parse_hours)))))
              T0 white_user create_payload sample_db 2 " FLAG-NEW "
              eq_refl eq_refl)
    as (f & Hf & Hid & Htok & _).
  by exists f.
Defined.


Example created_flags_example :
  (api_flags_add parse_hours T0 white_user create_payload sample_db).1 = Ok 2
  ∧ (submit (token_request (2000 * hour) 1 "FLAG-NEW")
       (api_flags_add parse_hours T0 white_user create_payload sample_db).2).1
    = Ok {| submit_flag_id := 2; submit_team_id := 1; points_deducted := 10 |}
  ∧ (api_flags_add parse_hours T0 white_user
       {[ "content" := PStr "   " ]} sample_db)
    = (Error 400 "content is required", sample_db)
  ∧ (api_flags_add parse_hours T0 white_user
       {[ "content" := PStr "x"; "start_time" := PStr "5";
          "end_time" := PStr "5" ]} sample_db)
    = (Error 400 "end_time must be after start_time", sample_db).
Proof. repeat split; by vm_compute. Qed.

Example submit_scenario :
  (submit (id_request (T0 - minute) 1 1) sample_db) = (NotActive, sample_db)
  ∧ (submit (id_request T0 1 1) sample_db).1
    = Ok {| submit_flag_id := 1; submit_team_id := 1; points_deducted := 10 |}
  ∧ (submit (id_request T0 1 1) (submit (id_request T0 1 1) sample_db).2).1
    = Conflict
  ∧ (submit (id_request T0 7 1) sample_db) = (InvalidTarget, sample_db)
  ∧ (submit (id_request T0 1 99) sample_db) = (NotFound, sample_db).
Proof. repeat split; by vm_compute. Qed.

Example text_examples :
  strip "  FLAG 123  " = "FLAG 123"
  ∧ py_int (PStr " -1_000 ") = Some (-1000)
  ∧ py_int (PStr "1__0") = None
  ∧ py_int (PStr "12a") = None
  ∧ py_str (PInt (-42)) = "-42".
Proof. repeat split. Qed.

(* ===================================================================== *)
(** * Part IV.  Further properties of the handlers *)
(* ===================================================================== *)

(** ** Submission: what a call changes *)

Lemma session_get_flag_some db v f :
  session_get_flag db v = Some f →
  f ∈ flags db ∧ py_int v = Some (Flag.id f).
Proof.
  unfold session_get_flag. destruct (py_int v) as [k|]; [|done]. simpl.
  intros H. apply find_some in H as [Hin Heq]. apply Z.eqb_eq in Heq.
  split; [by apply list_elem_of_In | by rewrite Heq].
Qed.

Lemma resolve_flag_elem now flag_id v db f :
  resolve_flag now flag_id v db = Some f → f ∈ flags db.
Proof.
  destruct (truthy flag_id) eqn:Hid.
  - unfold resolve_flag. rewrite Hid. by intros [? _]%session_get_flag_some.
  - intros (l1 & l2 & -> & _)%resolve_by_token_some; [|done].
    apply elem_of_app. right. by left.
Qed.

(** What the checks of lines 189-238 have established when the handler
    goes on to persist. *)
Lemma submit_checks_inr now u payload db f T :
  submit_checks now u payload db = inr (f, T) →
  is_red_team u = true
  ∧ py_int (dict_get payload "team_id") = Some (Team.id T)
  ∧ T ∈ teams db ∧ is_blue_team T = true
  ∧ f ∈ flags db ∧ Flag.dummy f = false ∧ in_window now f = true
  ∧ resolve_flag now (dict_get payload "flag_id") (submitted_value payload) db
    = Some f.
Proof.
  unfold submit_checks.
  destruct (is_red_team u); [|done]. simpl.
  destruct (truthy (dict_get payload "team_id")); [|done]. simpl.
  destruct (negb _ && negb _); [done|].
  destruct (py_int (dict_get payload "team_id")) as [t|]; [|done].
  destruct (session_get_team db t) as [T'|] eqn:HT; [|done].
  destruct (is_blue_team T') eqn:Hb; [|done]. simpl.
  destruct (resolve_flag _ _ _ db) as [f'|] eqn:Hf; [|done].
  destruct (Flag.dummy f') eqn:Hd; [done|]. simpl.
  destruct (in_window now f') eqn:Hw; [|done]. simpl.
  intros [= -> ->]. apply session_get_team_some in HT as [<- HT].
  apply resolve_flag_elem in Hf as Hin. done.
Qed.

Lemma submit_checks_not_ok now u payload db body :
  submit_checks now u payload db ≠ inl (Ok body).
Proof. unfold submit_checks. repeat (case_match; try done). Qed.

(** X1.  A submit call changes the database only when it answers Ok:
    every other response leaves it exactly as it was.  An Ok response
    appends one RedFlagSubmission row, built from the resolved flag, the
    target team, the caller and the penalty, and records the three cache
    refreshes; no other table is touched. *)
Theorem api_flags_submit_effect
    (now submitted_at : Z) (u : User) (payload : gmap string pyval) (db : DB) :
  let r := api_flags_submit now submitted_at u payload db in
  ((∀ body, r.1 ≠ Ok body) → r.2 = db)
  ∧ (∀ body, r.1 = Ok body →
       r.2 = add_submission db
               {| RedFlagSubmission.id :=
                    fresh_id (map RedFlagSubmission.id (submissions db));
                  RedFlagSubmission.flag_id := submit_flag_id body;
                  RedFlagSubmission.target_team_id := submit_team_id body;
                  RedFlagSubmission.submitted_by_team_id := Team.id (User.team u);
                  RedFlagSubmission.submitted_by_user_id := User.id u;
                  RedFlagSubmission.points := points_deducted body;
                  RedFlagSubmission.submitted_at := submitted_at |}
               (submit_cache_calls (submit_team_id body))
       ∧ points_deducted body = get_red_flag_submission_penalty db).
Proof.
  intros r. subst r. unfold api_flags_submit.
  destruct (submit_checks now u payload db) as [e|[f T]] eqn:Hc; simpl.
  - split; [done|]. intros body ->.
    by destruct (submit_checks_not_ok now u payload db body).
  - unfold persist_submission. case_match; simpl.
    + split; [done|]. done.
    + split; [intros Hno; by destruct (Hno _ eq_refl)|].
      by intros body [= <-].
Qed.


(** X3.  When a request carries a truthy [flag_id], the token fields
    ("content", "flag", "flag_value", "submitted_flag") play no part: two
    requests that agree on [flag_id] and [team_id] are answered alike. *)
Theorem flag_id_precedes_token
    (now submitted_at : Z) (u : User) (p1 p2 : gmap string pyval) (db : DB) :
  truthy (dict_get p1 "flag_id") = true →
  dict_get p2 "flag_id" = dict_get p1 "flag_id" →
  dict_get p2 "team_id" = dict_get p1 "team_id" →
  api_flags_submit now submitted_at u p2 db
  = api_flags_submit now submitted_at u p1 db.
Proof.
  intros Hid H1 H2. unfold api_flags_submit, submit_checks, resolve_flag.
  rewrite H1, H2, Hid. simpl. done.
Qed.

(** ** The red penalty *)

Lemma penalty_points_sum db t :
  penalty_points db t = sum_penalties_for t (submissions db).
Proof.
  unfold penalty_points, get_blue_team_penalty_points, sum_penalties_for.
  rewrite sum_points_by_lookup. case_decide as Hin; [done|].
  simpl. rewrite filter_none; [done|].
  intros r Hr Hk. apply Hin. apply list_elem_of_fmap. by exists r.
Qed.

Lemma sum_penalties_for_snoc t rows r :
  sum_penalties_for t (rows ++ [r]) =
    sum_penalties_for t rows
    + (if decide (RedFlagSubmission.target_team_id r = t)
       then RedFlagSubmission.points r else 0).
Proof.
  unfold sum_penalties_for. rewrite filter_app, map_app.
  induction (filter _ rows) as [|x xs IH]; simpl.
  - rewrite filter_cons, filter_nil. case_decide; simpl; lia.
  - rewrite IH. lia.
Qed.

(** X4.  The dictionary of [get_blue_team_penalty_points] has an entry
    exactly for the teams that some submission targets, and the entry of a
    team is the sum of the points of the submissions that target it. *)
Theorem penalty_points_by_team (db : DB) (t : Z) :
  (get_blue_team_penalty_points db !! t = None ↔
   ∀ r, r ∈ submissions db → RedFlagSubmission.target_team_id r ≠ t)
  ∧ (∀ v, get_blue_team_penalty_points db !! t = Some v →
          v = sum_penalties_for t (submissions db)).
Proof.
  unfold get_blue_team_penalty_points. rewrite sum_points_by_lookup.
  case_decide as Hin.
  - split.
    + split; [done|]. intros Hno.
      apply list_elem_of_fmap in Hin as (r & -> & Hr). by destruct (Hno r Hr).
    + by intros v [= <-].
  - split; [|done]. split; [|done]. intros _ r Hr Heq. apply Hin.
    apply list_elem_of_fmap. by exists r.
Qed.

(** X5.  A submit call that answers Ok raises the penalty recorded
    against its target team by the points it reports and leaves the penalty
    of every other team as it was; a call that answers anything else
    changes no team's penalty. *)
Theorem penalty_after_submit
    (now submitted_at : Z) (u : User) (payload : gmap string pyval) (db : DB) :
  let r := api_flags_submit now submitted_at u payload db in
  (∀ body, r.1 = Ok body →
     ∀ t, penalty_points r.2 t
          = penalty_points db t
            + (if decide (submit_team_id body = t)
               then points_deducted body else 0))
  ∧ ((∀ body, r.1 ≠ Ok body) → ∀ t, penalty_points r.2 t = penalty_points db t).
Proof.
  intros r. subst r. unfold api_flags_submit.
  destruct (submit_checks now u payload db) as [e|[f T]] eqn:Hc; simpl.
  - split; [|done]. intros body ->.
    by destruct (submit_checks_not_ok now u payload db body).
  - destruct (Nat.eq_dec (pair_count (Flag.id f) (Team.id T) db) 0%nat)
      as [H0|H0].
    + destruct (persist_submission_fresh submitted_at u f T db H0)
        as (row & -> & _ & Ht & Hp). simpl. split.
      * intros body [= <-] t. simpl. rewrite !penalty_points_sum. simpl.
        by rewrite sum_penalties_for_snoc, Ht, Hp.
      * intros Hno. by destruct (Hno _ eq_refl).
    + rewrite persist_submission_conflict by lia. simpl. by split.
Qed.

(** X6.  No double penalty: however many calls are made for a pair
    (flag, target team) that has no submission yet, the penalty recorded
    against the target team rises once, by the configured penalty, and the
    penalty of every other team stays as it was. *)
Theorem no_double_penalty
    (db : DB) (f : Flag) (T : Team) (qs : list submit_request) :
  pair_count (Flag.id f) (Team.id T) db = 0%nat →
  qs ≠ [] →
  Forall (fun q => submit_target q db = inr (f, T)) qs →
  ∀ t, penalty_points (run_submits qs db).2 t
       = penalty_points db t
         + (if decide (Team.id T = t)
            then get_red_flag_submission_penalty db else 0).
Proof.
  intros H0 Hne Hqs t. destruct qs as [|q qs]; [done|]. clear Hne.
  apply Forall_cons in Hqs as [Hq Hqs].
  destruct (persist_submission_fresh (req_submitted_at q) (req_user q) f T db H0)
    as (row & Hp & Hf & Ht & Hpts).
  assert (submit q db
          = (Ok {| submit_flag_id := Flag.id f; submit_team_id := Team.id T;
                   points_deducted := get_red_flag_submission_penalty db |},
             add_submission db row
               [update_scoreboard_data; update_team_stats (Team.id T);
                update_flags_data])) as Hs.
  { unfold submit, api_flags_submit. unfold submit_target in Hq. by rewrite Hq. }
  set (db1 := add_submission db row _) in *.
  assert (run_submits qs db1 = (replicate (length qs) Conflict, db1)) as Hr.
  { apply (run_submits_conflicts qs db1 f T).
    - eapply Forall_impl; [exact Hqs|]. intros q' Hq'. simpl in *.
      unfold submit_target in *. by rewrite (submit_checks_frame _ _ _ db db1).
    - subst db1. rewrite pair_count_add_submission, H0.
      assert (same_pair (Flag.id f) (Team.id T) row = true) as ->
        by by apply same_pair_ids.
      lia. }
  rewrite run_submits_cons, Hs. simpl. rewrite Hr. simpl.
  rewrite !penalty_points_sum. subst db1. simpl.
  by rewrite sum_penalties_for_snoc, Ht, Hpts.
Qed.

(** ** Manual adjustment: what a call does *)

(** The outcome of [api_flags_adjust_score] case by case, in the order of
    the checks of lines 141-160. *)
Lemma api_flags_adjust_score_cases now u payload db :
  let r := api_flags_adjust_score now u payload db in
  let team_id := dict_get payload "team_id" in
  let points := dict_get payload "points" in
  (r.2 = db ∧ (∀ body, r.1 ≠ Ok body)
   ∧ (is_white_team u = false
      ∨ (∀ raw, py_or (dict_get payload "reason") (PStr EmptyString) ≠ PStr raw)
      ∨ team_id = PNone ∨ points = PNone
      ∨ py_int team_id = None ∨ py_int points = None
      ∨ (∃ t, py_int team_id = Some t
              ∧ (session_get_team db t = None
                 ∨ ∃ T, session_get_team db t = Some T
                        ∧ is_blue_team T = false))))
  ∨ ∃ raw t p T,
      is_white_team u = true
      ∧ py_or (dict_get payload "reason") (PStr EmptyString) = PStr raw
      ∧ team_id ≠ PNone ∧ points ≠ PNone
      ∧ py_int team_id = Some t ∧ py_int points = Some p
      ∧ session_get_team db t = Some T ∧ is_blue_team T = true
      ∧ r = (Ok {| adjust_team_id := Team.id T; adjust_points := p;
                   adjust_reason := strip raw |},
             add_adjustment db
               {| ScoreAdjustment.id :=
                    fresh_id (map ScoreAdjustment.id (adjustments db));
                  ScoreAdjustment.target_team_id := Team.id T;
                  ScoreAdjustment.adjusted_by_team_id := Team.id (User.team u);
                  ScoreAdjustment.adjusted_by_user_id := User.id u;
                  ScoreAdjustment.points := p;
                  ScoreAdjustment.reason :=
                    if String.eqb (strip raw) EmptyString then None
                    else Some (strip raw);
                  ScoreAdjustment.created_at := now |}
               [update_scoreboard_data; update_team_stats (Team.id T)]).
Proof.
  unfold api_flags_adjust_score. cbv zeta.
  destruct (is_white_team u) eqn:Hw; simpl negb; cbv iota;
    [|left; split; [done|]; split; [done|]; by left].
  destruct (py_or (dict_get payload "reason") (PStr EmptyString))
    as [| | |raw|] eqn:Hr;
    try (left; split; [done|]; split; [done|]; right; left; by intros raw).
  destruct (decide (dict_get payload "team_id" = PNone)) as [Ht|Ht].
  { rewrite (bool_decide_true (dict_get payload "team_id" = PNone)) by done.
    simpl. left. split; [done|]. split; [done|]. tauto. }
  destruct (decide (dict_get payload "points" = PNone)) as [Hp|Hp].
  { rewrite (bool_decide_false (dict_get payload "team_id" = PNone)) by done.
    rewrite (bool_decide_true (dict_get payload "points" = PNone)) by done.
    simpl. left. split; [done|]. split; [done|]. tauto. }
  rewrite !bool_decide_false by done. simpl orb. cbv iota.
  destruct (py_int (dict_get payload "team_id")) as [t|] eqn:Hit;
    [|left; split; [done|]; split; [done|]; tauto].
  destruct (py_int (dict_get payload "points")) as [p|] eqn:Hip;
    [|left; split; [done|]; split; [done|]; tauto].
  destruct (session_get_team db t) as [T|] eqn:HT.
  2:{ left. split; [done|]. split; [done|]. do 6 right. exists t. tauto. }
  destruct (is_blue_team T) eqn:Hb; simpl negb; cbv iota.
  2:{ left. split; [done|]. split; [done|]. do 6 right. exists t.
      split; [done|]. right. by exists T. }
  right. exists raw, t, p, T. done.
Qed.


(** X8.  The reason of an adjustment is read, and stripped, before any
    other field is checked: a white-team caller whose request carries a
    truthy reason that is no text gets an unhandled [AttributeError], and
    nothing is persisted, whatever the other fields hold. *)
Theorem adjust_score_reason_not_text
    (now : Z) (u : User) (payload : gmap string pyval) (db : DB) :
  is_white_team u = true →
  truthy (dict_get payload "reason") = true →
  (∀ raw, dict_get payload "reason" ≠ PStr raw) →
  api_flags_adjust_score now u payload db = (Raise AttributeError, db).
Proof.
  intros Hw Ht Hno. unfold api_flags_adjust_score, py_or. rewrite Hw, Ht. simpl.
  destruct (dict_get payload "reason") as [| | |raw|]; try done.
  by destruct (Hno raw).
Qed.

(** X9.  The penalty and the manual adjustment of a team live in
    separate tables: a submit call never changes a manual-adjustment term,
    an adjustment never changes a penalty, and creating a flag changes
    neither. *)
Theorem score_terms_independent
    (parse_datetime : string → option Z) (now at_ : Z) (u : User)
    (payload : gmap string pyval) (db : DB) (t : Z) :
  manual_adjustment_term (api_flags_submit now at_ u payload db).2 t
  = manual_adjustment_term db t
  ∧ penalty_points (api_flags_adjust_score now u payload db).2 t
    = penalty_points db t
  ∧ penalty_points (api_flags_add parse_datetime now u payload db).2 t
    = penalty_points db t
  ∧ manual_adjustment_term (api_flags_add parse_datetime now u payload db).2 t
    = manual_adjustment_term db t.
Proof.
  split; [|split; [|split]].
  - unfold api_flags_submit.
    destruct (submit_checks now u payload db) as [e|[f T]]; [done|].
    unfold persist_submission. by case_match.
  - destruct (api_flags_adjust_score_cases now u payload db)
      as [(-> & _)|(? & ? & ? & ? & _ & _ & _ & _ & _ & _ & _ & _ & Hr)];
      [done|].
    simpl in Hr. by rewrite Hr.
  - destruct (api_flags_add_inv parse_datetime now u payload db)
      as [[-> _]|(raw & en & d & _ & _ & _ & _ & _ & Hr)]; [done|].
    simpl in Hr. by rewrite Hr.
  - destruct (api_flags_add_inv parse_datetime now u payload db)
      as [[-> _]|(raw & en & d & _ & _ & _ & _ & _ & Hr)]; [done|].
    simpl in Hr. by rewrite Hr.
Qed.

(** ** Flag creation: acceptance and lenient times *)



Section CreationMore.
Variable parse_datetime : string → option Z.



End CreationMore.

(** ** Listing: order, roles and failures *)

Lemma api_flags_ok_inv now u db entries :
  api_flags now u db = Ok entries →
  session_get_team db (Team.id (User.team u)) = Some (User.team u)
  ∧ is_red_team u || is_white_team u = true
  ∧ ∃ value mins early,
      get_setting db "agent_show_flag_early_mins" = Some value
      ∧ py_int value = Some mins
      ∧ timedelta_minutes mins ≫= datetime_add now = Some early
      ∧ entries = map flag_entry_of (visible_flags now early u db)
      ∧ ∀ f, f ∈ visible_flags now early u db → ∃ d, Flag.data f = DataDict d.
Proof.
  unfold api_flags.
  destruct (session_get_team db _) as [team|] eqn:HT; [|done].
  destruct (bool_decide (User.team u = team)) eqn:Heq; [|done].
  apply bool_decide_eq_true in Heq. subst team.
  destruct (is_red_team u || is_white_team u) eqn:Hrole; [|done]. simpl.
  destruct (get_setting db _) as [value|] eqn:Hs; [|done].
  destruct (py_int value) as [mins|] eqn:Hi; [|done].
  destruct (timedelta_minutes mins ≫= datetime_add now) as [early|] eqn:He;
    [|done].
  destruct (serialize_flags _) as [e|data] eqn:Hser; [done|].
  intros [= <-]. split; [done|]. split; [done|].
  exists value, mins, early. repeat split; try done.
  - by apply serialize_flags_inv.
  - clear -Hser. revert data Hser.
    induction (visible_flags now early u db) as [|g l IH]; intros data Hser f Hf;
      [by apply elem_of_nil in Hf|].
    simpl in Hser. unfold serialize_flag in Hser.
    destruct (Flag.data g) as [d|] eqn:Hd; [|done].
    destruct (serialize_flags l) as [|xs] eqn:Hl; [done|].
    apply elem_of_cons in Hf as [->|Hf]; [by exists d|]. by apply (IH xs).
Qed.








(** ** Dummy flags *)

Lemma api_flags_submit_ok_inv now at_ u payload db body :
  (api_flags_submit now at_ u payload db).1 = Ok body →
  ∃ f T, submit_checks now u payload db = inr (f, T)
         ∧ Flag.id f = submit_flag_id body
         ∧ Team.id T = submit_team_id body
         ∧ pair_count (Flag.id f) (Team.id T) db = 0%nat.
Proof.
  unfold api_flags_submit.
  destruct (submit_checks now u payload db) as [e|[f T]] eqn:Hc; simpl.
  - intros ->. by destruct (submit_checks_not_ok now u payload db body).
  - intros Hok. exists f, T. split; [done|].
    destruct (Nat.eq_dec (pair_count (Flag.id f) (Team.id T) db) 0%nat)
      as [H0|H0].
    + destruct (persist_submission_fresh at_ u f T db H0) as (row & Hp & _).
      rewrite Hp in Hok. simpl in Hok. by injection Hok as <-.
    + rewrite persist_submission_conflict in Hok by lia. done.
Qed.

(** X15.  A dummy flag is a decoy to the whole API: when flag
    identifiers are distinct, no listing ever contains an entry with the
    identifier of a dummy flag, and no submission is ever accepted for it,
    whether it is named by identifier or by token. *)
Theorem dummy_flag_excluded (db : DB) (f : Flag) :
  NoDup (map Flag.id (flags db)) →
  f ∈ flags db →
  Flag.dummy f = true →
  (∀ now u entries e,
     api_flags now u db = Ok entries → e ∈ entries →
     entry_id e ≠ Flag.id f)
  ∧ (∀ now at_ u payload body,
       (api_flags_submit now at_ u payload db).1 = Ok body →
       submit_flag_id body ≠ Flag.id f).
Proof.
  intros Hnd Hf Hd. split.
  - intros now u entries e Hok He Hid.
    apply api_flags_ok_inv in Hok
      as (_ & _ & v & m & early & _ & _ & _ & -> & _).
    apply list_elem_of_fmap in He as (g & -> & Hg).
    apply visible_flags_elem in Hg as (Hg & Hgd & _).
    assert (g = f) as -> by by apply (NoDup_map_inj Flag.id (flags db)).
    congruence.
  - intros now at_ u payload body Hok Hid.
    apply api_flags_submit_ok_inv in Hok as (g & T & Hc & Hg & _).
    apply submit_checks_inr in Hc as (_ & _ & _ & _ & Hin & Hgd & _).
    assert (g = f) as -> by (apply (NoDup_map_inj Flag.id (flags db)); congruence).
    congruence.
Qed.

(** ** The solves matrix *)

Section PDictFacts.
Context {K V : Type} `{EqDecision K}.
Implicit Types (d : list (K * V)) (k : K) (v : V).

Lemma pdict_get_set_eq k v d : pdict_get k (pdict_set k v d) = Some v.
Proof.
  induction d as [|[k' v'] d IH]; simpl.
  - by rewrite decide_True.
  - destruct (decide (k = k')) as [->|Hne]; simpl.
    + by rewrite decide_True.
    + by rewrite decide_False.
Qed.

Lemma pdict_get_set_ne k k' v d :
  k ≠ k' → pdict_get k' (pdict_set k v d) = pdict_get k' d.
Proof.
  intros Hne. induction d as [|[k2 v2] d IH]; simpl.
  - by rewrite decide_False.
  - destruct (decide (k = k2)) as [->|Hk]; simpl.
    + by rewrite !decide_False.
    + destruct (decide (k' = k2)); [done | exact IH].
Qed.

Lemma pdict_set_set k v v' d :
  pdict_set k v (pdict_set k v' d) = pdict_set k v d.
Proof.
  induction d as [|[k2 v2] d IH]; simpl.
  - by rewrite decide_True.
  - destruct (decide (k = k2)) as [->|Hk]; simpl.
    + by rewrite decide_True.
    + rewrite decide_False by done. by rewrite IH.
Qed.

Lemma pdict_set_not_nil k v d : pdict_set k v d ≠ [].
Proof. destruct d as [|[k2 v2] d]; simpl; [done|]. by case_decide. Qed.
End PDictFacts.

Lemma existsb_snoc {A} (p : A → bool) l x :
  existsb p (l ++ [x]) = existsb p l || p x.
Proof. rewrite existsb_app. simpl. by rewrite orb_false_r. Qed.

Lemma item_solved_for pm tn sn item :
  item_solved pm tn sn item = true → item_for tn sn item = true.
Proof.
  unfold item_solved. intros H. apply andb_true_iff in H as [H _].
  by apply andb_true_iff in H as [H _].
Qed.

Lemma item_solved_not_for pm tn sn item :
  item_for tn sn item = false → item_solved pm tn sn item = false.
Proof. unfold item_solved. by intros ->. Qed.

Lemma existsb_solved_for pm tn sn items :
  existsb (item_for tn sn) items = false →
  existsb (item_solved pm tn sn) items = false.
Proof.
  intros H. destruct (existsb (item_solved pm tn sn) items) eqn:E; [|done].
  apply existsb_exists in E as (x & Hx & Hs).
  apply item_solved_for in Hs.
  assert (existsb (item_for tn sn) items = true); [|congruence].
  apply existsb_exists. by exists x.
Qed.

Lemma solves_step_columns items columns data item columns' data' :
  columns_reflect items columns →
  solves_step (columns, data) item = inr (columns', data') →
  columns_reflect (items ++ [item]) columns'.
Proof.
  intros (Hnd & Hhd & Hin) Hstep.
  assert (columns' = if bool_decide (service_name item ∈ columns) then columns
                     else columns ++ [service_name item]) as ->.
  { unfold solves_step in Hstep. cbv zeta in Hstep.
    destruct (has_solve item); [|by injection Hstep as <- _].
    destruct (flag_perm item) as [[]|]; [| |done];
      by injection Hstep as <- _. }
  assert (∀ c, (∃ x, x ∈ items ++ [item] ∧ service_name x = c) ↔
               (∃ x, x ∈ items ∧ service_name x = c) ∨ service_name item = c)
    as Hsnoc.
  { intros c. split.
    - intros (x & [Hx|Hx]%elem_of_app & Hc); [left; by exists x|].
      apply list_elem_of_singleton in Hx as ->. by right.
    - intros [(x & Hx & Hc)|Hc].
      + exists x. split; [|done]. apply elem_of_app. by left.
      + exists item. split; [|done]. apply elem_of_app. right. by left. }
  case_bool_decide as Hc.
  - split; [done|]. split; [done|]. intros c. rewrite Hin, Hsnoc.
    split; [tauto|]. intros [H|[H|<-]]; [tauto | tauto |]. by apply Hin.
  - split; [|split].
    + apply NoDup_app. split; [done|]. split; [|apply NoDup_singleton].
      by intros x Hx ->%list_elem_of_singleton.
    + by destruct columns.
    + intros c. rewrite elem_of_app, list_elem_of_singleton, Hin, Hsnoc.
      split.
      * intros [[?|?]|?]; auto.
      * intros [?|[?|?]]; auto.
Qed.

Lemma solves_step_data items columns data item :
  data_reflects items data →
  (has_solve item = true → is_Some (flag_perm item)) →
  ∃ columns' data',
    solves_step (columns, data) item = inr (columns', data')
    ∧ data_reflects (items ++ [item]) data'.
Proof.
  intros [Hcell Hne] Hperm.
  set (tn0 := team_name item). set (sn0 := service_name item).
  set (inner0 := default [] (pdict_get tn0 data)).
  set (inner1 := match pdict_get sn0 inner0 with
                 | Some _ => inner0
                 | None => pdict_set sn0 (0, 0) inner0
                 end).
  set (cell := default (0, 0) (pdict_get sn0 inner1)).
  set (cell' := if has_solve item then
                  match flag_perm item with
                  | Some user => (1, cell.2)
                  | _ => (cell.1, 1)
                  end
                else cell).
  set (inner2 := if has_solve item then pdict_set sn0 cell' inner1 else inner1).
  (* the step writes [inner2] under the team name *)
  assert (∃ columns',
            solves_step (columns, data) item
            = inr (columns', pdict_set tn0 inner2 data)) as [columns' Hstep].
  { unfold solves_step. cbv zeta. fold tn0 sn0.
    assert (∀ d1, (d1 = data ∧ (∃ x xs, pdict_get tn0 data = Some (x :: xs)))
                  ∨ (d1 = pdict_set tn0 [] data
                     ∧ pdict_get tn0 data = None) →
                  default [] (pdict_get tn0 d1) = inner0
                  ∧ ∀ v, pdict_set tn0 v d1 = pdict_set tn0 v data) as Hd1.
    { intros d1 [[-> _]|[-> Hnone]]; [done|].
      rewrite pdict_get_set_eq. subst inner0. rewrite Hnone. simpl.
      split; [done|]. intros v. apply pdict_set_set. }
    destruct (pdict_get tn0 data) as [[|x xs]|] eqn:Hget.
    - by destruct (Hne tn0).
    - destruct (Hd1 data) as [Hi Hs]; [left; split; [done|]; by exists x, xs|].
      rewrite Hi. fold inner1. fold cell. subst inner2 cell'.
      destruct (has_solve item); [|by eexists].
      destruct (Hperm eq_refl) as [pm ->]. destruct pm; by eexists.
    - destruct (Hd1 (pdict_set tn0 [] data)) as [Hi Hs]; [by right|].
      rewrite Hi. fold inner1. fold cell. rewrite !Hs. subst inner2 cell'.
      destruct (has_solve item); [|by eexists].
      destruct (Hperm eq_refl) as [pm ->]. destruct pm; by eexists. }
  exists columns', (pdict_set tn0 inner2 data). split; [done|].
  (* the old cell of the row, read off the rows seen so far *)
  assert (cell = (bit (existsb (item_solved user tn0 sn0) items),
                  bit (existsb (item_solved root tn0 sn0) items))
          ∧ pdict_get sn0 inner1 = Some cell
          ∧ ∀ sn, sn ≠ sn0 → pdict_get sn inner1 = lookup_cell data tn0 sn)
    as (Hold & Hget1 & Hother).
  { pose proof (Hcell tn0 sn0) as H0. unfold lookup_cell, cell_of in H0.
    assert (∀ sn, pdict_get sn inner0 = lookup_cell data tn0 sn) as Hin0.
    { intros sn. unfold lookup_cell. subst inner0.
      by destruct (pdict_get tn0 data). }
    assert (pdict_get sn0 inner0 = pdict_get tn0 data ≫= pdict_get sn0) as E0
      by apply Hin0.
    rewrite <- E0 in H0. subst cell inner1.
    destruct (pdict_get sn0 inner0) as [c|] eqn:Hc.
    - rewrite Hc. simpl. split; [|split; [done|by intros sn _]].
      destruct (existsb (item_for tn0 sn0) items); by simplify_eq.
    - rewrite pdict_get_set_eq. simpl. split; [|split; [done|]].
      + destruct (existsb (item_for tn0 sn0) items) eqn:E; [done|].
        by rewrite !existsb_solved_for.
      + intros sn Hsn. rewrite pdict_get_set_ne by done. apply Hin0. }
  assert (pdict_get sn0 inner2 = Some cell'
          ∧ ∀ sn, sn ≠ sn0 → pdict_get sn inner2 = lookup_cell data tn0 sn)
    as [Hget2 Hother2].
  { subst inner2 cell'. destruct (has_solve item).
    - rewrite pdict_get_set_eq. split; [done|]. intros sn Hsn.
      rewrite pdict_get_set_ne by done. by apply Hother.
    - by split. }
  split.
  - intros tn sn. unfold lookup_cell at 1.
    destruct (decide (tn0 = tn)) as [<-|Htn].
    + rewrite pdict_get_set_eq. simpl.
      destruct (decide (sn = sn0)) as [->|Hsn].
      * rewrite Hget2. unfold cell_of. rewrite !existsb_snoc.
        assert (item_for tn0 sn0 item = true) as Hfor.
        { unfold item_for. by rewrite !bool_decide_true. }
        rewrite Hfor, orb_true_r. f_equal. subst cell'. rewrite Hold.
        unfold item_solved. rewrite Hfor. simpl.
        destruct (has_solve item) eqn:Hs; simpl.
        -- destruct (Hperm eq_refl) as [pm Hpm]. rewrite Hpm.
           destruct pm.
           ++ rewrite bool_decide_true, bool_decide_false by done.
              by rewrite orb_true_r, orb_false_r.
           ++ rewrite bool_decide_false, bool_decide_true by done.
              by rewrite orb_true_r, orb_false_r.
        -- by rewrite !orb_false_r.
      * rewrite Hother2, Hcell by done. unfold cell_of.
        rewrite !existsb_snoc.
        assert (item_for tn0 sn item = false) as Hfor.
        { unfold item_for. rewrite (bool_decide_false (_ = sn))
            by (intros E; apply Hsn; symmetry; exact E).
          apply andb_false_r. }
        rewrite !(item_solved_not_for _ _ _ _ Hfor), Hfor.
        by rewrite !orb_false_r.
    + rewrite pdict_get_set_ne by done. fold (lookup_cell data tn sn).
      rewrite Hcell. unfold cell_of. rewrite !existsb_snoc.
      assert (item_for tn sn item = false) as Hfor.
      { unfold item_for. by rewrite (bool_decide_false (_ = tn)). }
      rewrite !(item_solved_not_for _ _ _ _ Hfor), Hfor.
      by rewrite !orb_false_r.
  - intros tn. destruct (decide (tn0 = tn)) as [<-|Htn].
    + rewrite pdict_get_set_eq. intros [= H]. rewrite H in Hget2. done.
    + rewrite pdict_get_set_ne by done. apply Hne.
Qed.

Lemma solves_loop_reflects items0 items columns data :
  data_reflects items0 data →
  columns_reflect items0 columns →
  (∀ item, item ∈ items → has_solve item = true → is_Some (flag_perm item)) →
  ∃ columns' data',
    fold_left (fun acc item =>
                 match acc with
                 | inl e => inl e
                 | inr st => solves_step st item
                 end)
              items (inr (columns, data))
    = inr (columns', data')
    ∧ data_reflects (items0 ++ items) data'
    ∧ columns_reflect (items0 ++ items) columns'.
Proof.
  revert items0 columns data.
  induction items as [|item items IH]; intros items0 columns data Hd Hc Hperm.
  - exists columns, data. by rewrite app_nil_r.
  - destruct (solves_step_data items0 columns data item Hd)
      as (columns1 & data1 & Hstep & Hd1).
    { apply Hperm. by left. }
    pose proof (solves_step_columns _ _ _ _ _ _ Hc Hstep) as Hc1.
    destruct (IH (items0 ++ [item]) columns1 data1 Hd1 Hc1)
      as (columns' & data' & Hfold & Hd' & Hc').
    { intros x Hx. apply Hperm. by right. }
    exists columns', data'. cbn [fold_left]. rewrite Hstep.
    rewrite <- app_assoc in Hd', Hc'. done.
Qed.

Lemma elem_of_outer_join {B} (l : list B) (x : option B) :
  x ∈ outer_join l ↔ (∃ b, x = Some b ∧ b ∈ l) ∨ (x = None ∧ l = []).
Proof.
  destruct l as [|b l]; simpl.
  - rewrite list_elem_of_singleton. split.
    + intros ->. by right.
    + intros [(b & _ & Hb)|[-> _]]; [by apply elem_of_nil in Hb | done].
  - change (Some b :: map Some l) with (Some <$> (b :: l)).
    rewrite list_elem_of_fmap. split.
    + intros (y & -> & Hy). left. by exists y.
    + intros [(y & -> & Hy)|[_ ?]]; [by exists y | done].
Qed.

Lemma outer_join_inhabited {B} (l : list B) : ∃ x, x ∈ outer_join l.
Proof.
  destruct l as [|b l]; [exists None | exists (Some b)]; simpl; by left.
Qed.

Lemma elem_of_active_flags now db g :
  g ∈ active_flags now db ↔ g ∈ flags db ∧ shown_at now g.
Proof.
  unfold active_flags, shown_at. rewrite order_by_perm, list_elem_of_filter.
  rewrite Z.gtb_lt, Z.ltb_lt. tauto.
Qed.

Lemma elem_of_active_flag_ids now db n :
  n ∈ map Flag.id (active_flags now db) ↔
  ∃ g, g ∈ flags db ∧ Flag.id g = n ∧ shown_at now g.
Proof.
  change (map Flag.id (active_flags now db))
    with (Flag.id <$> active_flags now db).
  rewrite list_elem_of_fmap. split.
  - intros (g & -> & Hg). apply elem_of_active_flags in Hg as [??].
    by exists g.
  - intros (g & Hg & <- & Hs). exists g. split; [done|].
    by apply elem_of_active_flags.
Qed.

(** The rows of [all_hosts], read off the joins. *)
Lemma elem_of_all_hosts now services db item :
  item ∈ all_hosts now services db ↔
  ∃ s so fo t,
    s ∈ services ∧ Service.check_name s = "AgentCheck"
    ∧ match so with
      | Some sv =>
          sv ∈ solves db ∧ Solve.host sv = Service.host s
          ∧ Solve.team_id sv = Service.team_id s
          ∧ ∃ g, g ∈ flags db ∧ Flag.id g = Solve.flag_id sv ∧ shown_at now g
      | None =>
          ∀ sv, sv ∈ solves db → Solve.host sv = Service.host s →
                Solve.team_id sv = Service.team_id s →
                ¬ ∃ g, g ∈ flags db ∧ Flag.id g = Solve.flag_id sv
                       ∧ shown_at now g
      end
    ∧ match so, fo with
      | Some sv, Some f => f ∈ flags db ∧ Flag.id f = Solve.flag_id sv
      | Some sv, None => ∀ f, f ∈ flags db → Flag.id f ≠ Solve.flag_id sv
      | None, Some _ => False
      | None, None => True
      end
    ∧ match t with
      | Some T => T ∈ teams db ∧ Team.id T = Service.team_id s
      | None => ∀ T, T ∈ teams db → Team.id T ≠ Service.team_id s
      end
    ∧ item = {| service_name := Service.name s;
                host_port := Service.port s;
                host_team_id := Service.team_id s;
                host_name := Service.host s;
                team_name := Team.name <$> t;
                solve_id := Solve.id <$> so;
                host_flag_id := Flag.id <$> fo;
                flag_perm := Flag.perm <$> fo;
                flag_platform := Flag.platform <$> fo |}.
Proof.
  unfold all_hosts. cbv zeta. rewrite order_by_perm, list_elem_of_bind.
  assert (∀ {B} (P : B → Prop) `{∀ b, Decision (P b)} (l : list B),
            filter P l = [] ↔ ∀ b, b ∈ l → ¬ P b) as Hnil.
  { intros B P HP l. split.
    - intros E b Hb HPb.
      assert (b ∈ filter P l) as Hin by (by apply list_elem_of_filter).
      rewrite E in Hin. by apply elem_of_nil in Hin.
    - intros Hno. destruct (filter P l) as [|b l'] eqn:E; [done|].
      assert (b ∈ filter P l) as Hin by (rewrite E; by left).
      apply list_elem_of_filter in Hin as [HPb Hb]. by destruct (Hno b Hb). }
  split.
  - intros (s & Hitem & Hs). apply list_elem_of_filter in Hs as [Hck Hs].
    apply list_elem_of_bind in Hitem as (so & Hitem & Hso).
    apply list_elem_of_bind in Hitem as (fo & Hitem & Hfo).
    apply list_elem_of_bind in Hitem as (t & Hitem & Ht).
    apply list_elem_of_singleton in Hitem.
    exists s, so, fo, t. split; [done|]. split; [done|].
    apply elem_of_outer_join in Hso, Hfo, Ht.
    split; [|split; [|split; [|done]]].
    + destruct Hso as [(sv & -> & Hsv)|[-> Hsv]].
      * apply list_elem_of_filter in Hsv as [(? & ? & Hid) ?].
        by apply elem_of_active_flag_ids in Hid.
      * intros sv Hsv' Hh Ht' Hg. apply (proj1 (Hnil _ _ _ _) Hsv sv); [done|].
        split; [done|]. split; [done|]. by apply elem_of_active_flag_ids.
    + destruct so as [sv|].
      * destruct Hfo as [(f & -> & Hf)|[-> Hf]].
        -- by apply list_elem_of_filter in Hf as [? ?].
        -- intros f Hf'. by apply (proj1 (Hnil _ _ _ _) Hf f).
      * destruct Hfo as [(f & _ & Hf)|[-> _]]; [|done].
        by apply elem_of_nil in Hf.
    + destruct Ht as [(T & -> & HT)|[-> HT]].
      * by apply list_elem_of_filter in HT as [? ?].
      * intros T HT'. by apply (proj1 (Hnil _ _ _ _) HT T).
  - intros (s & so & fo & t & Hs & Hck & Hso & Hfo & Ht & ->).
    exists s. split; [|by apply list_elem_of_filter].
    apply list_elem_of_bind. exists so. split.
    2:{ apply elem_of_outer_join. destruct so as [sv|].
        - left. exists sv. split; [done|].
          destruct Hso as (? & ? & ? & Hg). apply list_elem_of_filter.
          split; [|done]. split; [done|]. split; [done|].
          by apply elem_of_active_flag_ids.
        - right. split; [done|]. apply Hnil. intros sv Hsv (? & ? & Hid).
          apply (Hso sv); [done..|]. by apply elem_of_active_flag_ids. }
    apply list_elem_of_bind. exists fo. split.
    2:{ apply elem_of_outer_join. destruct so as [sv|], fo as [f|];
          try done.
        - left. exists f. split; [done|]. destruct Hfo.
          by apply list_elem_of_filter.
        - right. split; [done|]. apply Hnil. intros f Hf. by apply Hfo.
        - by right. }
    apply list_elem_of_bind. exists t. split; [by left|].
    apply elem_of_outer_join. destruct t as [T|].
    + left. exists T. split; [done|]. destruct Ht.
      by apply list_elem_of_filter.
    + right. split; [done|]. apply Hnil. intros T HT. by apply Ht.
Qed.

(** A row that carries a solve carries the permission of its flag. *)
Lemma all_hosts_perm now services db item :
  item ∈ all_hosts now services db →
  has_solve item = true → is_Some (flag_perm item).
Proof.
  intros (s & so & fo & t & _ & _ & Hso & Hfo & _ & ->)%elem_of_all_hosts.
  unfold has_solve. simpl. destruct so as [sv|]; [|done]. intros _.
  destruct fo as [f|]; [by eexists|].
  destruct Hso as (_ & _ & _ & g & Hg & Hid & _). by destruct (Hfo g Hg).
Qed.

Lemma names_team_partner db s tn :
  names_team db s tn ↔
  ∃ t, match t with
       | Some T => T ∈ teams db ∧ Team.id T = Service.team_id s
       | None => ∀ T, T ∈ teams db → Team.id T ≠ Service.team_id s
       end ∧ tn = Team.name <$> t.
Proof.
  unfold names_team. split.
  - intros [(T & ? & ? & ->)|[-> ?]]; [by exists (Some T) | by exists None].
  - intros ([T|] & Ht & ->); [left; exists T; tauto | by right].
Qed.

Lemma item_for_all_hosts now services db tn sn :
  existsb (item_for tn sn) (all_hosts now services db) = true
  ↔ service_cell services db tn sn.
Proof.
  rewrite existsb_exists. unfold service_cell. split.
  - intros (item & Hitem%list_elem_of_In & Hfor).
    apply elem_of_all_hosts in Hitem
      as (s & so & fo & t & Hs & Hck & _ & _ & Ht & ->).
    unfold item_for in Hfor. simpl in Hfor.
    apply andb_true_iff in Hfor as [Htn%bool_decide_eq_true
                                    Hsn%bool_decide_eq_true].
    exists s. split; [done|]. split; [done|]. split; [done|].
    apply names_team_partner. by exists t.
  - intros (s & Hs & Hck & Hsn & (t & Ht & ->)%names_team_partner).
    assert (∃ so fo,
              match so with
              | Some sv =>
                  sv ∈ solves db ∧ Solve.host sv = Service.host s
                  ∧ Solve.team_id sv = Service.team_id s
                  ∧ ∃ g, g ∈ flags db ∧ Flag.id g = Solve.flag_id sv
                         ∧ shown_at now g
              | None =>
                  ∀ sv, sv ∈ solves db → Solve.host sv = Service.host s →
                        Solve.team_id sv = Service.team_id s →
                        ¬ ∃ g, g ∈ flags db ∧ Flag.id g = Solve.flag_id sv
                               ∧ shown_at now g
              end
              ∧ match so, fo with
                | Some sv, Some f => f ∈ flags db ∧ Flag.id f = Solve.flag_id sv
                | Some sv, None =>
                    ∀ f, f ∈ flags db → Flag.id f ≠ Solve.flag_id sv
                | None, Some _ => False
                | None, None => True
                end) as (so & fo & Hso & Hfo).
    { destruct (decide (Exists (fun sv =>
                  Solve.host sv = Service.host s
                  ∧ Solve.team_id sv = Service.team_id s
                  ∧ Solve.flag_id sv ∈ map Flag.id (active_flags now db))
                  (solves db))) as [Hex|Hno].
      - apply Exists_exists in Hex as (sv & Hsv & Hh & Ht' & Hid).
        apply elem_of_active_flag_ids in Hid as (g & Hg & Hgid & Hshown).
        exists (Some sv), (Some g). split; [|done].
        split; [done|]. split; [done|]. split; [done|].
        by exists g.
      - exists None, None. split; [|done]. intros sv Hsv Hh Ht' Hg.
        apply Hno, Exists_exists. exists sv.
        split; [done|]. split; [done|]. split; [done|].
        by apply elem_of_active_flag_ids. }
    eexists. split.
    + apply list_elem_of_In, elem_of_all_hosts.
      exists s, so, fo, t. by repeat (split; [done|]).
    + unfold item_for. simpl. rewrite Hsn.
      by rewrite !bool_decide_true.
Qed.

Lemma item_solved_all_hosts now services db pm tn sn :
  existsb (item_solved pm tn sn) (all_hosts now services db) = true
  ↔ solved_cell now services db tn sn pm.
Proof.
  rewrite existsb_exists. unfold solved_cell. split.
  - intros (item & Hitem%list_elem_of_In & Hsol).
    apply elem_of_all_hosts in Hitem
      as (s & so & fo & t & Hs & Hck & Hso & Hfo & Ht & ->).
    unfold item_solved, item_for, has_solve in Hsol. simpl in Hsol.
    apply andb_true_iff in Hsol as [Hsol Hpm%bool_decide_eq_true].
    apply andb_true_iff in Hsol as [Hfor Hid].
    apply andb_true_iff in Hfor as [Htn%bool_decide_eq_true
                                    Hsn%bool_decide_eq_true].
    destruct so as [sv|]; [|done]. destruct fo as [f|]; [|done].
    simpl in Hid, Hpm. injection Hpm as Hpm.
    destruct Hso as (Hsv & Hh & Ht' & Hg). destruct Hfo as [Hf Hfid].
    exists s, sv, f. repeat (split; [done|]).
    split; [apply names_team_partner; by exists t|].
    repeat (split; [done|]).
    split; [intros E; by rewrite E in Hid|]. done.
  - intros (s & sv & f & Hs & Hck & Hsn & (t & Ht & ->)%names_team_partner
            & Hsv & Hh & Ht' & Hid & Hg & Hf & Hfid & Hpm).
    eexists. split.
    + apply list_elem_of_In, elem_of_all_hosts.
      exists s, (Some sv), (Some f), t. by repeat (split; [done|]).
    + unfold item_solved, item_for, has_solve. simpl. rewrite Hsn, Hpm.
      rewrite !bool_decide_true by done. simpl.
      by destruct (Z.eqb_spec (Solve.id sv) 0).
Qed.

(** The loop of [api_flags_solves] over the rows of [all_hosts] ends
    without an exception, and leaves in [data] the cells the tables call
    for. *)
Lemma solves_loop_all_hosts now services db :
  ∃ columns data,
    solves_loop (all_hosts now services db) = inr (columns, data)
    ∧ data_reflects (all_hosts now services db) data
    ∧ columns_reflect (all_hosts now services db) columns.
Proof.
  unfold solves_loop.
  apply (solves_loop_reflects [] (all_hosts now services db) ["Team"] []).
  - split; [done|]. intros tn. done.
  - split; [apply NoDup_singleton|]. split; [done|]. intros c.
    rewrite list_elem_of_singleton. split; [by left|].
    intros [?|(x & Hx & _)]; [done|]. by apply elem_of_nil in Hx.
  - intros item. apply all_hosts_perm.
Qed.

Lemma bit_cases (b : bool) (P : Prop) :
  (b = true ↔ P) → bit b = 1 ∧ P ∨ bit b = 0 ∧ ¬ P.
Proof.
  intros H. destruct b; simpl.
  - left. split; [done|]. by apply H.
  - right. split; [done|]. intros HP. by apply H in HP.
Qed.

Lemma cell_of_all_hosts now services db tn sn :
  cell_spec now services db tn sn
    (cell_of (all_hosts now services db) tn sn).
Proof.
  unfold cell_spec, cell_of.
  destruct (existsb (item_for tn sn) _) eqn:Hfor.
  - split; [by apply (item_for_all_hosts now)|].
    split; apply bit_cases, item_solved_all_hosts.
  - intros H. apply (item_for_all_hosts now) in H. congruence.
Qed.

Section PDictKeys.
Context {K V : Type} `{EqDecision K}.
Implicit Types (d : list (K * V)) (k : K) (v : V).

Lemma pdict_get_elem k v d : pdict_get k d = Some v → (k, v) ∈ d.
Proof.
  induction d as [|[k' v'] d IH]; simpl; [done|].
  case_decide as Hk.
  - intros [= ->]. subst k'. by left.
  - intros H. right. by apply IH.
Qed.

Lemma pdict_elem_get k v d : NoDup d.*1 → (k, v) ∈ d → pdict_get k d = Some v.
Proof.
  induction d as [|[k' v'] d IH]; simpl.
  - intros _ H. by apply elem_of_nil in H.
  - intros [Hk' Hnd]%NoDup_cons [H|H]%elem_of_cons.
    + injection H as -> ->. by rewrite decide_True.
    + rewrite decide_False; [by apply IH|]. intros ->. apply Hk'.
      apply list_elem_of_fmap. by exists (k', v).
Qed.

Lemma pdict_set_elem k v k' v' d :
  (k', v') ∈ pdict_set k v d → (k', v') = (k, v) ∨ (k', v') ∈ d.
Proof.
  induction d as [|[k2 v2] d IH]; simpl.
  - intros H%list_elem_of_singleton. by left.
  - case_decide as Hk.
    + intros [H|H]%elem_of_cons; [left; congruence | right; by right].
    + intros [H|H]%elem_of_cons; [right; rewrite H; by left|].
      destruct (IH H) as [?|?]; [by left | right; by right].
Qed.

Lemma pdict_set_keys k v d :
  (pdict_set k v d).*1 = if decide (k ∈ d.*1) then d.*1 else d.*1 ++ [k].
Proof.
  induction d as [|[k2 v2] d IH].
  - destruct (decide (k ∈ ([] : list (K * V)).*1)) as [Hin|_]; [|done].
    by apply elem_of_nil in Hin.
  - cbn [pdict_set]. destruct (decide (k = k2)) as [->|Hk].
    + destruct (decide (k2 ∈ ((k2, v2) :: d).*1)) as [_|Hin]; [done|].
      destruct Hin. by left.
    + change (((k2, v2) :: pdict_set k v d).*1)
        with (k2 :: (pdict_set k v d).*1).
      rewrite IH. change (((k2, v2) :: d).*1) with (k2 :: d.*1).
      destruct (decide (k ∈ d.*1)) as [Hin|Hin],
               (decide (k ∈ k2 :: d.*1)) as [Hin'|Hin']; try done.
      * destruct Hin'. by right.
      * apply elem_of_cons in Hin' as [?|?]; done.
Qed.

Lemma pdict_set_NoDup k v d : NoDup d.*1 → NoDup (pdict_set k v d).*1.
Proof.
  intros Hnd. rewrite pdict_set_keys. case_decide as Hk; [done|].
  apply NoDup_app. split; [done|]. split; [|apply NoDup_singleton].
  by intros x Hx ->%list_elem_of_singleton.
Qed.
End PDictKeys.

Lemma keys_unique_set tn inner data :
  keys_unique data → NoDup inner.*1 →
  keys_unique (pdict_set tn inner data).
Proof.
  intros [Hnd Hin] Hinner. split; [by apply pdict_set_NoDup|].
  intros tn' inner' [H|H]%pdict_set_elem.
  - by injection H as -> ->.
  - by apply (Hin tn').
Qed.

Lemma solves_step_keys columns data item columns' data' :
  keys_unique data →
  solves_step (columns, data) item = inr (columns', data') →
  keys_unique data'.
Proof.
  intros Hwf. unfold solves_step. cbv zeta.
  set (data1 := match pdict_get (team_name item) data with
                | Some (_ :: _) => data
                | _ => pdict_set (team_name item) [] data
                end).
  assert (keys_unique data1) as Hwf1.
  { subst data1. destruct (pdict_get (team_name item) data) as [[|]|];
      try done; apply keys_unique_set; try done; apply NoDup_nil_2. }
  set (services0 := default [] (pdict_get (team_name item) data1)).
  assert (NoDup services0.*1) as Hs0.
  { subst services0.
    destruct (pdict_get (team_name item) data1) as [inner|] eqn:E; simpl.
    - apply pdict_get_elem in E. by apply (proj2 Hwf1 _ _ E).
    - apply NoDup_nil_2. }
  set (services1 := match pdict_get (service_name item) services0 with
                    | Some _ => services0
                    | None => pdict_set (service_name item) (0, 0) services0
                    end).
  assert (NoDup services1.*1) as Hs1.
  { subst services1. destruct (pdict_get (service_name item) services0);
      [done|]. by apply pdict_set_NoDup. }
  destruct (has_solve item).
  - destruct (flag_perm item) as [[]|]; [| |done]; intros [= _ <-];
      by apply keys_unique_set; [|apply pdict_set_NoDup].
  - intros [= _ <-]. by apply keys_unique_set.
Qed.

Lemma solves_loop_keys items columns data columns' data' :
  keys_unique data →
  fold_left (fun acc item =>
               match acc with
               | inl e => inl e
               | inr st => solves_step st item
               end)
            items (inr (columns, data))
  = inr (columns', data') →
  keys_unique data'.
Proof.
  revert columns data. induction items as [|item items IH];
    intros columns data Hwf; cbn [fold_left].
  - by intros [= _ <-].
  - destruct (solves_step (columns, data) item) as [e|[columns1 data1]] eqn:E.
    + intros H. exfalso. clear -H. induction items; [done|]. by apply IHitems.
    + apply IH. by apply (solves_step_keys _ _ _ _ _ Hwf E).
Qed.

Lemma names_team_exists db s : ∃ tn, names_team db s tn.
Proof.
  destruct (decide (Exists (fun T => Team.id T = Service.team_id s)
                           (teams db))) as [Hex|Hno].
  - apply Exists_exists in Hex as (T & HT & Hid).
    exists (Some (Team.name T)). left. by exists T.
  - exists None. right. split; [done|]. intros T HT Hid.
    apply Hno, Exists_exists. by exists T.
Qed.

(** The answer of [api_flags_solves] to a red or white caller. *)
Lemma api_flags_solves_authorised now u services db :
  is_red_team u = true ∨ is_white_team u = true →
  ∃ columns data,
    api_flags_solves now u services db
    = Ok {| solves_columns := columns;
            solves_rows :=
              map (fun kv : option string * list (string * (Z * Z)) =>
                     (kv.1, map snd kv.2)) data |}
    ∧ data_reflects (all_hosts now services db) data
    ∧ columns_reflect (all_hosts now services db) columns
    ∧ keys_unique data.
Proof.
  intros Hu.
  destruct (solves_loop_all_hosts now services db)
    as (columns & data & Hloop & Hd & Hc).
  exists columns, data. split; [|split; [done|split; [done|]]].
  - unfold api_flags_solves. rewrite Hloop.
    by destruct Hu as [-> | ->]; rewrite ?andb_false_r.
  - unfold solves_loop in Hloop. apply (solves_loop_keys _ _ _ _ _ ) in Hloop;
      [done|]. split; [apply NoDup_nil_2|]. intros tn inner H.
    by apply elem_of_nil in H.
Qed.

(** X16.  [api_flags_solves] never raises: it answers Unauthorized to a
    caller who is neither red nor white, and a table to any other caller.
    The columns of the table start with Team, repeat no name, and are besides
    Team exactly the names of the services checked by AgentCheck. *)
Theorem api_flags_solves_outcome
    (now : Z) (u : User) (services : list Service) (db : DB) :
  (is_red_team u = false ∧ is_white_team u = false
   ∧ api_flags_solves now u services db = Unauthorized)
  ∨ ((is_red_team u = true ∨ is_white_team u = true)
     ∧ ∃ table,
         api_flags_solves now u services db = Ok table
         ∧ head (solves_columns table) = Some "Team"
         ∧ NoDup (solves_columns table)
         ∧ ∀ c, c ∈ solves_columns table ↔
                c = "Team"
                ∨ ∃ s, s ∈ services ∧ Service.check_name s = "AgentCheck"
                       ∧ Service.name s = c).
Proof.
  destruct (decide (is_red_team u = true ∨ is_white_team u = true))
    as [Hu|Hu].
  2:{ left. unfold api_flags_solves.
      destruct (is_red_team u), (is_white_team u); try done;
        destruct Hu; tauto. }
  right. split; [done|].
  destruct (api_flags_solves_authorised now u services db Hu)
    as (columns & data & -> & _ & (Hnd & Hhd & Hin) & _).
  eexists. split; [done|]. simpl. split; [done|]. split; [done|].
  intros c. rewrite Hin. apply or_iff_compat_l. split.
  - intros (item & Hitem & Hc).
    apply elem_of_all_hosts in Hitem
      as (s & so & fo & t & Hs & Hck & _ & _ & _ & ->).
    by exists s.
  - intros (s & Hs & Hck & Hc).
    destruct (names_team_exists db s) as [tn Htn].
    assert (service_cell services db tn c) as Hcell by (by exists s).
    apply (item_for_all_hosts now) in Hcell.
    apply existsb_exists in Hcell as (item & Hitem%list_elem_of_In & Hfor).
    exists item. split; [done|]. unfold item_for in Hfor.
    by apply andb_true_iff in Hfor as [_ Hsn%bool_decide_eq_true].
Qed.

(** X17.  For a red or white caller the dictionary [data] behind the rows
    of [api_flags_solves] has one entry per team name and, at a team name
    and a service name, a cell exactly when an AgentCheck service of that
    name belongs to a team of that name (NULL for a service without team).
    The first (second) number of the cell is 1 when such a service has, on
    its host and for its team, a solve with a non-zero id of a flag shown
    at [now] whose permission is user (root), and 0 otherwise. *)
Theorem solves_cells_follow_tables
    (now : Z) (u : User) (services : list Service) (db : DB) :
  is_red_team u = true ∨ is_white_team u = true →
  ∃ columns data,
    api_flags_solves now u services db
    = Ok {| solves_columns := columns;
            solves_rows :=
              map (fun kv : option string * list (string * (Z * Z)) =>
                     (kv.1, map snd kv.2)) data |}
    ∧ NoDup data.*1
    ∧ ∀ tn sn, cell_spec now services db tn sn (lookup_cell data tn sn).
Proof.
  intros Hu.
  destruct (api_flags_solves_authorised now u services db Hu)
    as (columns & data & Hr & [Hcells _] & _ & [Hnd _]).
  exists columns, data. split; [done|]. split; [done|].
  intros tn sn. rewrite Hcells. apply cell_of_all_hosts.
Qed.

Lemma solves_rows_cells now u services db table row c :
  api_flags_solves now u services db = Ok table →
  row ∈ solves_rows table → c ∈ row.2 →
  ∃ sn, cell_spec now services db row.1 sn (Some c).
Proof.
  intros Hr Hrow Hc.
  assert (is_red_team u = true ∨ is_white_team u = true) as Hu.
  { unfold api_flags_solves in Hr.
    destruct (is_red_team u), (is_white_team u); try tauto. done. }
  destruct (api_flags_solves_authorised now u services db Hu)
    as (columns & data & Hr' & [Hcells Hne] & _ & [Hnd Hinner]).
  rewrite Hr' in Hr. injection Hr as <-. simpl in Hrow.
  change (row ∈ (fun kv : option string * list (string * (Z * Z)) =>
                   (kv.1, map snd kv.2)) <$> data) in Hrow.
  apply list_elem_of_fmap in Hrow as ([tn inner] & -> & Hkv).
  cbn [fst snd] in Hc |- *. change (c ∈ snd <$> inner) in Hc.
  apply list_elem_of_fmap in Hc as ([sn c'] & -> & Hc). cbn [snd].
  exists sn.
  assert (lookup_cell data tn sn = Some c') as Hl.
  { unfold lookup_cell. rewrite (pdict_elem_get _ _ _ Hnd Hkv). simpl.
    apply pdict_elem_get; [|done]. by apply (Hinner tn). }
  rewrite <- Hl, Hcells. apply cell_of_all_hosts.
Qed.

(** X18.  Every cell of a row that [api_flags_solves] returns is the cell of
    some AgentCheck service of the team named by the row, and holds the
    numbers 0 and 1 only: 1 in first (second) place exactly when there is a
    counted solve of a user (root) flag. *)
Theorem solves_rows_follow_tables
    (now : Z) (u : User) (services : list Service) (db : DB)
    (table : solves_table) (row : option string * list (Z * Z))
    (c : Z * Z) :
  api_flags_solves now u services db = Ok table →
  row ∈ solves_rows table → c ∈ row.2 →
  (c.1 = 0 ∨ c.1 = 1) ∧ (c.2 = 0 ∨ c.2 = 1)
  ∧ ∃ sn, service_cell services db row.1 sn
          ∧ (c.1 = 1 ↔ solved_cell now services db row.1 sn user)
          ∧ (c.2 = 1 ↔ solved_cell now services db row.1 sn root).
Proof.
  intros Hr Hrow Hc.
  destruct (solves_rows_cells _ _ _ _ _ _ _ Hr Hrow Hc) as [sn Hspec].
  destruct c as [a b]. simpl in *. destruct Hspec as (Hsvc & Ha & Hb).
  split; [tauto|]. split; [tauto|]. exists sn. split; [done|]. split.
  - split; [intros E | intros HS].
    + destruct Ha as [[_ ?]|[? _]]; [done | lia].
    + destruct Ha as [[? _]|[_ ?]]; [done | tauto].
  - split; [intros E | intros HS].
    + destruct Hb as [[_ ?]|[? _]]; [done | lia].
    + destruct Hb as [[? _]|[_ ?]]; [done | tauto].
Qed.

(** X19.  A solve counts only while its flag is shown: when no flag of the
    database is a non-dummy flag with [start_time < now < end_time], both
    bounds strict, every cell that [api_flags_solves] returns is [0, 0]. *)
Theorem solves_need_shown_flag
    (now : Z) (u : User) (services : list Service) (db : DB)
    (table : solves_table) (row : option string * list (Z * Z))
    (c : Z * Z) :
  Forall (fun g => now ≤ Flag.start_time g ∨ Flag.end_time g ≤ now
                   ∨ Flag.dummy g = true) (flags db) →
  api_flags_solves now u services db = Ok table →
  row ∈ solves_rows table → c ∈ row.2 →
  c = (0, 0).
Proof.
  intros Hnone Hr Hrow Hc.
  destruct (solves_rows_cells _ _ _ _ _ _ _ Hr Hrow Hc) as [sn Hspec].
  assert (∀ pm, ¬ solved_cell now services db row.1 sn pm) as Hno.
  { intros pm (s & sv & f & _ & _ & _ & _ & _ & _ & _ & _
               & (g & Hg & _ & Hs1 & Hs2 & Hs3) & _).
    rewrite Forall_forall in Hnone.
    destruct (Hnone g Hg) as [?|[?|?]]; [lia | lia | congruence]. }
  destruct c as [a b]. simpl in *. destruct Hspec as (_ & Ha & Hb).
  destruct Ha as [[_ Ha]|[-> _]]; [by destruct (Hno user)|].
  destruct Hb as [[_ Hb]|[-> _]]; [by destruct (Hno root)|]. done.
Qed.

(** ** The totals view outside its tables *)

Lemma odict_get_key {V} (k : string) (d : list (string * V)) v :
  odict_get k d = Some v → k ∈ map fst d.
Proof.
  induction d as [|[k' v'] d IH]; simpl; [done|].
  destruct (String.eqb_spec k k') as [->|Hne].
  - intros _. by left.
  - intros H. right. by apply IH.
Qed.

Lemma odict_set_keys {V} (k k' : string) (v : V) (d : list (string * V)) :
  k' ∈ map fst (odict_set k v d) ↔ k' = k ∨ k' ∈ map fst d.
Proof.
  induction d as [|[k2 v2] d IH]; simpl.
  - rewrite list_elem_of_singleton. split; [by left|].
    intros [?|H]; [done|]. by apply elem_of_nil in H.
  - destruct (String.eqb_spec k k2) as [->|Hne]; simpl.
    + rewrite elem_of_cons. tauto.
    + rewrite !elem_of_cons, IH. tauto.
Qed.

Lemma odict_set_present {V} (k k' : string) (v : V) (d : list (string * V)) :
  k ∈ map fst d →
  k' ∈ map fst (odict_set k v d) ↔ k' ∈ map fst d.
Proof.
  intros Hk. rewrite odict_set_keys. split; [|tauto].
  intros [->|?]; done.
Qed.

(** The keys of [totals] are the names of the blue teams. *)
Lemma totals_init_keys (l : list Team) acc k :
  k ∈ map fst
        (fold_left (fun d blue_team =>
                      odict_set (Team.name blue_team)
                        (Team.name blue_team, Q2Qc 0, Q2Qc 0) d) l acc)
  ↔ k ∈ map fst acc ∨ ∃ T, T ∈ l ∧ Team.name T = k.
Proof.
  revert acc. induction l as [|t l IH]; intros acc; simpl.
  - split; [by left|]. intros [?|(T & HT & _)]; [done|].
    by apply elem_of_nil in HT.
  - rewrite IH, odict_set_keys. split.
    + intros [[->|?]|(T & HT & Hk)].
      * right. exists t. split; [by left | done].
      * by left.
      * right. exists T. split; [by right | done].
    + intros [?|(T & [->|HT]%elem_of_cons & Hk)].
      * left. by right.
      * left. by left.
      * right. by exists T.
Qed.

(** The loop over the rows of one platform keeps the keys of [totals], and
    stops with KeyError, and nothing else, at a name that is no key. *)
Lemma assign_scores_keys p R d :
  match assign_scores p R d with
  | inl e => e = KeyError ∧ ∃ r, r ∈ R ∧ r.1 ∉ map fst d
  | inr d' =>
      (∀ r, r ∈ R → r.1 ∈ map fst d)
      ∧ ∀ k, k ∈ map fst d' ↔ k ∈ map fst d
  end.
Proof.
  revert d. induction R as [|[n s] R IH]; intros d; simpl.
  - split; [|done]. intros r Hr. by apply elem_of_nil in Hr.
  - destruct (odict_get n d) as [[[n0 w] x]|] eqn:Hget.
    + pose proof (odict_get_key _ _ _ Hget) as Hn.
      set (v := match p with
                | windows => (n0, s, x)
                | nix => (n0, w, s)
                end).
      specialize (IH (odict_set n v d)).
      destruct (assign_scores p R (odict_set n v d)) as [e|d'].
      * destruct IH as [-> (r & Hr & Hk)]. split; [done|].
        exists r. split; [by right|]. intros Hin. apply Hk.
        by apply odict_set_present.
      * destruct IH as [Hall Hkeys]. split.
        -- intros r [->|Hr]%elem_of_cons; [done|].
           apply (odict_set_present n _ v d Hn). by apply Hall.
        -- intros k. rewrite Hkeys. by apply odict_set_present.
    + split; [done|]. exists (n, s). split; [by left|]. simpl.
      intros Hin. apply odict_get_some in Hin as [v Hv]. congruence.
Qed.

(** A joined solve gives its team an amount on the platform of the flag. *)
Lemma solve_gives_amount db s f :
  s ∈ solves db → f ∈ flags db → Flag.id f = Solve.flag_id s →
  Solve.team_id s ∈ map fst (subquery2 (subquery1 db (Flag.platform f))).
Proof.
  intros Hs Hf Hid.
  assert ((s, f) ∈ solve_join_flag db (Flag.platform f)) as Hsf.
  { unfold solve_join_flag. apply list_elem_of_filter. split; [done|].
    apply list_elem_of_bind. exists s. split; [|done].
    apply list_elem_of_bind. exists f. split; [by left|].
    by apply list_elem_of_filter. }
  set (p := Flag.platform f) in *.
  set (g := evidence_key (s, f)).
  assert (g ∈ evidence_groups db p) as Hg.
  { unfold evidence_groups. apply elem_of_remove_dups.
    apply list_elem_of_fmap. by exists (s, f). }
  set (r1 := (g.1.1, g.1.2, level_name (group_level db p g))).
  assert (r1 ∈ subquery1 db p) as Hr1.
  { rewrite subquery1_closed. apply list_elem_of_fmap. by exists g. }
  unfold subquery2. rewrite map_map.
  apply list_elem_of_fmap.
  exists ((r1.1.1, r1.2),
          filter (fun r : Z * string * string => (r.1.1, r.2) = (r1.1.1, r1.2))
                 (subquery1 db p)).
  split; [done|]. apply group_by_elem. simpl. split; [|done].
  apply list_elem_of_fmap. by exists r1.
Qed.

Lemma api_flags_totals_authorised u db :
  is_red_team u || is_white_team u = true →
  api_flags_totals u db
  = match
      match assign_scores windows (final_query db windows)
              (fold_left (fun d blue_team =>
                            odict_set (Team.name blue_team)
                              (Team.name blue_team, Q2Qc 0, Q2Qc 0) d)
                         (blue_teams db) [])
      with
      | inl e => inl e
      | inr totals => assign_scores nix (final_query db nix) totals
      end
    with
    | inl e => Raise e
    | inr totals =>
        Ok (map (fun kv : string * (string * Qc * Qc) =>
                   let '(t0, t1, t2) := kv.2 in
                   {| team := t0; win_score := t1; nix_score := t2;
                      total_score := (t1 + t2)%Qc |})
                totals)
    end.
Proof.
  intros Hrole. unfold api_flags_totals.
  assert (negb (is_red_team u) && negb (is_white_team u) = false) as ->.
  { by destruct (is_red_team u), (is_white_team u). }
  done.
Qed.

(** X20.  The totals view is keyed by the names of the blue teams.  When a
    solve of an existing flag is recorded against a team whose name is the
    name of no blue team, the view raises KeyError for every red or white
    caller. *)
Theorem totals_key_error
    (u : User) (db : DB) (s : Solve) (f : Flag) (T : Team) :
  is_red_team u || is_white_team u = true →
  NoDup (map Team.id (teams db)) →
  s ∈ solves db → f ∈ flags db → Flag.id f = Solve.flag_id s →
  T ∈ teams db → Team.id T = Solve.team_id s →
  (∀ B, B ∈ teams db → Team.color B = "Blue" →
        Team.name B ≠ Team.name T) →
  api_flags_totals u db = Raise KeyError.
Proof.
  intros Hrole Hnd Hs Hf Hid HT HTid Hname.
  rewrite api_flags_totals_authorised by done.
  set (totals0 := fold_left _ (blue_teams db) []).
  assert (Team.name T ∉ map fst totals0) as Hkey.
  { subst totals0. rewrite totals_init_keys.
    intros [Hin|(B & [HB Hblue]%blue_teams_elem & Hn)].
    - by apply elem_of_nil in Hin.
    - by apply (Hname B). }
  assert ((Team.name T, platform_score db (Flag.platform f) (Team.id T))
          ∈ final_query db (Flag.platform f)) as Hrow.
  { apply final_query_elem; [done|]. exists T.
    split; [by apply team_lookup|]. split; [|done].
    rewrite HTid. by apply solve_gives_amount. }
  pose proof (assign_scores_keys windows (final_query db windows) totals0)
    as Hwin.
  destruct (assign_scores windows (final_query db windows) totals0)
    as [e|totals1].
  { by destruct Hwin as [-> _]. }
  destruct Hwin as [Hall1 Hkeys1].
  pose proof (assign_scores_keys nix (final_query db nix) totals1) as Hnix.
  destruct (assign_scores nix (final_query db nix) totals1) as [e|totals2].
  { by destruct Hnix as [-> _]. }
  destruct Hnix as [Hall2 _]. exfalso. apply Hkey.
  destruct (Flag.platform f).
  - by apply (Hall1 _ Hrow).
  - apply Hkeys1. by apply (Hall2 _ Hrow).
Qed.

(** X21.  The totals view raises nothing but KeyError, and when it answers,
    the teams of its entries are the names of the blue teams. *)
Theorem api_flags_totals_outcome (u : User) (db : DB) :
  (is_red_team u = false ∧ is_white_team u = false
   ∧ api_flags_totals u db = Unauthorized)
  ∨ (is_red_team u || is_white_team u = true
     ∧ (api_flags_totals u db = Raise KeyError
        ∨ ∃ entries,
            api_flags_totals u db = Ok entries
            ∧ ∀ n, n ∈ map team entries ↔
                   ∃ B, B ∈ teams db ∧ Team.color B = "Blue"
                        ∧ Team.name B = n)).
Proof.
  destruct (is_red_team u || is_white_team u) eqn:Hrole.
  2:{ left. apply orb_false_iff in Hrole as [Hr Hw].
      unfold api_flags_totals. by rewrite Hr, Hw. }
  right. split; [done|].
  rewrite api_flags_totals_authorised by done.
  set (totals0 := fold_left _ (blue_teams db) []).
  (* every value of [totals] carries its key as the name *)
  assert (∀ p R d,
            Forall (fun kv : string * (string * Qc * Qc) => kv.2.1.1 = kv.1) d →
            match assign_scores p R d with
            | inl _ => True
            | inr d' => Forall (fun kv : string * (string * Qc * Qc) =>
                                  kv.2.1.1 = kv.1) d'
            end) as Hnames.
  { intros p R. induction R as [|[n s] R IH]; intros d Hd; simpl; [done|].
    destruct (odict_get n d) as [[[n0 w] x]|] eqn:Hget; [|done].
    apply IH.
    assert (n0 = n) as ->.
    { clear -Hd Hget. induction d as [|[k v] d IHd]; [done|].
      simpl in Hget. apply Forall_cons in Hd as [Hk Hd].
      destruct (String.eqb_spec n k) as [->|Hne].
      - injection Hget as ->. done.
      - by apply IHd. }
    clear -Hd. induction d as [|[k v] d IHd]; simpl.
    - apply Forall_cons. split; [by destruct p|done].
    - apply Forall_cons in Hd as [Hk Hd].
      destruct (String.eqb_spec n k) as [->|Hne].
      + apply Forall_cons. split; [by destruct p|done].
      + apply Forall_cons. split; [done|]. by apply IHd. }
  assert (Forall (fun kv : string * (string * Qc * Qc) => kv.2.1.1 = kv.1)
                 totals0) as H0.
  { subst totals0. generalize (blue_teams db).
    assert (Forall (fun kv : string * (string * Qc * Qc) => kv.2.1.1 = kv.1)
                   []) as Hnil by done.
    revert Hnil. generalize (@nil (string * (string * Qc * Qc))).
    intros acc Hacc l. revert acc Hacc.
    induction l as [|t l IH]; intros acc Hacc; [done|]. simpl. apply IH.
    clear -Hacc. induction acc as [|[k v] acc IHacc]; simpl.
    - by apply Forall_cons.
    - apply Forall_cons in Hacc as [Hk Hacc].
      destruct (String.eqb_spec (Team.name t) k) as [->|Hne].
      + by apply Forall_cons.
      + apply Forall_cons. split; [done|]. by apply IHacc. }
  pose proof (assign_scores_keys windows (final_query db windows) totals0)
    as Hwin.
  pose proof (Hnames windows (final_query db windows) totals0 H0) as Hn1.
  destruct (assign_scores windows (final_query db windows) totals0)
    as [e|totals1].
  { left. by destruct Hwin as [-> _]. }
  destruct Hwin as [_ Hkeys1].
  pose proof (assign_scores_keys nix (final_query db nix) totals1) as Hnix.
  pose proof (Hnames nix (final_query db nix) totals1 Hn1) as Hn2.
  destruct (assign_scores nix (final_query db nix) totals1) as [e|totals2].
  { left. by destruct Hnix as [-> _]. }
  destruct Hnix as [_ Hkeys2].
  right. eexists. split; [done|]. intros n. rewrite map_map.
  assert (map (fun kv : string * (string * Qc * Qc) =>
                 team (let '(t0, t1, t2) := kv.2 in
                       {| team := t0; win_score := t1; nix_score := t2;
                          total_score := (t1 + t2)%Qc |})) totals2
          = map fst totals2) as ->.
  { clear -Hn2. induction totals2 as [|[k [[a b] c]] d IH]; [done|].
    apply Forall_cons in Hn2 as [Hk Hd]. simpl in *. rewrite Hk.
    f_equal. by apply IH. }
  rewrite Hkeys2, Hkeys1. subst totals0. rewrite totals_init_keys.
  split.
  - intros [Hin|(B & [HB Hblue]%blue_teams_elem & Hn)].
    + by apply elem_of_nil in Hin.
    + by exists B.
  - intros (B & HB & Hblue & Hn). right. exists B.
    split; [by apply blue_teams_elem | done].
Qed.

(** ** The FTP debugging script: [split_parent] *)

Lemma rsplit1_spec c s :
  if contains_char c s
  then ∃ before after,
         rsplit1 c s = [before; after]
         ∧ s = before +:+ String c after
         ∧ contains_char c after = false
  else rsplit1 c s = [s].
Proof.
  induction s as [|a s IH]; [done|]. simpl.
  destruct (contains_char c s) eqn:Hs.
  - destruct IH as (b & r & -> & -> & Hr). rewrite orb_true_r.
    exists (String a b), r. done.
  - rewrite IH, orb_false_r. destruct (Ascii.eqb_spec a c) as [->|Hne].
    + exists EmptyString, s. done.
    + destruct s; done.
Qed.

Lemma append_cons a s t : (String a s +:+ t) = String a (s +:+ t).
Proof. reflexivity. Qed.

Lemma rstrip_char_end c s b :
  rstrip_char c s ≠ b +:+ String c EmptyString.
Proof.
  revert b. induction s as [|a s IH]; intros b; simpl.
  - destruct b; [done|]. by rewrite append_cons.
  - destruct (rstrip_char c s) as [|x r] eqn:Hr.
    + destruct (Ascii.eqb_spec a c) as [->|Hne].
      * destruct b; [done|]. by rewrite append_cons.
      * destruct b as [|y [|z b]]; rewrite ?append_cons;
          change (EmptyString +:+ String c EmptyString)
            with (String c EmptyString); congruence.
    + destruct b as [|y b].
      * change (EmptyString +:+ String c EmptyString)
          with (String c EmptyString). congruence.
      * rewrite append_cons. intros [= -> Hb]. by apply (IH b).
Qed.

(** X22.  [split_parent] never raises.  The name it returns holds no
    slash.  For a path without an inner slash the parent is "." and the
    name is the path without its leading and trailing slashes; otherwise the
    parent starts with a slash, the name is not empty, and parent, slash and
    name together give the path with a single leading slash and no
    trailing one. *)
Theorem split_parent_spec (remote_path : string) :
  ∃ parent name,
    split_parent remote_path = inr (parent, name)
    ∧ contains_char "/" name = false
    ∧ ((parent = "." ∧ name = strip_char "/" remote_path)
       ∨ (∃ p, parent = String "/" p
               ∧ name ≠ EmptyString
               ∧ parent +:+ String "/" name
                 = String "/" (strip_char "/" remote_path))).
Proof.
  unfold split_parent. cbv zeta.
  pose proof (rsplit1_spec "/" (strip_char "/" remote_path)) as Hsplit.
  destruct (contains_char "/" (strip_char "/" remote_path)) eqn:Hc; simpl.
  - destruct Hsplit as (b & r & -> & Hclean & Hr).
    exists (String "/" b), r. split; [done|]. split; [done|]. right.
    exists b. split; [done|]. split; [|by rewrite Hclean].
    intros ->. by apply (rstrip_char_end "/" (lstrip_char "/" remote_path) b).
  - eexists _, _. split; [done|]. split; [done|]. by left.
Qed.

(** ** The further properties at work on the sample data *)


Lemma flag_id_precedes_token_witness :
  api_flags_submit T0 T0 red_user
    {[ "team_id" := PInt 1; "flag_id" := PInt 1; "flag" := PStr "junk" ]}
    sample_db
  = api_flags_submit T0 T0 red_user (req_payload (id_request T0 1 1))
      sample_db.
Proof. apply flag_id_precedes_token; reflexivity. Defined.

Lemma no_double_penalty_witness :
  let qs := [token_request T0 1 "FLAG123"; id_request (T0 + minute) 1 1] in
  penalty_points (run_submits qs sample_db).2 1
  = penalty_points sample_db 1
    + (if decide (Team.id blue1 = 1)
       then get_red_flag_submission_penalty sample_db else 0).
Proof.
  intros qs.
  apply (no_double_penalty sample_db flag123 blue1 qs);
    [reflexivity | done | repeat constructor].
Defined.

Lemma adjust_score_reason_not_text_witness :
  api_flags_adjust_score T0 white_user
    {[ "team_id" := PInt 1; "points" := PInt 5; "reason" := PInt 7 ]}
    sample_db
  = (Raise AttributeError, sample_db).
Proof.
  apply adjust_score_reason_not_text; [reflexivity | reflexivity |].
  intros raw H. vm_compute in H. discriminate.
Defined.



Lemma dummy_flag_excluded_witness :
  (∀ now u entries e,
     api_flags now u decoy_db = Ok entries → e ∈ entries →
     entry_id e ≠ Flag.id decoy_flag)
  ∧ (∀ now at_ u payload body,
       (api_flags_submit now at_ u payload decoy_db).1 = Ok body →
       submit_flag_id body ≠ Flag.id decoy_flag).
Proof.
  apply (dummy_flag_excluded decoy_db decoy_flag).
  - apply (bool_decide_unpack _). by vm_compute.
  - right. left.
  - reflexivity.
Defined.

Lemma solves_cells_follow_tables_witness :
  ∃ columns data,
    api_flags_solves (T0 + minute) red_user sample_services solves_db
    = Ok {| solves_columns := columns;
            solves_rows :=
              map (fun kv : option string * list (string * (Z * Z)) =>
                     (kv.1, map snd kv.2)) data |}
    ∧ NoDup data.*1
    ∧ ∀ tn sn,
        cell_spec (T0 + minute) sample_services solves_db tn sn
          (lookup_cell data tn sn).
Proof.
  apply (solves_cells_follow_tables (T0 + minute) red_user sample_services
           solves_db).
  left. reflexivity.
Defined.

Lemma solves_rows_follow_tables_witness :
  let table :=
    {| solves_columns := ["Team"; "db"; "web"];
       solves_rows := [(Some "blue-1", [(0, 0); (1, 1)]);
                       (Some "blue-3", [(1, 0)]);
                       (None, [(0, 0)])] |} in
  let row := (Some "blue-1", [(0, 0); (1, 1)]) in
  let c := (1, 1) in
  (c.1 = 0 ∨ c.1 = 1) ∧ (c.2 = 0 ∨ c.2 = 1)
  ∧ ∃ sn, service_cell sample_services solves_db row.1 sn
          ∧ (c.1 = 1 ↔
             solved_cell (T0 + minute) sample_services solves_db row.1 sn user)
          ∧ (c.2 = 1 ↔
             solved_cell (T0 + minute) sample_services solves_db row.1 sn root).
Proof.
  intros table row c.
  apply (solves_rows_follow_tables (T0 + minute) red_user sample_services
           solves_db table row c).
  - by vm_compute.
  - left.
  - right. left.
Defined.

Lemma solves_need_shown_flag_witness :
  let table :=
    {| solves_columns := ["Team"; "db"; "web"];
       solves_rows := [(Some "blue-1", [(0, 0); (0, 0)]);
                       (Some "blue-3", [(0, 0)]);
                       (None, [(0, 0)])] |} in
  let row : option string * list (Z * Z) := (Some "blue-3", [(0, 0)]) in
  nth 0 row.2 (1, 1) = (0, 0).
Proof.
  intros table row.
  apply (solves_need_shown_flag T0 red_user sample_services solves_db
           table row).
  - repeat (constructor; [left; by vm_compute|]). constructor.
  - by vm_compute.
  - right. left.
  - left.
Defined.

Lemma totals_key_error_witness :
  api_flags_totals red_user stray_db = Raise KeyError.
Proof.
  apply (totals_key_error red_user stray_db stray_solve
           (mk_flag 1 nix user T0 "A") red_team).
  - reflexivity.
  - apply (bool_decide_unpack _). by vm_compute.
  - apply elem_of_app. right. left.
  - left.
  - reflexivity.
  - right. right. left.
  - reflexivity.
  - intros B HB.
    repeat (apply elem_of_cons in HB as [->|HB]; [by vm_compute|]).
    by apply elem_of_nil in HB.
Defined.

Example solves_matrix_sample :
  api_flags_solves (T0 + minute) red_user sample_services solves_db
  = Ok {| solves_columns := ["Team"; "db"; "web"];
          solves_rows := [(Some "blue-1", [(0, 0); (1, 1)]);
                          (Some "blue-3", [(1, 0)]);
                          (None, [(0, 0)])] |}
  ∧ api_flags_solves T0 white_user sample_services solves_db
    = Ok {| solves_columns := ["Team"; "db"; "web"];
            solves_rows := [(Some "blue-1", [(0, 0); (0, 0)]);
                            (Some "blue-3", [(0, 0)]);
                            (None, [(0, 0)])] |}
  ∧ api_flags_solves T0 {| User.id := 10; User.team := blue1 |}
      sample_services solves_db
    = Unauthorized.
Proof. repeat split; by vm_compute. Qed.

Example split_parent_samples :
  split_parent "/srv/ftp/upload/file.txt" = inr ("/srv/ftp/upload", "file.txt")
  ∧ split_parent "file.txt" = inr (".", "file.txt")
  ∧ split_parent "//a//b//" = inr ("/a/", "b")
  ∧ split_parent "///" = inr (".", EmptyString).
Proof. repeat split. Qed.
